(** * LeNet-5 with summaries: a shallow embedding of [chapter13/lenet_with_summary.py]

    The script is a sequence of calls into MindSpore and argparse.  The
    embedding keeps the script's own functions ([create_dataset], [conv],
    [fc_with_initialize], [weight_variable], [LeNet5], [CrossEntropyLoss],
    [main] and the command-line block) as Rocq functions with the same names and
    the same statement order.  The library operators they call are represented
    by a small tensor algebra: a tensor is the expression that built it, and
    [infer] computes its shape and element type or raises the error the
    operator raises on a shape mismatch.  Numerical kernels (convolution,
    softmax, interpolation) are not evaluated; Python floats are binary64
    values, so the constants of the script are the very same numbers. *)

From Stdlib Require Import ZArith List String Ascii Bool Lia Floats Permutation.
From stdpp Require Import base list strings gmap.

Set Warnings "-inexact-float".

Open Scope string_scope.
Open Scope list_scope.
Open Scope stdpp_scope.
Open Scope Z_scope.

(** ** Python exceptions and results *)

Inductive exn :=
| ValueError (msg : string)
| TypeError (msg : string)
| IndexError (msg : string)
| AttributeError (msg : string)
| RuntimeError (msg : string)
| SystemExit (code : Z).

Inductive result (A : Type) :=
| Ok (a : A)
| Raise (e : exn).
Arguments Ok {A} a.
Arguments Raise {A} e.

Definition rbind {A B} (r : result A) (k : A -> result B) : result B :=
  match r with
  | Ok a => k a
  | Raise e => Raise e
  end.

Fixpoint mapR {A B} (f : A -> result B) (l : list A) : result (list B) :=
  match l with
  | [] => Ok []
  | x :: l' => rbind (f x) (fun y => rbind (mapR f l') (fun ys => Ok (y :: ys)))
  end.

(** ** Tensors *)

Inductive dtype := UInt8 | UInt32 | Int32 | Float32.

Definition dtype_eqb (a b : dtype) : bool :=
  match a, b with
  | UInt8, UInt8 | UInt32, UInt32 | Int32, Int32 | Float32, Float32 => true
  | _, _ => false
  end.

(** [mindspore.dataset.transforms.vision.Inter] *)
Inductive Inter := NEAREST | LINEAR | BICUBIC.

Inductive PadMode := PadValid | PadSame | PadPad.

(** [mindspore.common.initializer.TruncatedNormal(sigma)] *)
Record Initializer := TruncatedNormal { sigma : float }.

(** The cell [nn.Conv2d(in_channels, out_channels, kernel_size, stride,
    padding, weight_init, has_bias, pad_mode)]. *)
Record Conv2dCell := {
  in_channels : Z;
  out_channels : Z;
  kernel_size : Z;
  stride : Z;
  padding : Z;
  weight_init : Initializer;
  has_bias : bool;
  pad_mode : PadMode
}.

(** The cell [nn.Dense(in_channels, out_channels, weight_init, bias_init)]. *)
Record DenseCell := {
  dense_in : Z;
  dense_out : Z;
  dense_weight_init : Initializer;
  dense_bias_init : Initializer
}.

(** The cell [nn.MaxPool2d(kernel_size, stride)]; its padding mode is the
    default one, "valid". *)
Record MaxPool2dCell := {
  pool_kernel : Z;
  pool_stride : Z
}.

Definition shape := list Z.

(** A tensor is the expression that produced it.  [Given] is a tensor that
    comes from outside (a decoded dataset column, a caller's argument) with
    the shape and element type it was created with. *)
#[warnings="-register-all"]
Inductive tensor :=
| Given (origin : string) (index : nat) (shp : shape) (dt : dtype)
| Scalar (v : float) (dt : dtype)
| TypeCast (dt : dtype) (x : tensor)
| Resize (height width : Z) (interpolation : Inter) (x : tensor)
| Rescale (rescale shift : float) (x : tensor)
| HWC2CHW (x : tensor)
| Stack (rows : list tensor)
| Conv2d (cell : Conv2dCell) (x : tensor)
| ReLU (x : tensor)
| MaxPool2d (cell : MaxPool2dCell) (x : tensor)
| Reshape (target : shape) (x : tensor)
| Dense (cell : DenseCell) (x : tensor)
| OneHot (indices : tensor) (depth : Z) (on_value off_value : tensor)
| SoftmaxCrossEntropyLoss (logits labels : tensor)
| SoftmaxCrossEntropyGrad (logits labels : tensor)
| ReduceMean (axis : list Z) (x : tensor).

Definition ttype : Type := shape * dtype.

Definition shape_eqb (a b : shape) : bool :=
  bool_decide (a = b).

Definition ttype_eqb (a b : ttype) : bool :=
  shape_eqb (fst a) (fst b) && dtype_eqb (snd a) (snd b).

Definition prod_dims (s : shape) : Z := fold_right Z.mul 1 s.

(** *** Shape rules of the operators *)

Definition require_float {A} (dt : dtype) (who : string) (k : result A) : result A :=
  match dt with
  | Float32 => k
  | _ => Raise (TypeError (String.append who ": input must be float32"))
  end.

(** One spatial extent of a convolution. *)
Definition conv_extent (pm : PadMode) (i k s p : Z) : result Z :=
  match pm with
  | PadValid =>
      if i <? k then Raise (ValueError "Conv2d: kernel larger than input")
      else Ok ((i - k) / s + 1)
  | PadSame => Ok ((i + s - 1) / s)
  | PadPad =>
      if i + 2 * p <? k then Raise (ValueError "Conv2d: kernel larger than input")
      else Ok ((i + 2 * p - k) / s + 1)
  end.

Definition conv2d_rule (c : Conv2dCell) (t : ttype) : result ttype :=
  match t with
  | ([n; ch; h; w], dt) =>
      require_float dt "Conv2d"
        (if negb (ch =? in_channels c)
         then Raise (ValueError "Conv2d: channel mismatch")
         else
           rbind (conv_extent (pad_mode c) h (kernel_size c) (stride c) (padding c)) (fun h' =>
           rbind (conv_extent (pad_mode c) w (kernel_size c) (stride c) (padding c)) (fun w' =>
           Ok ([n; out_channels c; h'; w'], dt))))
  | _ => Raise (ValueError "Conv2d: input must have rank 4")
  end.

Definition pool_extent (i k s : Z) : result Z :=
  if i <? k then Raise (ValueError "MaxPool2d: window larger than input")
  else Ok ((i - k) / s + 1).

Definition maxpool2d_rule (c : MaxPool2dCell) (t : ttype) : result ttype :=
  match t with
  | ([n; ch; h; w], dt) =>
      rbind (pool_extent h (pool_kernel c) (pool_stride c)) (fun h' =>
      rbind (pool_extent w (pool_kernel c) (pool_stride c)) (fun w' =>
      Ok ([n; ch; h'; w'], dt)))
  | _ => Raise (ValueError "MaxPool2d: input must have rank 4")
  end.

(** [P.Reshape]: at most one entry of the target is -1 and stands for the
    extent that keeps the number of elements; every other entry is positive. *)
Definition reshape_rule (target : shape) (t : ttype) : result ttype :=
  let total := prod_dims (fst t) in
  let known := List.filter (fun d => negb (d =? -1)) target in
  let holes := (length target - length known)%nat in
  if negb (forallb (fun d => 0 <? d) known)
  then Raise (ValueError "Reshape: bad extent in target shape")
  else
    match holes with
    | O =>
        if prod_dims known =? total then Ok (target, snd t)
        else Raise (ValueError "Reshape: element count differs")
    | S O =>
        if total mod prod_dims known =? 0
        then Ok (map (fun d => if d =? -1 then total / prod_dims known else d) target, snd t)
        else Raise (ValueError "Reshape: element count not divisible")
    | _ => Raise (ValueError "Reshape: more than one -1 in target shape")
    end.

(** [nn.Dense] multiplies a matrix of rows by its weight. *)
Definition dense_rule (c : DenseCell) (t : ttype) : result ttype :=
  match t with
  | ([n; k], dt) =>
      require_float dt "Dense"
        (if k =? dense_in c then Ok ([n; dense_out c], dt)
         else Raise (ValueError "Dense: input width differs from in_channels"))
  | _ => Raise (ValueError "Dense: input must have rank 2")
  end.

Definition resize_rule (h w : Z) (t : ttype) : result ttype :=
  match t with
  | ([_; _; c], dt) => Ok ([h; w; c], dt)
  | ([_; _], dt) => Ok ([h; w], dt)
  | _ => Raise (RuntimeError "Resize: image must be <H,W> or <H,W,C>")
  end.

Definition hwc2chw_rule (t : ttype) : result ttype :=
  match t with
  | ([h; w; c], dt) => Ok ([c; h; w], dt)
  | _ => Raise (RuntimeError "HWC2CHW: image must be <H,W,C>")
  end.

(** Batching stacks equally typed rows along a new leading axis. *)
Definition stack_rule (ts : list ttype) : result ttype :=
  match ts with
  | [] => Raise (RuntimeError "batch: no rows")
  | t :: rest =>
      if forallb (ttype_eqb t) rest
      then Ok (Z.of_nat (length ts) :: fst t, snd t)
      else Raise (RuntimeError "batch: rows differ in shape or type")
  end.

Definition onehot_rule (depth : Z) (ti ton toff : ttype) : result ttype :=
  match snd ti with
  | Int32 =>
      if depth <? 0 then Raise (ValueError "OneHot: depth must not be negative")
      else if negb (ttype_eqb ton ([], snd ton) && ttype_eqb toff ([], snd ton))
      then Raise (TypeError "OneHot: on_value and off_value must be scalars of one type")
      else Ok (fst ti ++ [depth], snd ton)
  | _ => Raise (TypeError "OneHot: indices must be int32")
  end.

(** Logits and labels have the same shape (rows, classes) and type; the
    kernel needs at least one row and one class. *)
Definition xent_check (tl ty : ttype) : result (Z * Z * dtype) :=
  match tl with
  | ([n; c], dt) =>
      require_float dt "SoftmaxCrossEntropyWithLogits"
        (if ttype_eqb tl ty then
           if (1 <=? n) && (1 <=? c) then Ok (n, c, dt)
           else Raise (RuntimeError "SoftmaxCrossEntropyWithLogits: no rows or no classes")
         else Raise (ValueError "SoftmaxCrossEntropyWithLogits: logits and labels differ"))
  | _ => Raise (ValueError "SoftmaxCrossEntropyWithLogits: logits must have rank 2")
  end.

(** An axis counts from the end when negative. *)
Definition norm_axis (rank : nat) (a : Z) : result nat :=
  let r := Z.of_nat rank in
  if (a <? - r) || (r <=? a) then Raise (ValueError "ReduceMean: axis out of range")
  else Ok (Z.to_nat (if a <? 0 then a + r else a)).

Fixpoint drop_axes (axes : list nat) (i : nat) (s : shape) : shape :=
  match s with
  | [] => []
  | d :: s' =>
      if existsb (Nat.eqb i) axes then drop_axes axes (S i) s'
      else d :: drop_axes axes (S i) s'
  end.

(** [P.ReduceMean()] keeps no reduced axis ([keep_dims] defaults to False). *)
Definition reducemean_rule (axis : list Z) (t : ttype) : result ttype :=
  require_float (snd t) "ReduceMean"
    (rbind (mapR (norm_axis (length (fst t))) axis) (fun axes =>
     Ok (drop_axes axes 0 (fst t), snd t))).

(** *** Shape and type inference *)

Fixpoint infer (t : tensor) : result ttype :=
  match t with
  | Given _ _ shp dt => Ok (shp, dt)
  | Scalar _ dt => Ok ([], dt)
  | TypeCast dt x => rbind (infer x) (fun tx => Ok (fst tx, dt))
  | Resize h w _ x => rbind (infer x) (resize_rule h w)
  | Rescale _ _ x => rbind (infer x) (fun tx => Ok (fst tx, Float32))
  | HWC2CHW x => rbind (infer x) hwc2chw_rule
  | Stack rows =>
      rbind ((fix each (l : list tensor) : result (list ttype) :=
                match l with
                | [] => Ok []
                | y :: l' =>
                    rbind (infer y) (fun ty => rbind (each l') (fun tys => Ok (ty :: tys)))
                end) rows)
            stack_rule
  | Conv2d c x => rbind (infer x) (conv2d_rule c)
  | ReLU x => rbind (infer x) (fun tx => require_float (snd tx) "ReLU" (Ok tx))
  | MaxPool2d c x => rbind (infer x) (maxpool2d_rule c)
  | Reshape target x => rbind (infer x) (reshape_rule target)
  | Dense c x => rbind (infer x) (dense_rule c)
  | OneHot i depth on off =>
      rbind (infer i) (fun ti =>
      rbind (infer on) (fun ton =>
      rbind (infer off) (fun toff => onehot_rule depth ti ton toff)))
  | SoftmaxCrossEntropyLoss l y =>
      rbind (infer l) (fun tl =>
      rbind (infer y) (fun ty =>
      rbind (xent_check tl ty) (fun '(n, _, dt) => Ok ([n], dt))))
  | SoftmaxCrossEntropyGrad l y =>
      rbind (infer l) (fun tl =>
      rbind (infer y) (fun ty =>
      rbind (xent_check tl ty) (fun '(n, c, dt) => Ok ([n; c], dt))))
  | ReduceMean axis x => rbind (infer x) (reducemean_rule axis)
  end.

(** [F.shape(x)] *)
Definition F_shape (x : tensor) : result shape :=
  rbind (infer x) (fun tx => Ok (fst tx)).

(** Python's [t[i]] on a tuple, for a non-negative literal index. *)
Definition tuple_get {A} (t : list A) (i : nat) : result A :=
  match nth_error t i with
  | Some a => Ok a
  | None => Raise (IndexError "tuple index out of range")
  end.

(** ** Effects: the trace of library calls, the summary cache, the writer *)

(** A summary value captured by a summary operator during a forward pass. *)
Inductive summary_value :=
| ScalarValue (value : tensor)
| ImageValue (value : tensor).

(** [nn.Momentum(params, learning_rate, momentum)]; a parameter is known by
    its name and shape. *)
Record Optimizer := Momentum {
  opt_params : list (string * shape);
  opt_learning_rate : float;
  opt_momentum : float
}.

Inductive exec_mode := GRAPH_MODE | PYNATIVE_MODE.

Inductive event :=
| EvSetContext (mode : exec_mode) (device_target : string)
| EvSummaryOpen (log_dir : string)
| EvDatasetOpen (path : string)
| EvPrint (line : string)
| EvImageSummary (name : string) (value : tensor)
| EvScalarSummary (name : string) (value : tensor)
| EvApply (out : tensor)
| EvUpdate (opt : Optimizer) (step : Z) (loss : tensor)
| EvSummaryRecord (log_dir : string) (step : Z) (data : list (string * summary_value))
| EvSummaryClose (log_dir : string).

(** The object behind [SummaryRecord(log_dir=..., network=...)]. *)
Record SummaryRecord := {
  log_dir : string;
  closed : bool;
  records : list (Z * list (string * summary_value))
}.

Record state := {
  trace : list event;
  summary_cache : gmap string summary_value;
  writer : option SummaryRecord
}.

Definition initial_state : state :=
  {| trace := []; summary_cache := ∅; writer := None |}.

(** A computation either returns, raises, or does not terminate ([None]);
    an exception leaves the effects that happened before it in place. *)
Definition M (A : Type) : Type := state -> option (result A * state).

Definition ret {A} (a : A) : M A := fun s => Some (Ok a, s).

Definition raise {A} (e : exn) : M A := fun s => Some (Raise e, s).

Definition diverge {A} : M A := fun _ => None.

Definition bind {A B} (c : M A) (k : A -> M B) : M B :=
  fun s =>
    match c s with
    | Some (Ok a, s') => k a s'
    | Some (Raise e, s') => Some (Raise e, s')
    | None => None
    end.

Notation "'let!' x ':=' c 'in' k" := (bind c (fun x => k))
  (at level 10, x name, c at level 100, k at level 200).
Notation "'do!' c 'in' k" := (bind c (fun _ => k))
  (at level 10, c at level 100, k at level 200).

Definition lift {A} (r : result A) : M A := fun s => Some (r, s).

Definition add_event (e : event) (s : state) : state :=
  {| trace := trace s ++ [e];
     summary_cache := summary_cache s;
     writer := writer s |}.

Definition set_cache (c : gmap string summary_value) (s : state) : state :=
  {| trace := trace s; summary_cache := c; writer := writer s |}.

Definition set_writer (w : option SummaryRecord) (s : state) : state :=
  {| trace := trace s; summary_cache := summary_cache s; writer := w |}.

Definition log (e : event) : M unit :=
  fun s => Some (Ok tt, add_event e s).

Definition cache_summary (name : string) (v : summary_value) : M unit :=
  fun s => Some (Ok tt, set_cache (<[name := v]> (summary_cache s)) s).

(** Calling a cell or a primitive: the call happens, the operator checks
    its input, the result is the new expression. *)
Definition call (out : tensor) : M tensor :=
  do! log (EvApply out) in
  do! lift (infer out) in
  ret out.

(** [P.ImageSummary()(name, value)]: the value is a batch of images. *)
Definition ImageSummary (name : string) (value : tensor) : M unit :=
  let! tv := lift (infer value) in
  if (length (fst tv) =? 4)%nat
  then do! log (EvImageSummary name value) in
       cache_summary name (ImageValue value)
  else raise (ValueError "ImageSummary: the rank of value must be 4").

(** [P.ScalarSummary()(name, value)]: the value has shape [[]] or [[1]]. *)
Definition ScalarSummary (name : string) (value : tensor) : M unit :=
  let! tv := lift (infer value) in
  if shape_eqb (fst tv) [] || shape_eqb (fst tv) [1]
  then do! log (EvScalarSummary name value) in
       cache_summary name (ScalarValue value)
  else raise (ValueError "ScalarSummary: the shape of value must be [] or [1]").

(** [P.SoftmaxCrossEntropyWithLogits()(logits, labels)] returns the pair of
    the per-sample loss and the gradient with respect to the logits. *)
Definition SoftmaxCrossEntropyWithLogits (logits labels : tensor) : M (list tensor) :=
  do! call (SoftmaxCrossEntropyLoss logits labels) in
  ret [SoftmaxCrossEntropyLoss logits labels; SoftmaxCrossEntropyGrad logits labels].

(** ** The loss cell *)

Module CrossEntropyLoss.

Record t := {
  sm_scalar : string -> tensor -> M unit;
  cross_entropy : tensor -> tensor -> M (list tensor);
  mean : tensor -> list Z -> M tensor;
  one_hot : tensor -> Z -> tensor -> tensor -> M tensor;
  on_value : tensor;
  off_value : tensor
}.

Definition init : t :=
  {| sm_scalar := ScalarSummary;
     cross_entropy := SoftmaxCrossEntropyWithLogits;
     mean := fun x axis => call (ReduceMean axis x);
     one_hot := fun indices depth on off => call (OneHot indices depth on off);
     on_value := Scalar 1.0 Float32;
     off_value := Scalar 0.0 Float32 |}.

Definition construct (self : t) (logits label : tensor) : M tensor :=
  let! shp := lift (F_shape logits) in
  let! depth := lift (tuple_get shp 1) in
  let! label := one_hot self label depth (on_value self) (off_value self) in
  let! outs := cross_entropy self logits label in
  let! loss := lift (tuple_get outs 0) in
  let! loss := mean self loss [-1] in
  do! sm_scalar self "loss" loss in
  ret loss.

End CrossEntropyLoss.

(** ** The network *)

Definition weight_variable : Initializer := TruncatedNormal 0.02.

(** [conv(in_channels, out_channels, kernel_size, stride=1, padding=0)] *)
Definition conv (in_channels out_channels kernel_size : Z)
    (stride padding : option Z) : Conv2dCell :=
  let weight := weight_variable in
  {| in_channels := in_channels;
     out_channels := out_channels;
     kernel_size := kernel_size;
     stride := default 1 stride;
     padding := default 0 padding;
     weight_init := weight;
     has_bias := false;
     pad_mode := PadValid |}.

Definition fc_with_initialize (input_channels out_channels : Z) : DenseCell :=
  let weight := weight_variable in
  let bias := weight_variable in
  {| dense_in := input_channels;
     dense_out := out_channels;
     dense_weight_init := weight;
     dense_bias_init := bias |}.

Module LeNet5.

Record t := {
  sm_image : string -> tensor -> M unit;
  batch_size : Z;
  conv1 : Conv2dCell;
  conv2 : Conv2dCell;
  fc1 : DenseCell;
  fc2 : DenseCell;
  fc3 : DenseCell;
  relu : tensor -> M tensor;
  max_pool2d : tensor -> M tensor;
  reshape : tensor -> shape -> M tensor
}.

Definition init : t :=
  {| sm_image := ImageSummary;
     batch_size := 32;
     conv1 := conv 1 6 5 None None;
     conv2 := conv 6 16 5 None None;
     fc1 := fc_with_initialize (16 * 5 * 5) 120;
     fc2 := fc_with_initialize 120 84;
     fc3 := fc_with_initialize 84 10;
     relu := fun x => call (ReLU x);
     max_pool2d := fun x => call (MaxPool2d {| pool_kernel := 2; pool_stride := 2 |} x);
     reshape := fun x target => call (Reshape target x) |}.

Definition construct (self : t) (x : tensor) : M tensor :=
  do! sm_image self "image" x in
  let! x := call (Conv2d (conv1 self) x) in
  let! x := relu self x in
  let! x := max_pool2d self x in
  let! x := call (Conv2d (conv2 self) x) in
  let! x := relu self x in
  let! x := max_pool2d self x in
  let! x := reshape self x [batch_size self; -1] in
  let! x := call (Dense (fc1 self) x) in
  let! x := relu self x in
  let! x := call (Dense (fc2 self) x) in
  let! x := relu self x in
  let! x := call (Dense (fc3 self) x) in
  ret x.

(** [trainable_params()]: the weights of the two convolutions (they have
    no bias) and the weight and bias of the three dense layers. *)
Definition conv_params (name : string) (c : Conv2dCell) : list (string * shape) :=
  (String.append name ".weight",
    [out_channels c; in_channels c; kernel_size c; kernel_size c])
  :: (if has_bias c then [(String.append name ".bias", [out_channels c])] else []).

Definition dense_params (name : string) (c : DenseCell) : list (string * shape) :=
  [(String.append name ".weight", [dense_out c; dense_in c]);
   (String.append name ".bias", [dense_out c])].

Definition trainable_params (self : t) : list (string * shape) :=
  conv_params "conv1" (conv1 self) ++ conv_params "conv2" (conv2 self)
  ++ dense_params "fc1" (fc1 self) ++ dense_params "fc2" (fc2 self)
  ++ dense_params "fc3" (fc3 self).

End LeNet5.


(** ** The environment of a run *)

(** A Python value as the command line produces them: a string, a float, or
    a list of values. *)
#[warnings="-register-all"]
Inductive value :=
| VStr (s : string)
| VFloat (f : float)
| VList (l : list value).

(** What the script reads from outside: which directories hold MNIST files
    and how many records ([None]: there is no such directory; a directory
    that exists without MNIST files, on which the library fails at the first
    iteration only, is not among the worlds described), the random draws of
    the sampler and of the shuffle buffer (per pass over the data), whether
    the device fails at a training step, Python's [float(s)] on a
    command-line word, the number of CPUs of the machine (at least one), and
    what the calls of [main] into MindSpore do when [main] is handed a list
    in place of the device, of the summary directory or of the learning rate
    (each library call decides in its own way; this is not modelled). *)
Record world := {
  mnist_dirs : string -> option nat;
  sampler_rng : nat -> nat -> nat;
  shuffle_rng : nat -> nat -> nat;
  device_fault : Z -> bool;
  parse_float : string -> option float;
  cpu_count : positive;
  untyped_main : value -> value -> value -> value -> M unit
}.

(** ** The dataset pipeline *)

Record row := { image : tensor; label : tensor }.

Definition batch := list row.

(** A dataset object can be iterated several times; pass [p] yields the
    finite list [ds p].  Random operators draw differently in each pass. *)
Definition pipeline (A : Type) : Type := nat -> list A.

Definition INT32_MAX : Z := 2147483647.

(** Draw the rows of a buffer one by one, each time at a random position. *)
Fixpoint draw_all {A} (rng : nat -> nat) (k : nat) (fuel : nat) (buf : list A) : list A :=
  match fuel with
  | O => []
  | S fuel' =>
      let i := (rng k mod length buf)%nat in
      match buf !! i with
      | Some x => x :: draw_all rng (S k) fuel' (delete i buf)
      | None => []
      end
  end.

(** The shuffle buffer: while rows arrive, a random slot of the buffer is
    yielded and refilled with the arriving row; at the end of the input the
    buffer is drawn empty. *)
Fixpoint shuffle_buffer {A} (rng : nat -> nat) (k : nat) (buf input : list A) : list A :=
  match input with
  | [] => draw_all rng k (length buf) buf
  | y :: rest =>
      let i := (rng k mod length buf)%nat in
      match buf !! i with
      | Some x => x :: shuffle_buffer rng (S k) (<[i := y]> buf) rest
      | None => y :: shuffle_buffer rng k buf rest
      end
  end.

Definition mnist_row (path : string) (i : nat) : row :=
  {| image := Given (String.append path ":image") i [28; 28; 1] UInt8;
     label := Given (String.append path ":label") i [] UInt32 |}.

(** [dataset.MnistDataset(dataset_dir)]: 28x28x1 [uint8] images with
    [uint32] labels; no sampler is given, so the rows of each pass come in
    random order. *)
Definition MnistDataset (w : world) (dataset_dir : string) : M (pipeline row) :=
  do! log (EvDatasetOpen dataset_dir) in
  match mnist_dirs w dataset_dir with
  | Some n =>
      ret (fun p => draw_all (sampler_rng w p) 0 n (map (mnist_row dataset_dir) (seq 0 n)))
  | None => raise (ValueError "The folder does not exist or is not a MNIST directory")
  end.

(** [ds.map(input_columns=..., operations=..., num_parallel_workers=...)];
    the number of workers must lie between 1 and the number of CPUs, and
    changes no row. *)
Definition ds_map (w : world) (input_columns : string) (operations : tensor -> tensor)
    (num_parallel_workers : Z) (ds : pipeline row) : result (pipeline row) :=
  if negb ((1 <=? num_parallel_workers) && (num_parallel_workers <=? Z.pos (cpu_count w)))
  then Raise (ValueError "num_parallel_workers exceeds the boundary between 1 and the number of CPUs")
  else if String.eqb input_columns "image" then
    Ok (fun p => map (fun r => {| image := operations (image r); label := label r |}) (ds p))
  else if String.eqb input_columns "label" then
    Ok (fun p => map (fun r => {| image := image r; label := operations (label r) |}) (ds p))
  else Raise (RuntimeError "map: invalid input column").

(** [ds.shuffle(buffer_size=...)] *)
Definition ds_shuffle {A} (w : world) (buffer_size : Z) (ds : pipeline A) : result (pipeline A) :=
  if (2 <=? buffer_size) && (buffer_size <=? INT32_MAX) then
    Ok (fun p =>
          let n := Z.to_nat buffer_size in
          shuffle_buffer (shuffle_rng w p) 0 (take n (ds p)) (drop n (ds p)))
  else Raise (ValueError "buffer_size is not within the required range").

(** Rows are collected until [n] of them make a batch; what is left at
    the end of the input is a batch of its own unless the remainder is
    dropped. *)
Fixpoint batch_rows {A} (n : nat) (drop_remainder : bool) (cur input : list A) : list (list A) :=
  match input with
  | [] => if drop_remainder || (length cur =? 0)%nat then [] else [cur]
  | x :: rest =>
      let cur' := cur ++ [x] in
      if (length cur' =? n)%nat then cur' :: batch_rows n drop_remainder [] rest
      else batch_rows n drop_remainder cur' rest
  end.

(** [ds.batch(batch_size, drop_remainder=...)] *)
Definition ds_batch (batch_size : Z) (drop_remainder : bool) (ds : pipeline row)
    : result (pipeline batch) :=
  if (1 <=? batch_size) && (batch_size <=? INT32_MAX) then
    Ok (fun p => batch_rows (Z.to_nat batch_size) drop_remainder [] (ds p))
  else Raise (ValueError "batch_size is not within the required range").

(** A repeated dataset: one iteration over it either ends ([Finite]) or
    goes on for ever through the passes of the repeated one ([Endless]). *)
Inductive dataset :=
| Finite (pass : pipeline batch)
| Endless (pass : pipeline batch).

(** [ds.repeat(count)]: a count of 1 returns the dataset itself, -1 repeats
    for ever, another positive count runs that many passes of the repeated
    dataset in one iteration. *)
Definition ds_repeat (count : Z) (ds : pipeline batch) : result dataset :=
  if count =? 1 then Ok (Finite ds)
  else if count =? -1 then Ok (Endless ds)
  else if (1 <=? count) && (count <=? INT32_MAX) then
    Ok (Finite (fun p =>
                  let n := Z.to_nat count in
                  concat (map ds (seq (p * n) n))))
  else Raise (ValueError "count should be either -1 or positive integer").

(** The batches of iteration [p], when the iteration ends. *)
Definition iteration (d : dataset) (p : nat) : option (list batch) :=
  match d with
  | Finite pass => Some (pass p)
  | Endless _ => None
  end.

(** [create_dataset(data_path, batch_size=32, repeat_size=1, num_parallel_workers=1)] *)
Definition create_dataset (w : world) (data_path : string)
    (batch_size repeat_size num_parallel_workers : option Z) : M dataset :=
  let batch_size := default 32 batch_size in
  let repeat_size := default 1 repeat_size in
  let num_parallel_workers := default 1 num_parallel_workers in
  (* define dataset *)
  let! mnist_ds := MnistDataset w data_path in
  let resize_height := 32 in
  let resize_width := 32 in
  let rescale := (1.0 / 255.0)%float in
  let shift := 0.0%float in
  (* define map operations *)
  let resize_op := Resize resize_height resize_width LINEAR in
  let rescale_op := Rescale rescale shift in
  let hwc2chw_op := HWC2CHW in
  let type_cast_op := TypeCast Int32 in
  (* apply map operations on images *)
  let! mnist_ds := lift (ds_map w "label" type_cast_op num_parallel_workers mnist_ds) in
  let! mnist_ds := lift (ds_map w "image" resize_op num_parallel_workers mnist_ds) in
  let! mnist_ds := lift (ds_map w "image" rescale_op num_parallel_workers mnist_ds) in
  let! mnist_ds := lift (ds_map w "image" hwc2chw_op num_parallel_workers mnist_ds) in
  (* apply DatasetOps *)
  let buffer_size := 10000 in
  let! mnist_ds := lift (ds_shuffle w buffer_size mnist_ds) in
  let! mnist_ds := lift (ds_batch batch_size true mnist_ds) in
  let! mnist_ds := lift (ds_repeat repeat_size mnist_ds) in
  ret mnist_ds.

(** ** Summary writer and callback *)

(** Python's [str.isspace] on one character, for a string given by the
    bytes of its UTF-8 encoding: the rest of the string after a whitespace
    character at its head.  The whitespace characters are U+0009 to U+000D,
    U+001C to U+0020, U+0085, U+00A0, U+1680, U+2000 to U+200A, U+2028,
    U+2029, U+202F, U+205F and U+3000. *)
Definition skip_space (s : string) : option string :=
  match s with
  | EmptyString => None
  | String c rest =>
      let n := nat_of_ascii c in
      if ((9 <=? n) && (n <=? 13) || (28 <=? n) && (n <=? 32))%nat then Some rest
      else
        match n, rest with
        | 194%nat, String d rest' =>
            let m := nat_of_ascii d in
            if ((m =? 133) || (m =? 160))%nat then Some rest' else None
        | 225%nat, String d (String e rest') =>
            if ((nat_of_ascii d =? 154) && (nat_of_ascii e =? 128))%nat
            then Some rest' else None
        | 226%nat, String d (String e rest') =>
            let m := nat_of_ascii e in
            if (nat_of_ascii d =? 128)%nat then
              if ((128 <=? m) && (m <=? 138) || (m =? 168) || (m =? 169) || (m =? 175))%nat
              then Some rest' else None
            else if ((nat_of_ascii d =? 129) && (m =? 159))%nat then Some rest'
            else None
        | 227%nat, String d (String e rest') =>
            if ((nat_of_ascii d =? 128) && (nat_of_ascii e =? 128))%nat
            then Some rest' else None
        | _, _ => None
        end
  end.

(** [s.strip() == ""]: the string holds whitespace only. *)
Fixpoint blank_fuel (fuel : nat) (s : string) : bool :=
  match s with
  | EmptyString => true
  | _ =>
      match fuel with
      | O => false
      | S fuel' =>
          match skip_space s with
          | Some rest => blank_fuel fuel' rest
          | None => false
          end
      end
  end.

Definition blank (s : string) : bool := blank_fuel (String.length s) s.

(** [SummaryRecord(log_dir=..., network=...)] makes the directory and opens
    the writer; a blank path is refused (with a [TypeError], in the version
    of the library the script is written for).  The file system is taken to
    let the directory be made. *)
Definition SummaryRecord_init (log_dir : string) : M string :=
  if blank log_dir then raise (TypeError "Input path is invaild type")
  else
    do! log (EvSummaryOpen log_dir) in
    fun s =>
      Some (Ok log_dir,
            set_writer (Some {| log_dir := log_dir; closed := false; records := [] |}) s).

(** [summary_writer.record(step)] writes the cached summaries of the step to
    the writer's directory and empties the cache. *)
Definition SummaryRecord_record (step : Z) : M unit :=
  fun s =>
    match writer s with
    | Some wr =>
        if closed wr then Some (Raise (RuntimeError "summary writer is closed"), s)
        else
          let data := map_to_list (summary_cache s) in
          Some (Ok tt,
                add_event (EvSummaryRecord (log_dir wr) step data)
                  (set_cache ∅
                     (set_writer (Some {| log_dir := log_dir wr;
                                          closed := false;
                                          records := records wr ++ [(step, data)] |}) s)))
    | None => Some (Raise (RuntimeError "no summary writer"), s)
    end.

(** [summary_writer.close()] *)
Definition SummaryRecord_close : M unit :=
  fun s =>
    match writer s with
    | Some wr =>
        Some (Ok tt,
              add_event (EvSummaryClose (log_dir wr))
                (set_writer (Some {| log_dir := log_dir wr;
                                     closed := true;
                                     records := records wr |}) s))
    | None => Some (Raise (RuntimeError "no summary writer"), s)
    end.

(** The callback [SummaryStep(summary, flush_step=10)]. *)
Record SummaryStep := {
  cb_summary : string;
  flush_step : Z
}.

Definition SummaryStep_init (summary : string) (flush_step : option Z) : M SummaryStep :=
  let flush_step := default 10 flush_step in
  if flush_step <=? 0
  then raise (ValueError "flush_step should be int and greater than 0")
  else ret {| cb_summary := summary; flush_step := flush_step |}.

(** [SummaryStep.step_end]: every [flush_step] steps the summaries go to the
    writer. *)
Definition step_end (cb : SummaryStep) (cur_step_num : Z) : M unit :=
  if cur_step_num mod flush_step cb =? 0
  then SummaryRecord_record cur_step_num
  else ret tt.

Fixpoint step_end_all (callbacks : list SummaryStep) (cur_step_num : Z) : M unit :=
  match callbacks with
  | [] => ret tt
  | cb :: rest =>
      do! step_end cb cur_step_num in
      step_end_all rest cur_step_num
  end.

(** ** The training loop *)

(** [Model(network, loss_fn, optimizer)] *)
Record Model := {
  network : LeNet5.t;
  loss_fn : CrossEntropyLoss.t;
  optimizer : Optimizer
}.

(** One step: forward pass on the stacked images, loss against the stacked
    labels, one update of the parameters by the optimizer. *)
Definition train_step (w : world) (model : Model) (step : Z) (b : batch) : M unit :=
  if device_fault w step then raise (RuntimeError "device failure")
  else
    let! out := LeNet5.construct (network model) (Stack (map image b)) in
    let! loss := CrossEntropyLoss.construct (loss_fn model) out (Stack (map label b)) in
    log (EvUpdate (optimizer model) step loss).

Fixpoint run_steps (w : world) (model : Model) (callbacks : list SummaryStep)
    (cur_step_num : Z) (batches : list batch) : M Z :=
  match batches with
  | [] => ret cur_step_num
  | b :: rest =>
      let cur_step_num := cur_step_num + 1 in
      do! train_step w model cur_step_num b in
      do! step_end_all callbacks cur_step_num in
      run_steps w model callbacks cur_step_num rest
  end.

Fixpoint run_epochs (w : world) (model : Model) (callbacks : list SummaryStep)
    (ds : dataset) (done : nat) (todo : nat) (cur_step_num : Z) : M unit :=
  match todo with
  | O => ret tt
  | S todo' =>
      match iteration ds done with
      | None => diverge
      | Some batches =>
          let! cur_step_num := run_steps w model callbacks cur_step_num batches in
          run_epochs w model callbacks ds (S done) todo' cur_step_num
      end
  end.

(** [model.train(epoch, train_dataset, callbacks=..., dataset_sink_mode=False)] *)
Definition Model_train (w : world) (model : Model) (epoch : Z) (train_dataset : dataset)
    (callbacks : list SummaryStep) : M unit :=
  run_epochs w model callbacks train_dataset 0 (Z.to_nat epoch) 0.

(** ** The entry point *)

(** [context.set_context(mode=..., device_target=...)] *)
Definition set_context (mode : exec_mode) (device_target : string) : M unit :=
  if existsb (String.eqb device_target) ["Ascend"; "GPU"; "CPU"]
  then log (EvSetContext mode device_target)
  else raise (ValueError "device_target must be one of Ascend, GPU, CPU").

Definition print (line : string) : M unit := log (EvPrint line).

Fixpoint endswith_sep (s : string) : bool :=
  match s with
  | EmptyString => false
  | String c EmptyString => Ascii.eqb c "/"%char
  | String _ s' => endswith_sep s'
  end.

(** [os.path.join(a, b)] on a POSIX system. *)
Definition os_path_join (a b : string) : string :=
  if String.prefix "/" b then b
  else if String.eqb a "" || endswith_sep a then String.append a b
  else String.append a (String.append "/" b).

(** [os.path.join(a, b)] on whatever the caller passed for [a]: Python checks
    no types at a call, and on anything but a string [os.fspath] raises. *)
Definition os_path_join_value (a : value) (b : string) : result string :=
  match a with
  | VStr a => Ok (os_path_join a b)
  | VFloat _ => Raise (TypeError "expected str, bytes or os.PathLike object, not float")
  | VList _ => Raise (TypeError "expected str, bytes or os.PathLike object, not list")
  end.

(** [nn.Momentum(params, learning_rate, momentum)]: a learning rate given as
    a float must lie in [0, inf) (so it is neither negative nor infinite nor
    a NaN), and the momentum must not be negative. *)
Definition learning_rate_ok (learning_rate : float) : bool :=
  PrimFloat.leb 0 learning_rate && PrimFloat.ltb learning_rate infinity.

Definition Momentum_init (params : list (string * shape)) (learning_rate momentum : float)
    : result Optimizer :=
  if negb (learning_rate_ok learning_rate)
  then Raise (ValueError "learning rate should be in range [0, inf)")
  else if PrimFloat.ltb momentum 0
  then Raise (ValueError "momentum should be at least 0.0")
  else Ok (Momentum params learning_rate momentum).

(** [main(data_path, device_target='Ascend', summary_dir='./summary_dir',
    learning_rate=0.01)]: the body.  [data_path] is whatever value the caller
    passed: the body hands it to [os.path.join] and makes no other use of
    it. *)
Definition main_body (w : world) (data_path : value)
    (device_target summary_dir : option string) (learning_rate : option float) : M unit :=
  let device_target := default "Ascend" device_target in
  let summary_dir := default "./summary_dir" summary_dir in
  let learning_rate := default 0.01%float learning_rate in
  do! set_context GRAPH_MODE device_target in

  let momentum := 0.9%float in
  let epoch_size := 1 in
  let batch_size := 32 in

  let network := LeNet5.init in
  let net_loss := CrossEntropyLoss.init in
  let! net_opt :=
    lift (Momentum_init (LeNet5.trainable_params network) learning_rate momentum) in
  let model := {| network := network; loss_fn := net_loss; optimizer := net_opt |} in

  (* add summary writer *)
  let! summary_writer := SummaryRecord_init summary_dir in
  let! summary_callback := SummaryStep_init summary_writer (Some 10) in

  let! path := lift (os_path_join_value data_path "train") in
  let! ds := create_dataset w path (Some batch_size) None None in

  do! print "============== Starting Training ==============" in
  do! Model_train w model epoch_size ds [summary_callback] in
  do! SummaryRecord_close in
  print "============== Train End =====================".

(** [main] on a path that is a string. *)
Definition main (w : world) (data_path : string)
    (device_target summary_dir : option string) (learning_rate : option float) : M unit :=
  main_body w (VStr data_path) device_target summary_dir learning_rate.

(** ** The command line *)

(** The model of [argparse] covers a parser as this script builds one: the
    automatic [-h]/[--help] and options that store one argument.  A word of
    the command line is given by the bytes of its UTF-8 encoding.  The
    pattern for negative numbers is modelled on ASCII digits: on a word of
    ASCII characters it is the pattern of argparse; a word with other
    characters may hold decimal digits of other scripts, which the pattern of
    argparse takes too, so what is stated of a word that is not read as an
    argument is stated of ASCII words. *)

Inductive arg_type := type_str | type_float.

Record Action := {
  option_strings : list string;
  dest : string;
  is_help : bool;
  type : arg_type;
  default_value : option value;
  choices : option (list string);
  help : string
}.

Record ArgumentParser := {
  description : string;
  actions : list Action
}.

(** [argparse.ArgumentParser(description=...)]: [add_help] defaults to True. *)
Definition ArgumentParser_init (description : string) : ArgumentParser :=
  {| description := description;
     actions := [ {| option_strings := ["-h"; "--help"];
                     dest := "help";
                     is_help := true;
                     type := type_str;
                     default_value := None;
                     choices := None;
                     help := "show this help message and exit" |} ] |}.

Fixpoint lstrip_dashes (s : string) : string :=
  match s with
  | String c s' => if Ascii.eqb c "-"%char then lstrip_dashes s' else s
  | EmptyString => s
  end.

Fixpoint dashes_to_underscores (s : string) : string :=
  match s with
  | String c s' =>
      String (if Ascii.eqb c "-"%char then "_"%char else c) (dashes_to_underscores s')
  | EmptyString => EmptyString
  end.

(** [parser.add_argument(flag, type=..., default=..., choices=..., help=...)] *)
Definition add_argument (parser : ArgumentParser) (flag : string) (type : arg_type)
    (default : value) (choices : option (list string)) (help : string) : ArgumentParser :=
  {| description := description parser;
     actions := actions parser ++
       [ {| option_strings := [flag];
            dest := dashes_to_underscores (lstrip_dashes flag);
            is_help := false;
            type := type;
            default_value := Some default;
            choices := choices;
            help := help |} ] |}.

(** The registered option strings with their actions, in registration order. *)
Definition option_string_actions (parser : ArgumentParser) : list (string * Action) :=
  flat_map (fun a => map (fun o => (o, a)) (option_strings a)) (actions parser).

Definition lookup_option (parser : ArgumentParser) (s : string) : option Action :=
  option_map snd (find (fun oa => String.eqb (fst oa) s) (option_string_actions parser)).

(** [s.split('=', 1)] when [s] contains an equals sign. *)
Fixpoint split_eq (s : string) : option (string * string) :=
  match s with
  | EmptyString => None
  | String c s' =>
      if Ascii.eqb c "="%char then Some (EmptyString, s')
      else match split_eq s' with
           | Some (a, b) => Some (String c a, b)
           | None => None
           end
  end.

Fixpoint contains_char (c : ascii) (s : string) : bool :=
  match s with
  | EmptyString => false
  | String d s' => Ascii.eqb c d || contains_char c s'
  end.

Definition is_digit (c : ascii) : bool :=
  let n := nat_of_ascii c in ((48 <=? n) && (n <=? 57))%nat.

Fixpoint all_digits (s : string) : bool :=
  match s with
  | EmptyString => true
  | String c s' => is_digit c && all_digits s'
  end.

Fixpoint skip_digits (s : string) : string :=
  match s with
  | String c s' => if is_digit c then skip_digits s' else s
  | EmptyString => s
  end.

Definition nonempty (s : string) : bool :=
  match s with EmptyString => false | _ => true end.

(** Drop one final newline: [$] also matches just before it. *)
Fixpoint chomp (s : string) : string :=
  match s with
  | String c EmptyString => if Ascii.eqb c "010"%char then EmptyString else s
  | String c s' => String c (chomp s')
  | EmptyString => s
  end.

(** The pattern [^-\d+$|^-\d*\.\d+$] of numbers with a minus sign. *)
Definition negative_number (s : string) : bool :=
  match chomp s with
  | String c body =>
      Ascii.eqb c "-"%char
      && ((nonempty body && all_digits body)
          || match skip_digits body with
             | String d frac => Ascii.eqb d "."%char && nonempty frac && all_digits frac
             | EmptyString => false
             end)
  | EmptyString => false
  end.

(** How a word of the command line is read: an argument (['A']), the word
    [--] (['-']), or an option (['O']) with the action it names, if any, and
    the argument glued to it, if any. *)
Inductive cls :=
| ClsA
| ClsDashes
| ClsO (action : option Action) (option_string : string) (explicit_arg : option string).

Definition usage_error {A} : result A := Raise (SystemExit 2).

(** [_get_option_tuples]: the options a word abbreviates. *)
Definition get_option_tuples (parser : ArgumentParser) (s : string)
    : list (Action * string * option string) :=
  match s with
  | String _ (String c2 _) =>
      if Ascii.eqb c2 "-"%char then
        let '(option_prefix, explicit_arg) :=
          match split_eq s with
          | Some (o, e) => (o, Some e)
          | None => (s, None)
          end in
        flat_map (fun oa =>
                    if String.prefix option_prefix (fst oa)
                    then [(snd oa, fst oa, explicit_arg)] else [])
                 (option_string_actions parser)
      else
        let short_option_prefix := substring 0 2 s in
        let short_explicit_arg := substring 2 (String.length s - 2) s in
        flat_map (fun oa =>
                    if String.eqb (fst oa) short_option_prefix
                    then [(snd oa, fst oa, Some short_explicit_arg)]
                    else if String.prefix s (fst oa)
                    then [(snd oa, fst oa, None)] else [])
                 (option_string_actions parser)
  | _ => []
  end.

(** [_parse_optional] *)
Definition parse_optional (parser : ArgumentParser) (s : string) : result cls :=
  match s with
  | EmptyString => Ok ClsA
  | String c rest =>
      if negb (Ascii.eqb c "-"%char) then Ok ClsA
      else
        match lookup_option parser s with
        | Some a => Ok (ClsO (Some a) s None)
        | None =>
            if negb (nonempty rest) then Ok ClsA
            else
              match match split_eq s with
                    | Some (o, e) =>
                        match lookup_option parser o with
                        | Some a => Some (ClsO (Some a) o (Some e))
                        | None => None
                        end
                    | None => None
                    end with
              | Some c => Ok c
              | None =>
                  match get_option_tuples parser s with
                  | _ :: _ :: _ => usage_error
                  | [(a, o, e)] => Ok (ClsO (Some a) o e)
                  | [] =>
                      if negative_number s then Ok ClsA
                      else if contains_char " "%char s then Ok ClsA
                      else Ok (ClsO None s None)
                  end
              end
        end
  end.

(** The first pass over the words: after [--] every word is an argument. *)
Fixpoint scan (parser : ArgumentParser) (args : list string) : result (list (string * cls)) :=
  match args with
  | [] => Ok []
  | s :: rest =>
      if String.eqb s "--" then Ok ((s, ClsDashes) :: map (fun a => (a, ClsA)) rest)
      else rbind (parse_optional parser s) (fun c =>
           rbind (scan parser rest) (fun cs => Ok ((s, c) :: cs)))
  end.

(** [_get_value]: the type function applied to a word. *)
Definition get_value (w : world) (a : Action) (s : string) : result value :=
  match type a with
  | type_str => Ok (VStr s)
  | type_float =>
      match parse_float w s with
      | Some f => Ok (VFloat f)
      | None => usage_error
      end
  end.

(** [_check_value]: the converted value is one of the choices. *)
Definition check_value (a : Action) (v : value) : result unit :=
  match choices a with
  | None => Ok tt
  | Some cs =>
      match v with
      | VStr s => if existsb (String.eqb s) cs then Ok tt else usage_error
      | _ => usage_error
      end
  end.

Fixpoint remove_first (x : string) (l : list string) : list string :=
  match l with
  | [] => []
  | y :: l' => if String.eqb x y then l' else y :: remove_first x l'
  end.

Definition namespace : Type := gmap string value.

(** [take_action] of a storing option: the first [--] among the words is
    dropped; one word gives a value, any other number of words a list. *)
Definition take_action (w : world) (a : Action) (arg_strings : list string)
    (ns : namespace) : result namespace :=
  match remove_first "--" arg_strings with
  | [s] =>
      rbind (get_value w a s) (fun v =>
      rbind (check_value a v) (fun _ => Ok (<[dest a := v]> ns)))
  | ss =>
      rbind (mapR (fun s => rbind (get_value w a s) (fun v =>
                            rbind (check_value a v) (fun _ => Ok v))) ss) (fun vs =>
      Ok (<[dest a := VList vs]> ns))
  end.

(** A single-dash option without argument followed by more characters:
    each of them must be such an option again ([-hh]). *)
Fixpoint short_chain (parser : ArgumentParser) (explicit_arg : string) : result unit :=
  match explicit_arg with
  | EmptyString => Raise (IndexError "string index out of range")
  | String c rest =>
      match lookup_option parser (String "-"%char (String c EmptyString)) with
      | Some a =>
          if is_help a then
            match rest with
            | EmptyString => Ok tt
            | _ => short_chain parser rest
            end
          else usage_error
      | None => usage_error
      end
  end.

Definition is_long (option_string : string) : bool :=
  match option_string with
  | String _ (String c _) => Ascii.eqb c "-"%char
  | _ => false
  end.

Record parse_state := {
  ps_namespace : namespace;
  ps_seen : list string;
  ps_extras : list string
}.

Definition add_extra (s : string) (st : parse_state) : parse_state :=
  {| ps_namespace := ps_namespace st; ps_seen := ps_seen st;
     ps_extras := ps_extras st ++ [s] |}.

Definition store (w : world) (a : Action) (word : string) (st : parse_state)
    : result parse_state :=
  rbind (take_action w a [word] (ps_namespace st)) (fun ns =>
  Ok {| ps_namespace := ns; ps_seen := dest a :: ps_seen st; ps_extras := ps_extras st |}).

(** The second pass: options are consumed from left to right with the
    argument they take; [-h] prints the help and exits with status 0; words
    that nothing consumes are collected. *)
Fixpoint consume (w : world) (parser : ArgumentParser) (st : parse_state)
    (words : list (string * cls)) : result parse_state :=
  match words with
  | [] => Ok st
  | (s, ClsA) :: rest => consume w parser (add_extra s st) rest
  | (s, ClsDashes) :: rest => consume w parser (add_extra s st) rest
  | (s, ClsO None _ _) :: rest => consume w parser (add_extra s st) rest
  | (s, ClsO (Some a) o (Some e)) :: rest =>
      if is_help a then
        if is_long o then usage_error
        else rbind (short_chain parser e) (fun _ => Raise (SystemExit 0))
      else rbind (store w a e st) (fun st' => consume w parser st' rest)
  | (s, ClsO (Some a) o None) :: rest =>
      if is_help a then Raise (SystemExit 0)
      else
        match rest with
        | (v, ClsA) :: rest' =>
            rbind (store w a v st) (fun st' => consume w parser st' rest')
        | _ => usage_error
        end
  end.

Definition initial_namespace (parser : ArgumentParser) : namespace :=
  fold_left (fun ns a =>
               match default_value a with
               | Some v => match ns !! dest a with
                           | Some _ => ns
                           | None => <[dest a := v]> ns
                           end
               | None => ns
               end)
            (actions parser) ∅.

(** A default that is a string goes through the type function when its
    option was not given. *)
Fixpoint convert_defaults (w : world) (seen : list string) (acts : list Action)
    (ns : namespace) : result namespace :=
  match acts with
  | [] => Ok ns
  | a :: rest =>
      match default_value a with
      | Some (VStr d) =>
          if existsb (String.eqb (dest a)) seen then convert_defaults w seen rest ns
          else rbind (get_value w a d) (fun v =>
               convert_defaults w seen rest (<[dest a := v]> ns))
      | _ => convert_defaults w seen rest ns
      end
  end.

(** [parser.parse_args(argv)]: words left over are an error (status 2). *)
Definition parse_args (w : world) (parser : ArgumentParser) (argv : list string)
    : result namespace :=
  rbind (scan parser argv) (fun words =>
  rbind (consume w parser
           {| ps_namespace := initial_namespace parser; ps_seen := []; ps_extras := [] |}
           words) (fun st =>
  rbind (convert_defaults w (ps_seen st) (actions parser) (ps_namespace st)) (fun ns =>
  match ps_extras st with
  | [] => Ok ns
  | _ => usage_error
  end))).

Definition getattr (ns : namespace) (name : string) : result value :=
  match ns !! name with
  | Some v => Ok v
  | None => Raise (AttributeError name)
  end.

(** The call [main(data_path=..., device_target=..., summary_dir=...,
    learning_rate=...)] with the values of the namespace, whatever they are:
    Python checks no types at the call.  With the empty list that
    [--option=--] stores in place of the device, of the summary directory or
    of the learning rate, the body of [main] runs until a call into MindSpore
    meets the list, which is left to the environment. *)
Definition call_main (w : world) (data_path device_target summary_dir learning_rate : value)
    : M unit :=
  match device_target, summary_dir, learning_rate with
  | VStr d, VStr s, VFloat lr => main_body w data_path (Some d) (Some s) (Some lr)
  | _, _, _ => untyped_main w data_path device_target summary_dir learning_rate
  end.

Definition the_parser : ArgumentParser :=
  let parser := ArgumentParser_init "MindSpore LeNet5 with summary Example" in
  let parser := add_argument parser "--device_target" type_str (VStr "Ascend")
                  (Some ["Ascend"; "GPU"; "CPU"])
                  "Device where the code will be implemented (default: Ascend)" in
  let parser := add_argument parser "--data_path" type_str (VStr "./MNIST_Data") None
                  "Path where the dataset is saved" in
  let parser := add_argument parser "--summary_dir" type_str (VStr "./summary_dir") None
                  "Summaries log directory." in
  let parser := add_argument parser "--learning_rate" type_float (VFloat 0.01) None
                  "Initial learning rate" in
  parser.

(** The block under [if __name__ == "__main__":], on the words [sys.argv[1:]]. *)
Definition __main__ (w : world) (argv : list string) : M unit :=
  let parser := the_parser in
  let! args := lift (parse_args w parser argv) in
  let! data_path := lift (getattr args "data_path") in
  let! device_target := lift (getattr args "device_target") in
  let! summary_dir := lift (getattr args "summary_dir") in
  let! learning_rate := lift (getattr args "learning_rate") in
  call_main w data_path device_target summary_dir learning_rate.

(** * Notions used in the statements *)

(** An input batch of [b] images of one channel and 32x32 pixels. *)
Definition ex_batch (b : Z) : tensor := Given "x" 0 [b; 1; 32; 32] Float32.

Definition add_events (evs : list event) (s : state) : state :=
  {| trace := trace s ++ evs;
     summary_cache := summary_cache s;
     writer := writer s |}.

Definition is_call (e : event) : Prop :=
  match e with EvApply _ => True | _ => False end.

(** A computation that ends, touches nothing but the trace, and adds only
    operator calls to it. *)
Definition calls_only {A} (c : M A) : Prop :=
  forall s, exists r evs, c s = Some (r, add_events evs s) /\ Forall is_call evs.

Definition pool2 : MaxPool2dCell := {| pool_kernel := 2; pool_stride := 2 |}.

(** The expressions the layers build from an input [x]. *)
Definition features (x : tensor) : tensor :=
  MaxPool2d pool2 (ReLU (Conv2d (LeNet5.conv2 LeNet5.init)
    (MaxPool2d pool2 (ReLU (Conv2d (LeNet5.conv1 LeNet5.init) x))))).

Definition flat (x : tensor) : tensor := Reshape [32; -1] (features x).

Definition classifier (f : tensor) : tensor :=
  Dense (LeNet5.fc3 LeNet5.init)
    (ReLU (Dense (LeNet5.fc2 LeNet5.init)
      (ReLU (Dense (LeNet5.fc1 LeNet5.init) f)))).

(** The layers after the image summary. *)
Definition layers (self : LeNet5.t) (x : tensor) : M tensor :=
  let! x := call (Conv2d (LeNet5.conv1 self) x) in
  let! x := LeNet5.relu self x in
  let! x := LeNet5.max_pool2d self x in
  let! x := call (Conv2d (LeNet5.conv2 self) x) in
  let! x := LeNet5.relu self x in
  let! x := LeNet5.max_pool2d self x in
  let! x := LeNet5.reshape self x [LeNet5.batch_size self; -1] in
  let! x := call (Dense (LeNet5.fc1 self) x) in
  let! x := LeNet5.relu self x in
  let! x := call (Dense (LeNet5.fc2 self) x) in
  let! x := LeNet5.relu self x in
  let! x := call (Dense (LeNet5.fc3 self) x) in
  ret x.

(** The operator calls of a forward pass, in order. *)
Definition forward_calls (x : tensor) : list tensor :=
  let c1 := Conv2d (LeNet5.conv1 LeNet5.init) x in
  let r1 := ReLU c1 in
  let p1 := MaxPool2d pool2 r1 in
  let c2 := Conv2d (LeNet5.conv2 LeNet5.init) p1 in
  let r2 := ReLU c2 in
  let p2 := MaxPool2d pool2 r2 in
  let f := Reshape [32; -1] p2 in
  let d1 := Dense (LeNet5.fc1 LeNet5.init) f in
  let r3 := ReLU d1 in
  let d2 := Dense (LeNet5.fc2 LeNet5.init) r3 in
  let r4 := ReLU d2 in
  let d3 := Dense (LeNet5.fc3 LeNet5.init) r4 in
  [c1; r1; p1; c2; r2; p2; f; d1; r3; d2; r4; d3].

Definition is_image (x : tensor) : bool :=
  match infer x with
  | Ok tv => (length (fst tv) =? 4)%nat
  | Raise _ => false
  end.

Definition one_hot_labels (label : tensor) (depth : Z) : tensor :=
  OneHot label depth (Scalar 1.0 Float32) (Scalar 0.0 Float32).

Definition per_sample_loss (logits label : tensor) (depth : Z) : tensor :=
  SoftmaxCrossEntropyLoss logits (one_hot_labels label depth).

Definition mean_loss (logits label : tensor) (depth : Z) : tensor :=
  ReduceMean [-1] (per_sample_loss logits label depth).

(** What [create_dataset] does to one row. *)
Definition transform (r : row) : row :=
  {| image := HWC2CHW (Rescale (1 / 255) 0 (Resize 32 32 LINEAR (image r)));
     label := TypeCast Int32 (label r) |}.

(** The rows of pass [p] as the source yields them, after the four maps and
    the shuffle, and cut into batches. *)
Definition source_pass (w : world) (path : string) (n : nat) (p : nat) : list row :=
  draw_all (sampler_rng w p) 0 n (map (mnist_row path) (seq 0 n)).

Definition shuffled_pass (w : world) (path : string) (n : nat) (p : nat) : list row :=
  let rows := map transform (source_pass w path n p) in
  shuffle_buffer (shuffle_rng w p) 0
    (take (Z.to_nat 10000) rows) (drop (Z.to_nat 10000) rows).

Definition batched_pass (w : world) (path : string) (n : nat) (B : Z) (p : nat) : list batch :=
  batch_rows (Z.to_nat B) true [] (shuffled_pass w path n p).

(** The pipeline object [create_dataset] has built when it reaches
    [repeat]. *)
Definition pipeline_of (w : world) (path : string) (n : nat) (B : Z) : pipeline batch :=
  fun p =>
    batch_rows (Z.to_nat B) true []
      (let ds p :=
         map (fun r => {| image := HWC2CHW (image r); label := label r |})
           (map (fun r => {| image := Rescale (1 / 255) 0 (image r); label := label r |})
              (map (fun r => {| image := Resize 32 32 LINEAR (image r); label := label r |})
                 (map (fun r => {| image := image r; label := TypeCast Int32 (label r) |})
                    (source_pass w path n p)))) in
       shuffle_buffer (shuffle_rng w p) 0
         (take (Z.to_nat 10000) (ds p)) (drop (Z.to_nat 10000) (ds p))).

Definition batch_size_ok (B : Z) : bool := (1 <=? B) && (B <=? INT32_MAX).

(** A number of parallel workers that [map] takes on this machine. *)
Definition workers_ok (w : world) (P : Z) : bool := (1 <=? P) && (P <=? Z.pos (cpu_count w)).

(** The batches an iteration [p] over a dataset can yield. *)
Definition yields (d : dataset) (p : nat) (b : batch) : Prop :=
  match d with
  | Finite pass => In b (pass p)
  | Endless pass => exists q, In b (pass q)
  end.

Definition ex_world (n : nat) (fault : Z -> bool) : world :=
  {| mnist_dirs := fun path => if String.eqb path "data/train" then Some n else None;
     sampler_rng := fun p k => (7 * k + p)%nat;
     shuffle_rng := fun p k => (3 * k + p + 1)%nat;
     device_fault := fault;
     parse_float := fun _ => None;
     cpu_count := 8;
     untyped_main := fun _ _ _ _ => raise (TypeError "a list is not a string") |}.

Definition no_fault (step : Z) : bool := false.

(** A batch as [create_dataset] yields them for [main]: 32 rows with
    images of shape (1, 32, 32) and scalar 32-bit labels. *)
Definition good_batch (b : batch) : Prop :=
  length b = 32%nat
  /\ Forall (fun r => infer (image r) = Ok ([1; 32; 32], Float32)
                      /\ infer (label r) = Ok ([], Int32)) b.

Definition the_optimizer (lr : float) : Optimizer :=
  Momentum (LeNet5.trainable_params LeNet5.init) lr 0.9.

Definition the_model (lr : float) : Model :=
  {| network := LeNet5.init;
     loss_fn := CrossEntropyLoss.init;
     optimizer := the_optimizer lr |}.

Definition the_callback (dir : string) : SummaryStep :=
  {| cb_summary := dir; flush_step := 10 |}.

(** The events of one training step on a batch. *)
Definition step_events (opt : Optimizer) (k : Z) (b : batch) : list event :=
  let x := Stack (map image b) in
  let y := Stack (map label b) in
  let out := classifier (flat x) in
  EvImageSummary "image" x :: map EvApply (forward_calls x)
  ++ [EvApply (one_hot_labels y 10);
      EvApply (per_sample_loss out y 10);
      EvApply (mean_loss out y 10);
      EvScalarSummary "loss" (mean_loss out y 10);
      EvUpdate opt k (mean_loss out y 10)].

Definition step_cache (b : batch) (c : gmap string summary_value) : gmap string summary_value :=
  let x := Stack (map image b) in
  let y := Stack (map label b) in
  <["loss" := ScalarValue (mean_loss (classifier (flat x)) y 10)]>
    (<["image" := ImageValue x]> c).

(** The writer is open on directory [dir]. *)
Definition writer_open (dir : string) (s : state) : Prop :=
  exists recs, writer s = Some {| log_dir := dir; closed := false; records := recs |}.

(** Projections of a trace: the optimizer updates with their step numbers,
    and the flushes of summaries with directory and step number. *)
Definition updates (tr : list event) : list (Optimizer * Z) :=
  flat_map (fun e => match e with EvUpdate o k _ => [(o, k)] | _ => [] end) tr.

Definition flushes (tr : list event) : list (string * Z) :=
  flat_map (fun e => match e with EvSummaryRecord d k _ => [(d, k)] | _ => [] end) tr.

(** Step numbers [a], [a+1], ... ([n] of them). *)
Fixpoint zseq (a : Z) (n : nat) : list Z :=
  match n with
  | O => []
  | S n' => a :: zseq (a + 1) n'
  end.

(** How many of the next [n] steps after step [k] run before the device
    fails. *)
Fixpoint steps_run (w : world) (k : Z) (n : nat) : nat :=
  match n with
  | O => O
  | S n' => if device_fault w (k + 1) then O else S (steps_run w (k + 1) n')
  end.

Definition is_flush_step (k : Z) : bool := k mod 10 =? 0.

(** The losses that the updates of a trace apply, in order. *)
Definition update_losses (tr : list event) : list tensor :=
  flat_map (fun e => match e with EvUpdate _ _ l => [l] | _ => [] end) tr.

(** The loss of the network on a batch. *)
Definition batch_loss (b : batch) : tensor :=
  mean_loss (classifier (flat (Stack (map image b)))) (Stack (map label b)) 10.

Definition dataset_opens (tr : list event) : list string :=
  flat_map (fun e => match e with EvDatasetOpen p => [p] | _ => [] end) tr.

Definition valid_device (device : string) : bool :=
  existsb (String.eqb device) ["Ascend"; "GPU"; "CPU"].


Definition writer_closed (dir : string) (s : state) : Prop :=
  exists recs, writer s = Some {| log_dir := dir; closed := true; records := recs |}.

Definition start_banner : string := "============== Starting Training ==============".
Definition end_banner : string := "============== Train End =====================".




(** An option the script declared itself (not the automatic help). *)
Definition declared (a : Action) : Prop :=
  In a (actions the_parser) /\ is_help a = false.

(** The command lines made of declared options with their values only:
    [--flag=value], or [--flag value] where [value] reads as an argument. *)
Inductive well_formed : list string -> Prop :=
| wf_nil : well_formed []
| wf_glued s a o e rest :
    parse_optional the_parser s = Ok (ClsO (Some a) o (Some e)) ->
    declared a -> well_formed rest -> well_formed (s :: rest)
| wf_pair s a o v rest :
    parse_optional the_parser s = Ok (ClsO (Some a) o None) ->
    declared a -> parse_optional the_parser v = Ok ClsA ->
    well_formed rest -> well_formed (s :: v :: rest).

Definition device_choices : list string := ["Ascend"; "GPU"; "CPU"].

(** The namespace holds the four destinations, each with a value of its
    type (the device one of the choices) or with the empty list. *)
Definition namespace_ok (ns : namespace) : Prop :=
  is_Some (ns !! "data_path") /\ is_Some (ns !! "device_target")
  /\ is_Some (ns !! "summary_dir") /\ is_Some (ns !! "learning_rate")
  /\ (forall v, ns !! "device_target" = Some v ->
        (exists d, v = VStr d /\ In d device_choices) \/ v = VList [])
  /\ (forall v, ns !! "learning_rate" = Some v -> exists f, v = VFloat f \/ v = VList [])
  /\ (forall v, ns !! "data_path" = Some v -> exists p, v = VStr p \/ v = VList [])
  /\ (forall v, ns !! "summary_dir" = Some v -> exists p, v = VStr p \/ v = VList []).

Definition device_target_action : Action :=
  {| option_strings := ["--device_target"]; dest := "device_target"; is_help := false;
     type := type_str; default_value := Some (VStr "Ascend");
     choices := Some ["Ascend"; "GPU"; "CPU"];
     help := "Device where the code will be implemented (default: Ascend)" |}.

Definition data_path_action : Action :=
  {| option_strings := ["--data_path"]; dest := "data_path"; is_help := false;
     type := type_str; default_value := Some (VStr "./MNIST_Data");
     choices := None; help := "Path where the dataset is saved" |}.

Definition summary_dir_action : Action :=
  {| option_strings := ["--summary_dir"]; dest := "summary_dir"; is_help := false;
     type := type_str; default_value := Some (VStr "./summary_dir");
     choices := None; help := "Summaries log directory." |}.

Definition learning_rate_action : Action :=
  {| option_strings := ["--learning_rate"]; dest := "learning_rate"; is_help := false;
     type := type_float; default_value := Some (VFloat 0.01);
     choices := None; help := "Initial learning rate" |}.

Definition help_action : Action :=
  {| option_strings := ["-h"; "--help"]; dest := "help"; is_help := true;
     type := type_str; default_value := None; choices := None;
     help := "show this help message and exit" |}.

Definition default_namespace : namespace :=
  <["learning_rate" := VFloat 0.01]>
    (<["summary_dir" := VStr "./summary_dir"]>
       (<["data_path" := VStr "./MNIST_Data"]>
          (<["device_target" := VStr "Ascend"]> ∅))).

(** A word that is read as the argument of the option before it. *)
Definition reads_as_argument (v : string) : Prop :=
  parse_optional the_parser v = Ok ClsA.

Definition stores (ns : namespace) (vp vd vs vl : value) : Prop :=
  ns !! "data_path" = Some vp /\ ns !! "device_target" = Some vd
  /\ ns !! "summary_dir" = Some vs /\ ns !! "learning_rate" = Some vl.

(** The namespace holds a string for each path, one of the three devices
    and a float. *)
Definition namespace_typed (ns : namespace) : Prop :=
  exists p d sd lr,
    stores ns (VStr p) (VStr d) (VStr sd) (VFloat lr) /\ In d device_choices.

(** A word that gives an option the value [--] glued to it ([--flag=--]):
    argparse drops a [--] from the words of an option, and stores the empty
    list that is left. *)
Definition glued_dashes (s : string) : bool :=
  match parse_optional the_parser s with
  | Ok (ClsO (Some _) _ (Some e)) => String.eqb e "--"
  | _ => false
  end.

(** A word of ASCII characters. *)
Definition ascii_word (s : string) : bool :=
  forallb (fun c => (nat_of_ascii c <? 128)%nat) (list_ascii_of_string s).

(** The spatial extent that is left of an extent [h] after the two
    convolutions (kernel 5, stride 1, no padding) and the two poolings
    (2x2, stride 2) of the network. *)
Definition pooled (h : Z) : Z := ((h - 6) / 2 - 5) / 2 + 1.

(** The value an option stores for a word: converted by the type function
    and checked against the choices. *)
Definition stored_value (w : world) (a : Action) (v : string) : result value :=
  rbind (get_value w a v) (fun x => rbind (check_value a x) (fun _ => Ok x)).

(** * Properties *)

(** ** Stepping through monadic code *)

Lemma bind_ok {A B} (c : M A) (k : A -> M B) s a s' :
  c s = Some (Ok a, s') -> bind c k s = k a s'.
Proof. intros H. unfold bind. now rewrite H. Qed.

Lemma bind_raise {A B} (c : M A) (k : A -> M B) s e s' :
  c s = Some (Raise e, s') -> bind c k s = Some (Raise e, s').
Proof. intros H. unfold bind. now rewrite H. Qed.

Lemma add_events_nil s : add_events [] s = s.
Proof. destruct s. unfold add_events. cbn. now rewrite app_nil_r. Qed.

Lemma add_events_app e1 e2 s : add_events e2 (add_events e1 s) = add_events (e1 ++ e2) s.
Proof. unfold add_events. cbn. now rewrite app_assoc. Qed.

Lemma call_ok y ty s :
  infer y = Ok ty -> call y s = Some (Ok y, add_event (EvApply y) s).
Proof. intros H. unfold call, bind, log, lift, ret. now rewrite H. Qed.

Lemma call_raise y e s :
  infer y = Raise e -> call y s = Some (Raise e, add_event (EvApply y) s).
Proof. intros H. unfold call, bind, log, lift, ret. now rewrite H. Qed.

Lemma calls_only_ret {A} (a : A) : calls_only (ret a).
Proof. intros s. exists (Ok a), []. now rewrite add_events_nil. Qed.

Lemma calls_only_call y : calls_only (call y).
Proof.
  intros s. destruct (infer y) as [ty|e] eqn:E.
  - exists (Ok y), [EvApply y]. rewrite (call_ok _ _ _ E). split; [reflexivity|].
    repeat constructor.
  - exists (Raise e), [EvApply y]. rewrite (call_raise _ _ _ E). split; [reflexivity|].
    repeat constructor.
Qed.

Lemma calls_only_bind {A B} (c : M A) (k : A -> M B) :
  calls_only c -> (forall a, calls_only (k a)) -> calls_only (bind c k).
Proof.
  intros Hc Hk s. destruct (Hc s) as (r & evs & E & F). destruct r as [a|e].
  - destruct (Hk a (add_events evs s)) as (r' & evs' & E' & F').
    exists r', (evs ++ evs'). rewrite (bind_ok _ _ _ _ _ E), E', add_events_app.
    split; [reflexivity|]. now apply Forall_app.
  - exists (Raise e), evs. now rewrite (bind_raise _ _ _ _ _ E).
Qed.

(** ** The forward pass of the network *)

Lemma construct_layers self x :
  LeNet5.construct self x = (do! LeNet5.sm_image self "image" x in layers self x).
Proof. reflexivity. Qed.

Lemma layers_calls_only x : calls_only (layers LeNet5.init x).
Proof.
  unfold layers. cbn [LeNet5.relu LeNet5.max_pool2d LeNet5.reshape LeNet5.init].
  repeat (apply calls_only_bind; [apply calls_only_call | intros ?]).
  apply calls_only_ret.
Qed.

Section Forward.

Variable x : tensor.
Variable B : Z.
Hypothesis x_type : infer x = Ok ([B; 1; 32; 32], Float32).

Lemma infer_features : infer (features x) = Ok ([B; 16; 5; 5], Float32).
Proof. unfold features. cbn [infer]. rewrite x_type. reflexivity. Qed.

Lemma infer_flat :
  infer (flat x) =
  if (B * 400) mod 32 =? 0 then Ok ([32; B * 400 / 32], Float32)
  else Raise (ValueError "Reshape: element count not divisible").
Proof.
  unfold flat. cbn [infer]. rewrite infer_features.
  replace (B * 400) with (prod_dims [B; 16; 5; 5]) by (unfold prod_dims; cbn; lia).
  reflexivity.
Qed.

Lemma infer_fc1 :
  infer (Dense (LeNet5.fc1 LeNet5.init) (flat x)) =
  if (B * 400) mod 32 =? 0 then
    if B * 400 / 32 =? 400 then Ok ([32; 120], Float32)
    else Raise (ValueError "Dense: input width differs from in_channels")
  else Raise (ValueError "Reshape: element count not divisible").
Proof.
  cbn [infer]. rewrite infer_flat. destruct (_ =? 0); reflexivity.
Qed.

Lemma batch_is_32 : (B * 400) mod 32 = 0 -> B * 400 / 32 = 400 -> B = 32.
Proof. intros H1 H2. apply Z.div_exact in H1; lia. Qed.

Lemma infer_fc1_32 : B = 32 -> infer (Dense (LeNet5.fc1 LeNet5.init) (flat x)) = Ok ([32; 120], Float32).
Proof. intros HB. rewrite infer_fc1, HB. reflexivity. Qed.

Lemma infer_fc1_other :
  B <> 32 -> exists e, infer (Dense (LeNet5.fc1 LeNet5.init) (flat x)) = Raise e.
Proof.
  intros HB. rewrite infer_fc1.
  destruct (_ =? 0) eqn:E1; [|eauto].
  destruct (_ =? 400) eqn:E2; [|eauto].
  exfalso. apply HB, batch_is_32; lia.
Qed.

End Forward.

Lemma add_event_events e s : add_event e s = add_events [e] s.
Proof. reflexivity. Qed.

(** Bring a state reached by successive additions to the trace into the
    form [add_events evs s]. *)
Ltac merge_events := rewrite ?add_event_events, ?add_events_app; cbn [app].

Ltac infer_by H := cbn [infer]; rewrite ?H; reflexivity.

Ltac run_call H :=
  erewrite bind_ok; [ | eapply call_ok; infer_by H ].

Lemma layers_32 x s :
  infer x = Ok ([32; 1; 32; 32], Float32) ->
  layers LeNet5.init x s =
  Some (Ok (classifier (flat x)), add_events (map EvApply (forward_calls x)) s).
Proof.
  intros H. unfold layers.
  cbn [LeNet5.relu LeNet5.max_pool2d LeNet5.reshape LeNet5.init LeNet5.batch_size
       LeNet5.conv1 LeNet5.conv2 LeNet5.fc1 LeNet5.fc2 LeNet5.fc3].
  do 12 run_call H.
  unfold ret. merge_events. reflexivity.
Qed.

Lemma layers_not_32 x B s :
  infer x = Ok ([B; 1; 32; 32], Float32) -> B <> 32 ->
  exists e evs, layers LeNet5.init x s = Some (Raise e, add_events evs s).
Proof.
  intros H HB. unfold layers.
  cbn [LeNet5.relu LeNet5.max_pool2d LeNet5.reshape LeNet5.init LeNet5.batch_size
       LeNet5.conv1 LeNet5.conv2 LeNet5.fc1 LeNet5.fc2 LeNet5.fc3].
  do 6 run_call H.
  fold pool2. fold (features x). fold (flat x).
  destruct (infer (flat x)) as [ty|e] eqn:E.
  - erewrite bind_ok; [ | eapply call_ok; exact E ].
    destruct (infer_fc1_other x B H HB) as [e E'].
    erewrite bind_raise; [ | eapply call_raise; exact E' ].
    merge_events. eauto.
  - erewrite bind_raise; [ | eapply call_raise; exact E ].
    merge_events. eauto.
Qed.

Lemma sm_image_ok name x s :
  is_image x = true ->
  ImageSummary name x s =
  Some (Ok tt, set_cache (<[name := ImageValue x]> (summary_cache s))
                 (add_event (EvImageSummary name x) s)).
Proof.
  unfold is_image, ImageSummary, bind, lift. destruct (infer x) as [tv|e]; [|discriminate].
  intros ->. reflexivity.
Qed.

Lemma sm_image_raise name x s :
  is_image x = false -> exists e, ImageSummary name x s = Some (Raise e, s).
Proof.
  unfold is_image, ImageSummary, bind, lift. destruct (infer x) as [tv|e]; [|eauto].
  intros ->. unfold raise. eauto.
Qed.

Lemma is_image_rank4 x a b c d dt : infer x = Ok ([a; b; c; d], dt) -> is_image x = true.
Proof. unfold is_image. now intros ->. Qed.

Lemma infer_flat_32 x :
  infer x = Ok ([32; 1; 32; 32], Float32) -> infer (flat x) = Ok ([32; 400], Float32).
Proof. intros H. unfold flat, features. infer_by H. Qed.

Lemma infer_logits_32 x :
  infer x = Ok ([32; 1; 32; 32], Float32) ->
  infer (classifier (flat x)) = Ok ([32; 10], Float32).
Proof. intros H. unfold classifier, flat, features. infer_by H. Qed.

(** The forward pass on a batch of 32 images, evaluated. *)
Lemma construct_32 x s :
  infer x = Ok ([32; 1; 32; 32], Float32) ->
  LeNet5.construct LeNet5.init x s =
  Some (Ok (classifier (flat x)),
        add_events (map EvApply (forward_calls x))
          (set_cache (<["image" := ImageValue x]> (summary_cache s))
             (add_event (EvImageSummary "image" x) s))).
Proof.
  intros H. rewrite construct_layers. cbn [LeNet5.sm_image LeNet5.init].
  erewrite bind_ok; [ | apply sm_image_ok; eapply is_image_rank4; exact H ].
  apply layers_32, H.
Qed.

(** C1 (amended).  The network reshapes to a leading extent of 32 whatever
    the input, so the forward pass on an input of shape (B, 1, 32, 32)
    succeeds exactly for B = 32: the reshape then yields (32, 400) and the
    output has shape (32, 10); for every other B the pass raises. *)
Theorem forward_shape_32_only x B s :
  infer x = Ok ([B; 1; 32; 32], Float32) ->
  (B = 32 ->
     exists s', LeNet5.construct LeNet5.init x s = Some (Ok (classifier (flat x)), s')
       /\ infer (flat x) = Ok ([32; 400], Float32)
       /\ infer (classifier (flat x)) = Ok ([32; 10], Float32))
  /\ (B <> 32 ->
     exists e s', LeNet5.construct LeNet5.init x s = Some (Raise e, s')).
Proof.
  intros H. split; intros HB.
  - subst B. rewrite (construct_32 _ _ H).
    eexists. split; [reflexivity|].
    split; [apply infer_flat_32 | apply infer_logits_32]; exact H.
  - rewrite construct_layers. cbn [LeNet5.sm_image LeNet5.init].
    erewrite bind_ok; [ | apply sm_image_ok; eapply is_image_rank4; exact H ].
    destruct (layers_not_32 x B
                (set_cache (<["image" := ImageValue x]> (summary_cache s))
                   (add_event (EvImageSummary "image" x) s)) H HB) as (e & evs & E).
    rewrite E. eauto.
Qed.

Lemma forward_shape_32_only_witness :
  infer (ex_batch 32) = Ok ([32; 1; 32; 32], Float32) /\
  exists s',
    LeNet5.construct LeNet5.init (ex_batch 32) initial_state
    = Some (Ok (classifier (flat (ex_batch 32))), s')
    /\ infer (flat (ex_batch 32)) = Ok ([32; 400], Float32)
    /\ infer (classifier (flat (ex_batch 32))) = Ok ([32; 10], Float32).
Proof.
  split; [reflexivity|].
  apply (proj1 (forward_shape_32_only (ex_batch 32) 32 initial_state eq_refl)). reflexivity.
Defined.

(** C1, counterexample.  A batch of 64 images of shape (1, 32, 32): the
    reshape gives (32, 800) and the first dense layer rejects it, so no
    output of shape (64, 10) is produced. *)
Lemma forward_shape_batch_64_fails :
  infer (ex_batch 64) = Ok ([64; 1; 32; 32], Float32) /\
  infer (flat (ex_batch 64)) = Ok ([32; 800], Float32) /\
  option_map fst (LeNet5.construct LeNet5.init (ex_batch 64) initial_state)
  = Some (Raise (ValueError "Dense: input width differs from in_channels")).
Proof. vm_compute. repeat split; reflexivity. Qed.

(** C8.  The first effect of a forward pass is the image summary of the
    input itself: it is recorded under "image" with the tensor [x] that was
    passed in, and every layer call comes after it.  When [x] is not a batch
    of images the summary operator raises and no layer is called at all. *)
Theorem image_summary_before_layers x s :
  exists r s' evs,
    LeNet5.construct LeNet5.init x s = Some (r, s')
    /\ trace s' = trace s ++ evs
    /\ (is_image x = true ->
          exists calls, evs = EvImageSummary "image" x :: calls
            /\ Forall is_call calls
            /\ summary_cache s' !! "image" = Some (ImageValue x))
    /\ (is_image x = false -> evs = [] /\ exists e, r = Raise e).
Proof.
  rewrite construct_layers. cbn [LeNet5.sm_image LeNet5.init].
  destruct (is_image x) eqn:I.
  - erewrite bind_ok; [ | apply sm_image_ok; exact I ].
    destruct (layers_calls_only x
                (set_cache (<["image" := ImageValue x]> (summary_cache s))
                   (add_event (EvImageSummary "image" x) s))) as (r & calls & E & F).
    exists r, (add_events calls
                 (set_cache (<["image" := ImageValue x]> (summary_cache s))
                    (add_event (EvImageSummary "image" x) s))),
           (EvImageSummary "image" x :: calls).
    split; [exact E|]. split; [cbn; now rewrite <- app_assoc|].
    split; [|discriminate]. intros _. exists calls.
    split; [reflexivity|]. split; [exact F|]. cbn. apply lookup_insert_eq.
  - destruct (sm_image_raise "image" x s I) as [e E].
    exists (Raise e), s, []. erewrite bind_raise; [ | exact E ].
    split; [reflexivity|]. split; [now rewrite app_nil_r|].
    split; [discriminate|]. intros _. eauto.
Qed.

(** ** The loss cell *)

Lemma shape_eqb_refl (a : shape) : shape_eqb a a = true.
Proof. unfold shape_eqb. now apply bool_decide_eq_true. Qed.

Lemma sm_scalar_ok name v dt s :
  infer v = Ok ([], dt) ->
  ScalarSummary name v s =
  Some (Ok tt, set_cache (<[name := ScalarValue v]> (summary_cache s))
                 (add_event (EvScalarSummary name v) s)).
Proof.
  intros H. unfold ScalarSummary, bind, lift. rewrite H. cbn [fst].
  rewrite shape_eqb_refl. reflexivity.
Qed.

Section Loss.

Variables logits label : tensor.
Variables n c : Z.
Hypothesis logits_type : infer logits = Ok ([n; c], Float32).
Hypothesis label_type : infer label = Ok ([n], Int32).
Hypothesis rows : 1 <= n.
Hypothesis classes : 1 <= c.

Lemma infer_one_hot : infer (one_hot_labels label c) = Ok ([n; c], Float32).
Proof.
  unfold one_hot_labels. cbn [infer]. rewrite label_type. cbn [rbind].
  unfold onehot_rule. cbn [snd fst].
  destruct (c <? 0) eqn:E; [lia|]. reflexivity.
Qed.

Lemma infer_per_sample : infer (per_sample_loss logits label c) = Ok ([n], Float32).
Proof.
  unfold per_sample_loss. cbn [infer]. rewrite logits_type, infer_one_hot. cbn [rbind].
  unfold xent_check, require_float, ttype_eqb. cbn [fst snd].
  rewrite shape_eqb_refl. cbn [andb dtype_eqb].
  destruct (Z.leb_spec 1 n); [|lia]. destruct (Z.leb_spec 1 c); [|lia]. reflexivity.
Qed.

Lemma infer_mean_loss : infer (mean_loss logits label c) = Ok ([], Float32).
Proof.
  unfold mean_loss. cbn [infer]. rewrite infer_per_sample. reflexivity.
Qed.

Lemma loss_construct_run s :
  CrossEntropyLoss.construct CrossEntropyLoss.init logits label s =
  Some (Ok (mean_loss logits label c),
        set_cache (<["loss" := ScalarValue (mean_loss logits label c)]> (summary_cache s))
          (add_events [EvApply (one_hot_labels label c);
                       EvApply (per_sample_loss logits label c);
                       EvApply (mean_loss logits label c);
                       EvScalarSummary "loss" (mean_loss logits label c)] s)).
Proof.
  unfold CrossEntropyLoss.construct.
  cbn [CrossEntropyLoss.sm_scalar CrossEntropyLoss.cross_entropy CrossEntropyLoss.mean
       CrossEntropyLoss.one_hot CrossEntropyLoss.on_value CrossEntropyLoss.off_value
       CrossEntropyLoss.init].
  erewrite bind_ok; [ | unfold lift, F_shape; rewrite logits_type; reflexivity ].
  erewrite bind_ok; [ | reflexivity ]. cbn [fst].
  erewrite bind_ok; [ | eapply call_ok; exact infer_one_hot ].
  unfold SoftmaxCrossEntropyWithLogits.
  erewrite bind_ok;
    [ | erewrite bind_ok; [ reflexivity | eapply call_ok; exact infer_per_sample ] ].
  erewrite bind_ok; [ | reflexivity ].
  erewrite bind_ok; [ | eapply call_ok; exact infer_mean_loss ].
  erewrite bind_ok; [ | eapply sm_scalar_ok; exact infer_mean_loss ].
  unfold ret. merge_events. reflexivity.
Qed.

End Loss.




(** ** The dataset pipeline *)

Section Pipeline.

Context {A : Type}.
Implicit Types (buf input cur : list A) (rng : nat -> nat).

Lemma draw_all_perm rng fuel : forall k buf,
  length buf = fuel -> draw_all rng k fuel buf ≡ₚ buf.
Proof.
  induction fuel as [|fuel IH]; intros k buf Hlen; cbn [draw_all].
  - destruct buf; [reflexivity | discriminate].
  - assert (Hi : (rng k mod length buf < length buf)%nat)
      by (apply Nat.mod_upper_bound; lia).
    destruct (lookup_lt_is_Some_2 _ _ Hi) as [x Hx]. rewrite Hx.
    etrans; [ | symmetry; apply (delete_Permutation buf _ x Hx) ].
    constructor. apply IH. rewrite length_delete by eauto. lia.
Qed.

Lemma insert_perm buf i x y :
  buf !! i = Some x -> <[i := y]> buf ≡ₚ y :: delete i buf.
Proof.
  intros Hx. assert (i < length buf)%nat by (apply lookup_lt_is_Some; eauto).
  rewrite insert_take_drop by assumption. rewrite delete_take_drop.
  symmetry. apply Permutation_middle.
Qed.

Lemma shuffle_buffer_perm rng input : forall k buf,
  shuffle_buffer rng k buf input ≡ₚ buf ++ input.
Proof.
  induction input as [|y rest IH]; intros k buf; cbn [shuffle_buffer].
  - rewrite app_nil_r. now apply draw_all_perm.
  - destruct (buf !! (rng k mod length buf)%nat) as [x|] eqn:Hx.
    + rewrite IH, (insert_perm _ _ _ y Hx).
      etrans; [ | apply Permutation_app_tail; symmetry;
                  apply (delete_Permutation buf _ x Hx) ].
      cbn. constructor. apply Permutation_middle.
    + rewrite IH. apply Permutation_middle.
Qed.

(** Batching with the remainder dropped: the batches are consecutive
    segments of [n] rows, and fewer than [n] rows are left over. *)
Lemma batch_rows_split n input : forall cur,
  (length cur < n)%nat ->
  exists rem,
    cur ++ input = concat (batch_rows n true cur input) ++ rem
    /\ (length rem < n)%nat
    /\ Forall (fun b => length b = n) (batch_rows n true cur input).
Proof.
  induction input as [|x rest IH]; intros cur Hcur; cbn [batch_rows orb].
  - exists cur. rewrite app_nil_r. cbn. auto.
  - destruct (Nat.eqb_spec (length (cur ++ [x])) n) as [E|E].
    + assert (Hn : (0 < n)%nat) by (rewrite length_app in E; cbn in E; lia).
      destruct (IH [] Hn) as (rem & Hsplit & Hrem & Hall).
      exists rem. split; [|split; [assumption | constructor; assumption]].
      cbn [concat]. rewrite <- !app_assoc. cbn [app] in *. do 2 f_equal. exact Hsplit.
    + rewrite length_app in E. cbn in E.
      destruct (IH (cur ++ [x]) ltac:(rewrite length_app; cbn; lia))
        as (rem & Hsplit & Hrem & Hall).
      exists rem. rewrite <- app_assoc in Hsplit. auto.
Qed.

Lemma concat_length_uniform n (bs : list (list A)) :
  Forall (fun b => length b = n) bs -> length (concat bs) = (n * length bs)%nat.
Proof.
  induction 1 as [|b bs Hb _ IH]; cbn; [lia|]. rewrite length_app, IH, Hb. lia.
Qed.

Lemma batch_rows_count n input :
  (0 < n)%nat ->
  length (batch_rows n true [] input) = (length input / n)%nat
  /\ length (concat (batch_rows n true [] input)) = (n * (length input / n))%nat.
Proof.
  intros Hn. destruct (batch_rows_split n input [] ltac:(cbn; lia)) as (rem & Hs & Hr & Ha).
  pose proof (concat_length_uniform n _ Ha) as Hc.
  assert (Hlen : length input = (n * length (batch_rows n true [] input) + length rem)%nat).
  { cbn [app] in Hs. rewrite Hs at 1. rewrite length_app. lia. }
  assert (Hq : (length input / n = length (batch_rows n true [] input))%nat).
  { symmetry. apply (Nat.div_unique _ _ _ (length rem)); lia. }
  rewrite Hc, Hq. split; reflexivity.
Qed.

End Pipeline.

Lemma pipeline_of_pass w path n B p :
  pipeline_of w path n B p = batched_pass w path n B p.
Proof.
  unfold pipeline_of, batched_pass, shuffled_pass. cbv zeta.
  rewrite !map_map. reflexivity.
Qed.

Lemma ds_map_label w f k (d : pipeline row) :
  workers_ok w k = true ->
  ds_map w "label" f k d =
  Ok (fun p => map (fun r => {| image := image r; label := f (label r) |}) (d p)).
Proof. unfold workers_ok, ds_map. now intros ->. Qed.

Lemma ds_map_image w f k (d : pipeline row) :
  workers_ok w k = true ->
  ds_map w "image" f k d =
  Ok (fun p => map (fun r => {| image := f (image r); label := label r |}) (d p)).
Proof. unfold workers_ok, ds_map. now intros ->. Qed.

Lemma ds_map_workers w col f k (d : pipeline row) :
  workers_ok w k = false ->
  ds_map w col f k d =
  Raise (ValueError "num_parallel_workers exceeds the boundary between 1 and the number of CPUs").
Proof. unfold workers_ok, ds_map. now intros ->. Qed.

Lemma workers_ok_1 w : workers_ok w 1 = true.
Proof. unfold workers_ok. apply andb_true_intro. split; apply Z.leb_le; lia. Qed.

Lemma ds_shuffle_10000 {A} w (d : pipeline A) :
  ds_shuffle w 10000 d =
  Ok (fun p => shuffle_buffer (shuffle_rng w p) 0
                 (take (Z.to_nat 10000) (d p)) (drop (Z.to_nat 10000) (d p))).
Proof. reflexivity. Qed.

Lemma create_dataset_eval w path B R P s :
  create_dataset w path B R P s =
  Some (match mnist_dirs w path with
        | Some n =>
            if workers_ok w (default 1 P) then
              if batch_size_ok (default 32 B)
              then ds_repeat (default 1 R) (pipeline_of w path n (default 32 B))
              else Raise (ValueError "batch_size is not within the required range")
            else Raise (ValueError "num_parallel_workers exceeds the boundary between 1 and the number of CPUs")
        | None => Raise (ValueError "The folder does not exist or is not a MNIST directory")
        end,
        add_event (EvDatasetOpen path) s).
Proof.
  unfold create_dataset, MnistDataset, bind, log, lift, ret, raise.
  destruct (mnist_dirs w path) as [n|]; [|reflexivity].
  destruct (workers_ok w (default 1 P)) eqn:HP.
  2:{ rewrite (ds_map_workers _ _ _ _ _ HP). reflexivity. }
  rewrite (ds_map_label _ _ _ _ HP). cbv beta iota.
  do 3 (rewrite (ds_map_image _ _ _ _ HP); cbv beta iota).
  rewrite ds_shuffle_10000. cbv beta iota.
  unfold ds_batch. fold (batch_size_ok (default 32 B)).
  destruct (batch_size_ok (default 32 B)); [|reflexivity].
  match goal with
  | |- context [ds_repeat ?a ?b] =>
      change b with (pipeline_of w path n (default 32 B));
      destruct (ds_repeat a (pipeline_of w path n (default 32 B)))
  end; reflexivity.
Qed.

Lemma source_pass_perm w path n p :
  source_pass w path n p ≡ₚ map (mnist_row path) (seq 0 n).
Proof.
  unfold source_pass. apply draw_all_perm. now rewrite length_map, length_seq.
Qed.

Lemma shuffled_pass_perm w path n p :
  shuffled_pass w path n p ≡ₚ map transform (map (mnist_row path) (seq 0 n)).
Proof.
  unfold shuffled_pass. cbv zeta. rewrite shuffle_buffer_perm, take_drop.
  apply Permutation_map, source_pass_perm.
Qed.

Lemma shuffled_pass_length w path n p : length (shuffled_pass w path n p) = n.
Proof.
  rewrite (Permutation_length (shuffled_pass_perm w path n p)).
  now rewrite !length_map, length_seq.
Qed.

Lemma batched_pass_full w path n B p b :
  1 <= B -> In b (batched_pass w path n B p) -> Z.of_nat (length b) = B.
Proof.
  intros HB Hb. unfold batched_pass in Hb.
  destruct (batch_rows_split (Z.to_nat B) (shuffled_pass w path n p) [] ltac:(cbn; lia))
    as (rem & _ & _ & Hall).
  rewrite Forall_forall in Hall. rewrite (Hall b); [lia|]. now apply list_elem_of_In.
Qed.

Lemma batched_pass_count w path n B p :
  1 <= B ->
  length (batched_pass w path n B p) = (n / Z.to_nat B)%nat
  /\ length (concat (batched_pass w path n B p)) = (Z.to_nat B * (n / Z.to_nat B))%nat.
Proof.
  intros HB. unfold batched_pass.
  destruct (batch_rows_count (Z.to_nat B) (shuffled_pass w path n p) ltac:(lia)) as [H1 H2].
  rewrite shuffled_pass_length in H1, H2. auto.
Qed.

Lemma batched_pass_rows w path n B p b r :
  1 <= B -> In b (batched_pass w path n B p) -> In r b ->
  exists i, (i < n)%nat /\ r = transform (mnist_row path i).
Proof.
  intros HB Hb Hr. unfold batched_pass in Hb.
  destruct (batch_rows_split (Z.to_nat B) (shuffled_pass w path n p) [] ltac:(cbn; lia))
    as (rem & Hsplit & _ & _).
  assert (Hin : In r (shuffled_pass w path n p)).
  { cbn [app] in Hsplit. rewrite Hsplit. apply in_or_app. left.
    apply in_concat. eauto. }
  apply (Permutation_in _ (shuffled_pass_perm w path n p)) in Hin.
  apply in_map_iff in Hin as (r0 & <- & Hr0).
  apply in_map_iff in Hr0 as (i & <- & Hi).
  apply in_seq in Hi. exists i. split; [lia | reflexivity].
Qed.

(** What [repeat] makes of a pipeline. *)
Lemma ds_repeat_finite R (pipe : pipeline batch) pass :
  ds_repeat R pipe = Ok (Finite pass) ->
  1 <= R /\ forall p, pass p = concat (map pipe (seq (p * Z.to_nat R) (Z.to_nat R))).
Proof.
  unfold ds_repeat. destruct (Z.eqb_spec R 1) as [->|H1].
  - intros [= <-]. split; [lia|]. intros p. change (Z.to_nat 1) with 1%nat.
    cbn [seq map concat]. now rewrite Nat.mul_1_r, app_nil_r.
  - destruct (Z.eqb_spec R (-1)); [discriminate|].
    destruct ((1 <=? R) && (R <=? INT32_MAX)) eqn:E; [|discriminate].
    intros [= <-]. split; [lia | reflexivity].
Qed.

Lemma ds_repeat_endless R (pipe : pipeline batch) pass :
  ds_repeat R pipe = Ok (Endless pass) -> R = -1 /\ pass = pipe.
Proof.
  unfold ds_repeat. destruct (Z.eqb_spec R 1); [discriminate|].
  destruct (Z.eqb_spec R (-1)) as [->|].
  - now intros [= <-].
  - destruct ((1 <=? R) && (R <=? INT32_MAX)); discriminate.
Qed.

Lemma ds_repeat_yields R (pipe : pipeline batch) d p b :
  ds_repeat R pipe = Ok d -> yields d p b -> exists q, In b (pipe q).
Proof.
  destruct d as [pass|pass]; intros E Hy; cbn in Hy.
  - destruct (ds_repeat_finite _ _ _ E) as [_ Hp]. rewrite Hp in Hy.
    apply in_concat in Hy as (bs & Hbs & Hb).
    apply in_map_iff in Hbs as (q & <- & _). eauto.
  - destruct (ds_repeat_endless _ _ _ E) as [_ ->]. exact Hy.
Qed.

Lemma concat_map_length {X} (f : nat -> list X) m r : forall a,
  (forall q, length (f q) = m) ->
  length (concat (map f (seq a r))) = (r * m)%nat.
Proof.
  induction r as [|r IH]; intros a Hf; cbn; [reflexivity|].
  rewrite length_app, Hf, IH by assumption. reflexivity.
Qed.

Lemma concat_concat_map {X} (f : nat -> list (list X)) (l : list nat) :
  concat (concat (map f l)) = concat (map (fun q => concat (f q)) l).
Proof.
  induction l as [|q l IH]; cbn; [reflexivity|]. now rewrite concat_app, IH.
Qed.

(** When [create_dataset] returns a dataset. *)
Lemma create_dataset_ok w path B R P s d s' :
  create_dataset w path B R P s = Some (Ok d, s') ->
  exists n,
    mnist_dirs w path = Some n
    /\ 1 <= default 32 B
    /\ ds_repeat (default 1 R) (pipeline_of w path n (default 32 B)) = Ok d
    /\ s' = add_event (EvDatasetOpen path) s.
Proof.
  rewrite create_dataset_eval. intros [= E <-].
  destruct (mnist_dirs w path) as [n|]; [|discriminate]. exists n.
  destruct (workers_ok w (default 1 P)); [|discriminate].
  destruct (batch_size_ok (default 32 B)) eqn:HB; [|discriminate].
  unfold batch_size_ok in HB. split; [reflexivity|]. split; [lia|]. auto.
Qed.

(** C3.  Every batch that the dataset built by [create_dataset] yields, in
    any iteration, holds exactly [batch_size] rows; of the [n] rows of a pass
    over the source only the [n mod batch_size] rows that do not fill a batch
    are missing, so one pass gives [n / batch_size] batches. *)
Theorem batches_are_full w path B R P s d s' :
  create_dataset w path B R P s = Some (Ok d, s') ->
  (forall p b, yields d p b -> Z.of_nat (length b) = default 32 B)
  /\ exists n,
       mnist_dirs w path = Some n
       /\ forall p batches,
            iteration d p = Some batches ->
            let per_pass := (n / Z.to_nat (default 32%Z B))%nat in
            length batches = (Z.to_nat (default 1%Z R) * per_pass)%nat
            /\ length (concat batches)
               = (Z.to_nat (default 1%Z R) * (Z.to_nat (default 32%Z B) * per_pass))%nat.
Proof.
  intros H. destruct (create_dataset_ok _ _ _ _ _ _ _ _ H) as (n & Hn & HB & HR & _).
  split.
  - intros p b Hy. destruct (ds_repeat_yields _ _ _ _ _ HR Hy) as [q Hq].
    rewrite pipeline_of_pass in Hq. eapply batched_pass_full; eassumption.
  - exists n. split; [assumption|]. intros p batches Hit per_pass.
    destruct d as [pass|pass]; [|discriminate]. injection Hit as <-.
    destruct (ds_repeat_finite _ _ _ HR) as [_ Hp]. rewrite Hp. split.
    + apply concat_map_length. intros q. rewrite pipeline_of_pass.
      apply (batched_pass_count w path n _ q HB).
    + rewrite (concat_concat_map (X:=row) (pipeline_of w path n (default 32 B))).
      apply concat_map_length. intros q.
      rewrite pipeline_of_pass. apply (batched_pass_count w path n _ q HB).
Qed.

Lemma batches_are_full_witness :
  exists d s',
    create_dataset (ex_world 7 no_fault) "data/train" (Some 3) None None initial_state
    = Some (Ok d, s')
    /\ (forall p b, yields d p b -> Z.of_nat (length b) = 3)
    /\ (forall p batches, iteration d p = Some batches ->
          length batches = 2%nat /\ length (concat batches) = 6%nat).
Proof.
  destruct (create_dataset (ex_world 7 no_fault) "data/train" (Some 3) None None initial_state)
    as [[[d|e] s']|] eqn:E;
    try (rewrite create_dataset_eval in E; discriminate E).
  exists d, s'. split; [reflexivity|].
  destruct (batches_are_full _ _ _ _ _ _ _ _ E) as (Hfull & n & Hn & Hcount).
  split; [exact Hfull|].
  injection Hn as <-. exact Hcount.
Defined.

Lemma transform_types path i :
  infer (image (transform (mnist_row path i))) = Ok ([1; 32; 32], Float32)
  /\ infer (label (transform (mnist_row path i))) = Ok ([], Int32).
Proof. split; reflexivity. Qed.

(** C4.  Every row of every batch of the dataset is a row of the source to
    which the label cast to a 32-bit integer and, on the image, the bilinear
    resize to 32x32, the rescale by 1/255 with shift 0 and the change from
    height-width-channel to channel-height-width were applied, in this
    order; and the rows are transformed before they are shuffled and
    batched: a pass of the batched pipeline cuts the shuffled sequence of the
    transformed source rows into batches. *)
Theorem rows_are_transformed w path B R P s d s' :
  create_dataset w path B R P s = Some (Ok d, s') ->
  exists n,
    mnist_dirs w path = Some n
    /\ (forall p b r, yields d p b -> In r b ->
          exists i, (i < n)%nat
            /\ image r = HWC2CHW (Rescale (1 / 255) 0
                           (Resize 32 32 LINEAR (image (mnist_row path i))))
            /\ label r = TypeCast Int32 (label (mnist_row path i))
            /\ infer (image r) = Ok ([1; 32; 32], Float32)
            /\ infer (label r) = Ok ([], Int32))
    /\ ds_repeat (default 1 R) (pipeline_of w path n (default 32 B)) = Ok d
    /\ (forall p,
          pipeline_of w path n (default 32 B) p
          = batch_rows (Z.to_nat (default 32 B)) true []
              (let rows := map transform (source_pass w path n p) in
               shuffle_buffer (shuffle_rng w p) 0
                 (take (Z.to_nat 10000) rows) (drop (Z.to_nat 10000) rows))).
Proof.
  intros H. destruct (create_dataset_ok _ _ _ _ _ _ _ _ H) as (n & Hn & HB & HR & _).
  exists n. split; [assumption|]. split; [|split; [assumption|]].
  - intros p b r Hy Hr. destruct (ds_repeat_yields _ _ _ _ _ HR Hy) as [q Hq].
    rewrite pipeline_of_pass in Hq.
    destruct (batched_pass_rows _ _ _ _ _ _ _ HB Hq Hr) as (i & Hi & ->).
    exists i. split; [assumption|]. split; [reflexivity|]. split; [reflexivity|].
    apply transform_types.
  - intros p. apply pipeline_of_pass.
Qed.

Lemma rows_are_transformed_witness :
  exists d s',
    create_dataset (ex_world 7 no_fault) "data/train" (Some 3) None None initial_state
    = Some (Ok d, s')
    /\ forall p b r, yields d p b -> In r b ->
         exists i, (i < 7)%nat
           /\ image r = HWC2CHW (Rescale (1 / 255) 0
                          (Resize 32 32 LINEAR (image (mnist_row "data/train" i))))
           /\ label r = TypeCast Int32 (label (mnist_row "data/train" i)).
Proof.
  destruct (create_dataset (ex_world 7 no_fault) "data/train" (Some 3) None None initial_state)
    as [[[d|e] s']|] eqn:E;
    try (rewrite create_dataset_eval in E; discriminate E).
  exists d, s'. split; [reflexivity|].
  destruct (rows_are_transformed _ _ _ _ _ _ _ _ E) as (n & Hn & Hrows & _).
  injection Hn as <-. intros p b r Hy Hr.
  destruct (Hrows p b r Hy Hr) as (i & Hi & Him & Hlab & _). eauto.
Defined.

(** C6.  For one source and one batch size, [create_dataset] with
    [repeat_size=2] fails exactly when it fails with [repeat_size=1], and
    otherwise an iteration over the doubled dataset yields the batches of
    two passes over the batched pipeline, twice as many batches as an
    iteration over the single one. *)
Theorem repeat_two_doubles w path B P s :
  match create_dataset w path B (Some 1) P s, create_dataset w path B (Some 2) P s with
  | Some (Ok d1, _), Some (Ok d2, _) =>
      exists pass1 pass2,
        d1 = Finite pass1 /\ d2 = Finite pass2
        /\ forall p q,
             pass2 q = pass1 (2 * q)%nat ++ pass1 (2 * q + 1)%nat
             /\ length (pass2 q) = (2 * length (pass1 p))%nat
  | Some (Raise e1, _), Some (Raise e2, _) => e1 = e2
  | _, _ => False
  end.
Proof.
  rewrite !create_dataset_eval.
  destruct (mnist_dirs w path) as [n|]; [|reflexivity].
  destruct (workers_ok w (default 1 P)); [|reflexivity].
  destruct (batch_size_ok (default 32 B)) eqn:HB; [|reflexivity].
  change (ds_repeat (default 1 (Some 1)) ?x) with (Ok (Finite x)).
  change (ds_repeat (default 1 (Some 2)) ?x) with
    (Ok (Finite (fun p => concat (map x (seq (p * Z.to_nat 2) (Z.to_nat 2)))))).
  eexists _, _. split; [reflexivity|]. split; [reflexivity|].
  intros p q. change (Z.to_nat 2) with 2%nat. cbn [seq map concat].
  rewrite app_nil_r, (Nat.mul_comm q 2), Nat.add_1_r. split; [reflexivity|].
  assert (H1 : 1 <= default 32 B) by (unfold batch_size_ok in HB; lia).
  rewrite length_app, !pipeline_of_pass.
  rewrite !(proj1 (batched_pass_count w path n _ _ H1)). lia.
Qed.

(** ** The training loop *)

Lemma infer_Stack rows : infer (Stack rows) = rbind (mapR infer rows) stack_rule.
Proof.
  cbn [infer]. f_equal. induction rows as [|y l IH]; [reflexivity|].
  cbn [mapR]. now rewrite IH.
Qed.

Lemma dtype_eqb_refl d : dtype_eqb d d = true.
Proof. now destruct d. Qed.

Lemma ttype_eqb_refl t : ttype_eqb t t = true.
Proof. unfold ttype_eqb. now rewrite shape_eqb_refl, dtype_eqb_refl. Qed.

Lemma mapR_uniform {X Y} (f : X -> result Y) (t : Y) (l : list X) :
  Forall (fun x => f x = Ok t) l -> mapR f l = Ok (repeat t (length l)).
Proof.
  induction 1 as [|x l Hx _ IH]; [reflexivity|]. cbn [mapR]. now rewrite Hx, IH.
Qed.

Lemma infer_Stack_uniform rows t :
  rows <> [] -> Forall (fun x => infer x = Ok t) rows ->
  infer (Stack rows) = Ok (Z.of_nat (length rows) :: fst t, snd t).
Proof.
  intros Hne Hall. rewrite infer_Stack, (mapR_uniform _ _ _ Hall).
  destruct rows as [|x rows]; [congruence|]. cbn [length repeat rbind stack_rule].
  replace (forallb (ttype_eqb t) (repeat t (length rows))) with true.
  - now rewrite repeat_length.
  - symmetry. apply forallb_forall. intros y Hy. apply repeat_spec in Hy as ->.
    apply ttype_eqb_refl.
Qed.

Lemma good_batch_images b :
  good_batch b -> infer (Stack (map image b)) = Ok ([32; 1; 32; 32], Float32).
Proof.
  intros [Hlen Hall].
  rewrite (infer_Stack_uniform _ ([1; 32; 32], Float32)).
  - now rewrite length_map, Hlen.
  - destruct b; [discriminate | cbn; congruence].
  - clear Hlen. induction Hall as [|r l [Hr _] _ IH]; constructor; assumption.
Qed.

Lemma good_batch_labels b :
  good_batch b -> infer (Stack (map label b)) = Ok ([32], Int32).
Proof.
  intros [Hlen Hall].
  rewrite (infer_Stack_uniform _ ([], Int32)).
  - now rewrite length_map, Hlen.
  - destruct b; [discriminate | cbn; congruence].
  - clear Hlen. induction Hall as [|r l [_ Hr] _ IH]; constructor; assumption.
Qed.

Lemma state_eq (a b : state) :
  trace a = trace b -> summary_cache a = summary_cache b -> writer a = writer b -> a = b.
Proof. destruct a, b. cbn. now intros -> -> ->. Qed.

Lemma train_step_fault w model k b s :
  device_fault w k = true ->
  train_step w model k b s = Some (Raise (RuntimeError "device failure"), s).
Proof. intros H. unfold train_step. now rewrite H. Qed.

Lemma train_step_ok w lr k b s :
  device_fault w k = false -> good_batch b ->
  train_step w (the_model lr) k b s =
  Some (Ok tt, set_cache (step_cache b (summary_cache s))
                 (add_events (step_events (the_optimizer lr) k b) s)).
Proof.
  intros Hf Hb. unfold train_step. rewrite Hf. cbn [network loss_fn optimizer the_model].
  pose proof (good_batch_images b Hb) as Hx. pose proof (good_batch_labels b Hb) as Hy.
  erewrite bind_ok; [ | apply construct_32; exact Hx ].
  erewrite bind_ok;
    [ | apply (loss_construct_run _ _ 32 10);
        [apply infer_logits_32; exact Hx | exact Hy | lia | lia] ].
  unfold log. f_equal. f_equal. apply state_eq; cbn; [|reflexivity|reflexivity].
  unfold step_events. cbn. rewrite <- !app_assoc. reflexivity.
Qed.

Lemma updates_app a b : updates (a ++ b) = updates a ++ updates b.
Proof. apply flat_map_app. Qed.

Lemma flushes_app a b : flushes (a ++ b) = flushes a ++ flushes b.
Proof. apply flat_map_app. Qed.

Lemma updates_step opt k b : updates (step_events opt k b) = [(opt, k)].
Proof. reflexivity. Qed.

Lemma flushes_step opt k b : flushes (step_events opt k b) = [].
Proof. reflexivity. Qed.

Lemma dataset_opens_app a b : dataset_opens (a ++ b) = dataset_opens a ++ dataset_opens b.
Proof. apply flat_map_app. Qed.

Lemma update_losses_app a b : update_losses (a ++ b) = update_losses a ++ update_losses b.
Proof. apply flat_map_app. Qed.

Lemma update_losses_step opt k b : update_losses (step_events opt k b) = [batch_loss b].
Proof. reflexivity. Qed.

Lemma update_losses_none T : updates T = [] -> update_losses T = [].
Proof.
  induction T as [|e T IH]; [reflexivity|].
  destruct e; cbn; try exact IH. discriminate.
Qed.

Lemma dataset_opens_step opt k b : dataset_opens (step_events opt k b) = [].
Proof. reflexivity. Qed.

Lemma step_end_run dir k s :
  writer_open dir s ->
  exists s' T,
    step_end_all [the_callback dir] k s = Some (Ok tt, s')
    /\ trace s' = trace s ++ T
    /\ writer_open dir s'
    /\ updates T = []
    /\ dataset_opens T = []
    /\ flushes T = (if is_flush_step k then [(dir, k)] else []).
Proof.
  intros [recs Hw]. unfold step_end_all, step_end, bind. cbn [flush_step the_callback].
  unfold is_flush_step. destruct (k mod 10 =? 0).
  - unfold SummaryRecord_record. rewrite Hw. cbn [closed log_dir records].
    eexists _, [_]. split; [reflexivity|]. split; [reflexivity|].
    split; [eexists; reflexivity|]. repeat split; reflexivity.
  - exists s, []. unfold ret. rewrite app_nil_r. repeat split. now exists recs.
Qed.

Section Training.

Variables (w : world) (lr : float) (dir : string).

Lemma run_steps_spec batches : forall k s,
  writer_open dir s -> Forall good_batch batches ->
  exists r s' T,
    run_steps w (the_model lr) [the_callback dir] k batches s = Some (r, s')
    /\ trace s' = trace s ++ T
    /\ writer_open dir s'
    /\ dataset_opens T = []
    /\ updates T
       = map (fun j => (the_optimizer lr, j)) (zseq (k + 1) (steps_run w k (length batches)))
    /\ flushes T
       = map (fun j => (dir, j))
           (List.filter is_flush_step (zseq (k + 1) (steps_run w k (length batches))))
    /\ update_losses T = map batch_loss (firstn (steps_run w k (length batches)) batches)
    /\ r = (if (steps_run w k (length batches) =? length batches)%nat
            then Ok (k + Z.of_nat (length batches))
            else Raise (RuntimeError "device failure")).
Proof.
  induction batches as [|b rest IH]; intros k s Hw Hall.
  - exists (Ok k), s, []. cbn. rewrite app_nil_r, Z.add_0_r. repeat split; auto.
  - inversion Hall as [|? ? Hb Hrest]; subst. cbn [run_steps length steps_run].
    destruct (device_fault w (k + 1)) eqn:F.
    + exists (Raise (RuntimeError "device failure")), s, [].
      erewrite bind_raise; [ | apply train_step_fault; exact F ].
      cbn. rewrite app_nil_r. repeat split; auto.
    + erewrite bind_ok; [ | apply train_step_ok; [exact F | exact Hb] ].
      set (s1 := set_cache _ _).
      assert (Hw1 : writer_open dir s1) by exact Hw.
      destruct (step_end_run dir (k + 1) s1 Hw1)
        as (s2 & T2 & E2 & Ht2 & Hw2 & Hu2 & Hd2 & Hf2).
      erewrite bind_ok; [ | exact E2 ].
      destruct (IH (k + 1) s2 Hw2 Hrest)
        as (r & s' & T & E & Ht & Hw' & Hd & Hu & Hf & Hl & Hr).
      exists r, s', (step_events (the_optimizer lr) (k + 1) b ++ T2 ++ T).
      split; [exact E|]. split.
      { rewrite Ht, Ht2. subst s1. cbn. now rewrite <- !app_assoc. }
      split; [exact Hw'|]. split.
      { rewrite !dataset_opens_app, dataset_opens_step, Hd2, Hd. reflexivity. }
      split.
      { rewrite !updates_app, updates_step, Hu2, Hu. reflexivity. }
      split.
      { rewrite !flushes_app, flushes_step, Hf2, Hf. cbn [zseq List.filter map app].
        destruct (is_flush_step (k + 1)); reflexivity. }
      split.
      { rewrite !update_losses_app, update_losses_step, (update_losses_none _ Hu2), Hl.
        reflexivity. }
      rewrite Hr. cbn [Nat.eqb].
      destruct (_ =? _)%nat; [f_equal; lia | reflexivity].
Qed.

End Training.

(** ** The entry point *)

Lemma pipeline_batches_good w path n p :
  Forall good_batch (pipeline_of w path n 32 p).
Proof.
  rewrite pipeline_of_pass. apply Forall_forall. intros b Hb.
  apply list_elem_of_In in Hb. split.
  - pose proof (batched_pass_full w path n 32 p b ltac:(lia) Hb). lia.
  - apply Forall_forall. intros r Hr. apply list_elem_of_In in Hr.
    destruct (batched_pass_rows w path n 32 p b r ltac:(lia) Hb Hr) as (i & _ & ->).
    apply transform_types.
Qed.

Lemma pipeline_batches_count w path n p :
  length (pipeline_of w path n 32 p) = (n / 32)%nat.
Proof.
  rewrite pipeline_of_pass.
  apply (proj1 (batched_pass_count w path n 32 p ltac:(lia))).
Qed.

Lemma Momentum_init_eval params rate :
  Momentum_init params rate 0.9
  = if learning_rate_ok rate then Ok (Momentum params rate 0.9)
    else Raise (ValueError "learning rate should be in range [0, inf)").
Proof. unfold Momentum_init. destruct (learning_rate_ok rate); reflexivity. Qed.

Lemma main_unfold w data_path device_target summary_dir learning_rate :
  main w data_path device_target summary_dir learning_rate
  = (let device_target := default "Ascend" device_target in
     let summary_dir := default "./summary_dir" summary_dir in
     let learning_rate := default 0.01%float learning_rate in
     do! set_context GRAPH_MODE device_target in
     let network := LeNet5.init in
     let net_loss := CrossEntropyLoss.init in
     let! net_opt :=
       lift (Momentum_init (LeNet5.trainable_params network) learning_rate 0.9%float) in
     let model := {| network := network; loss_fn := net_loss; optimizer := net_opt |} in
     let! summary_writer := SummaryRecord_init summary_dir in
     let! summary_callback := SummaryStep_init summary_writer (Some 10) in
     let! ds := create_dataset w (os_path_join data_path "train") (Some 32) None None in
     do! print "============== Starting Training ==============" in
     do! Model_train w model 1 ds [summary_callback] in
     do! SummaryRecord_close in
     print "============== Train End =====================").
Proof. reflexivity. Qed.

(** [main] handed a list as [data_path]: the error of [os.path.join] comes
    when the writer is open already. *)
Lemma main_body_list_run w l device_target summary_dir learning_rate s :
  let device := default "Ascend" device_target in
  let dir := default "./summary_dir" summary_dir in
  let rate := default 0.01%float learning_rate in
  valid_device device = true -> learning_rate_ok rate = true -> blank dir = false ->
  exists s',
    main_body w (VList l) device_target summary_dir learning_rate s
    = Some (Raise (TypeError "expected str, bytes or os.PathLike object, not list"), s')
    /\ trace s' = trace s ++ [EvSetContext GRAPH_MODE device; EvSummaryOpen dir]
    /\ writer_open dir s'.
Proof.
  intros device dir rate V L Bl. unfold main_body. cbv zeta.
  fold device dir rate. unfold set_context. fold (valid_device device). rewrite V.
  erewrite bind_ok; [ | reflexivity ].
  rewrite Momentum_init_eval, L.
  erewrite bind_ok; [ | reflexivity ].
  unfold SummaryRecord_init. rewrite Bl.
  erewrite bind_ok; [ | reflexivity ].
  erewrite bind_ok; [ | reflexivity ].
  erewrite bind_raise; [ | reflexivity ].
  eexists. split; [reflexivity|]. split.
  { cbn. rewrite <- !app_assoc. reflexivity. }
  eexists. reflexivity.
Qed.

(** What a run of [main] does, case by case. *)
Lemma main_run w data_path device_target summary_dir learning_rate s :
  let device := default "Ascend" device_target in
  let dir := default "./summary_dir" summary_dir in
  let rate := default 0.01%float learning_rate in
  let path := os_path_join data_path "train" in
  exists r s' T,
    main w data_path device_target summary_dir learning_rate s = Some (r, s')
    /\ trace s' = trace s ++ T
    /\ if valid_device device then
         if learning_rate_ok rate then
           if blank dir then
             r = Raise (TypeError "Input path is invaild type")
             /\ T = [EvSetContext GRAPH_MODE device]
             /\ writer s' = writer s
           else
             match mnist_dirs w path with
             | Some n =>
                 let total := (n / 32)%nat in
                 let done := steps_run w 0 total in
                 exists training,
                   T = [EvSetContext GRAPH_MODE device; EvSummaryOpen dir;
                        EvDatasetOpen path; EvPrint start_banner]
                       ++ training
                       ++ (if (done =? total)%nat
                           then [EvSummaryClose dir; EvPrint end_banner] else [])
                   /\ dataset_opens training = []
                   /\ updates training = map (fun j => (the_optimizer rate, j)) (zseq 1 done)
                   /\ flushes training
                      = map (fun j => (dir, j)) (List.filter is_flush_step (zseq 1 done))
                   /\ update_losses training
                      = map batch_loss (firstn done (pipeline_of w path n 32 0%nat))
                   /\ if (done =? total)%nat
                      then r = Ok tt /\ writer_closed dir s'
                      else r = Raise (RuntimeError "device failure") /\ writer_open dir s'
             | None =>
                 r = Raise (ValueError "The folder does not exist or is not a MNIST directory")
                 /\ T = [EvSetContext GRAPH_MODE device; EvSummaryOpen dir; EvDatasetOpen path]
                 /\ writer_open dir s'
             end
         else
           r = Raise (ValueError "learning rate should be in range [0, inf)")
           /\ T = [EvSetContext GRAPH_MODE device]
           /\ writer s' = writer s
       else
         r = Raise (ValueError "device_target must be one of Ascend, GPU, CPU")
         /\ T = [] /\ s' = s.
Proof.
  intros device dir rate path. rewrite !main_unfold. cbv zeta.
  fold device dir rate path. unfold set_context. fold (valid_device device).
  destruct (valid_device device) eqn:V.
  2:{ eexists _, s, []. erewrite bind_raise; [ | reflexivity ].
      rewrite app_nil_r. auto. }
  erewrite bind_ok; [ | reflexivity ].
  rewrite Momentum_init_eval.
  destruct (learning_rate_ok rate) eqn:L.
  2:{ erewrite bind_raise; [ | reflexivity ].
      eexists _, _, _. split; [reflexivity|]. split; [reflexivity|]. auto. }
  erewrite bind_ok; [ | reflexivity ].
  unfold SummaryRecord_init. destruct (blank dir) eqn:Bl.
  { erewrite bind_raise; [ | reflexivity ].
    eexists _, _, _. split; [reflexivity|]. split; [reflexivity|]. auto. }
  erewrite bind_ok; [ | reflexivity ].
  erewrite bind_ok; [ | reflexivity ].
  destruct (mnist_dirs w path) as [n|] eqn:Hn.
  - erewrite bind_ok; [ | rewrite create_dataset_eval, Hn, workers_ok_1; reflexivity ].
    erewrite bind_ok; [ | reflexivity ].
    set (s0 := add_event (EvPrint _) _).
    assert (Hw0 : writer_open dir s0) by (eexists; reflexivity).
    destruct (run_steps_spec w rate dir (pipeline_of w path n 32 0%nat) 0 s0 Hw0
                (pipeline_batches_good w path n 0%nat))
      as (r1 & s1 & T1 & E1 & Ht1 & Hw1 & Hd1 & Hu1 & Hf1 & Hl1 & Hr1).
    rewrite pipeline_batches_count in Hu1, Hf1, Hl1, Hr1.
    unfold Model_train. change (Z.to_nat 1) with 1%nat. cbn [run_epochs iteration].
    fold (the_optimizer rate). fold (the_model rate). fold (the_callback dir).
    destruct (steps_run w 0 (n / 32) =? n / 32)%nat eqn:D; subst r1.
    + erewrite bind_ok; [ | erewrite bind_ok; [ reflexivity | exact E1 ] ].
      destruct Hw1 as [recs Hw1].
      erewrite bind_ok; [ | unfold SummaryRecord_close; rewrite Hw1; reflexivity ].
      eexists _, _, _. split; [reflexivity|]. split.
      { cbn. rewrite Ht1. subst s0. cbn. rewrite <- !app_assoc. reflexivity. }
      exists T1. cbn [app]. split; [reflexivity|]. split; [exact Hd1|].
      split; [exact Hu1|]. split; [exact Hf1|]. split; [exact Hl1|].
      split; [reflexivity|]. eexists. reflexivity.
    + erewrite bind_raise; [ | erewrite bind_raise; [ reflexivity | exact E1 ] ].
      eexists _, _, _. split; [reflexivity|]. split.
      { rewrite Ht1. subst s0. cbn. rewrite <- !app_assoc. reflexivity. }
      exists T1. rewrite app_nil_r. cbn [app]. split; [reflexivity|]. split; [exact Hd1|].
      split; [exact Hu1|]. split; [exact Hf1|]. split; [exact Hl1|].
      split; [reflexivity | exact Hw1].
  - erewrite bind_raise; [ | rewrite create_dataset_eval, Hn; reflexivity ].
    eexists _, _, _. split; [reflexivity|]. split.
    { cbn. rewrite <- !app_assoc. reflexivity. }
    split; [reflexivity|]. split; [reflexivity|]. eexists. reflexivity.
Qed.






Lemma updates_of_run (pre training post : list event) :
  updates pre = [] -> updates post = [] ->
  updates (pre ++ training ++ post) = updates training.
Proof. intros H1 H2. now rewrite !updates_app, H1, H2, app_nil_r. Qed.

Lemma flushes_of_run (pre training post : list event) :
  flushes pre = [] -> flushes post = [] ->
  flushes (pre ++ training ++ post) = flushes training.
Proof. intros H1 H2. now rewrite !flushes_app, H1, H2, app_nil_r. Qed.









(** ** The command line *)

Lemma lookup_option_in p s a : lookup_option p s = Some a -> In a (actions p).
Proof.
  unfold lookup_option. destruct (find _ _) as [[o a']|] eqn:F; [|discriminate].
  intros [= <-]. apply find_some in F as [F _].
  unfold option_string_actions in F. apply in_flat_map in F as (a0 & Ha0 & F).
  apply in_map_iff in F as (o' & [= _ <-] & _). exact Ha0.
Qed.

Lemma get_option_tuples_in p s a o e :
  In (a, o, e) (get_option_tuples p s) -> In a (actions p).
Proof.
  assert (Hosa : forall o a, In (o, a) (option_string_actions p) -> In a (actions p)).
  { intros o' a' F. unfold option_string_actions in F.
    apply in_flat_map in F as (a0 & Ha0 & F).
    apply in_map_iff in F as (o'' & [= _ <-] & _). exact Ha0. }
  unfold get_option_tuples. destruct s as [|c1 [|c2 s]]; try contradiction.
  destruct (Ascii.eqb c2 "-").
  - destruct (split_eq _) as [[op ex]|]; intros H;
      apply in_flat_map in H as ([o' a'] & Hin & H); cbn [fst snd] in H;
      destruct (String.prefix _ _); try contradiction;
      destruct H as [[= <- _ _]|[]]; eapply Hosa, Hin.
  - intros H. apply in_flat_map in H as ([o' a'] & Hin & H); cbn [fst snd] in H.
    destruct (String.eqb _ _).
    + destruct H as [[= <- _ _]|[]]. eapply Hosa, Hin.
    + destruct (String.prefix _ _); try contradiction.
      destruct H as [[= <- _ _]|[]]. eapply Hosa, Hin.
Qed.

Lemma parse_optional_in p s a o e :
  parse_optional p s = Ok (ClsO (Some a) o e) -> In a (actions p).
Proof.
  unfold parse_optional. destruct s as [|c rest]; [discriminate|].
  destruct (negb (Ascii.eqb c "-")); [discriminate|].
  destruct (lookup_option p (String c rest)) as [a0|] eqn:L.
  { intros [= <- _ _]. eapply lookup_option_in, L. }
  destruct (negb (nonempty rest)); [discriminate|].
  destruct (split_eq (String c rest)) as [[op ex]|] eqn:S.
  - destruct (lookup_option p op) as [a0|] eqn:L2.
    { intros [= <- _ _]. eapply lookup_option_in, L2. }
    destruct (get_option_tuples p (String c rest)) as [|[[a1 o1] e1] [|? ?]] eqn:G.
    + destruct (negative_number _); [discriminate|].
      destruct (contains_char _ _); discriminate.
    + intros [= <- _ _]. eapply (get_option_tuples_in p _ a1 o1 e1). rewrite G. now left.
    + discriminate.
  - destruct (get_option_tuples p (String c rest)) as [|[[a1 o1] e1] [|? ?]] eqn:G.
    + destruct (negative_number _); [discriminate|].
      destruct (contains_char _ _); discriminate.
    + intros [= <- _ _]. eapply (get_option_tuples_in p _ a1 o1 e1). rewrite G. now left.
    + discriminate.
Qed.

Lemma declared_cases a :
  declared a ->
  a = device_target_action \/ a = data_path_action
  \/ a = summary_dir_action \/ a = learning_rate_action.
Proof.
  intros [Hin Hh]. cbn in Hin.
  destruct Hin as [<-|[<-|[<-|[<-|[<-|[]]]]]]; try discriminate Hh; auto.
Qed.

Ltac solve_lookup :=
  repeat first
    [ rewrite lookup_insert_eq
    | rewrite lookup_insert_ne by discriminate ].

Lemma namespace_ok_insert_path ns v :
  namespace_ok ns -> (exists p, v = VStr p \/ v = VList []) ->
  namespace_ok (<["data_path" := v]> ns).
Proof.
  intros (H1 & H2 & H3 & H4 & H5 & H6 & H7 & H8) Hv. unfold namespace_ok, namespace in *.
  split_and!; solve_lookup; eauto. intros v' [= <-]. exact Hv.
Qed.

Lemma namespace_ok_insert_dir ns v :
  namespace_ok ns -> (exists p, v = VStr p \/ v = VList []) ->
  namespace_ok (<["summary_dir" := v]> ns).
Proof.
  intros (H1 & H2 & H3 & H4 & H5 & H6 & H7 & H8) Hv. unfold namespace_ok, namespace in *.
  split_and!; solve_lookup; eauto. intros v' [= <-]. exact Hv.
Qed.

Lemma namespace_ok_insert_rate ns v :
  namespace_ok ns -> (exists f, v = VFloat f \/ v = VList []) ->
  namespace_ok (<["learning_rate" := v]> ns).
Proof.
  intros (H1 & H2 & H3 & H4 & H5 & H6 & H7 & H8) Hv. unfold namespace_ok, namespace in *.
  split_and!; solve_lookup; eauto. intros v' [= <-]. exact Hv.
Qed.

Lemma namespace_ok_insert_device ns v :
  namespace_ok ns -> (exists d, v = VStr d /\ In d device_choices) \/ v = VList [] ->
  namespace_ok (<["device_target" := v]> ns).
Proof.
  intros (H1 & H2 & H3 & H4 & H5 & H6 & H7 & H8) Hv. unfold namespace_ok, namespace in *.
  split_and!; solve_lookup; eauto. intros v' [= <-]. exact Hv.
Qed.

Lemma choice_in d :
  existsb (String.eqb d) ["Ascend"; "GPU"; "CPU"] = true -> In d device_choices.
Proof.
  intros H. apply existsb_exists in H. destruct H as [c [Hc E]].
  apply String.eqb_eq in E. now subst c.
Qed.

Lemma store_ok w a word st st' :
  declared a -> store w a word st = Ok st' ->
  namespace_ok (ps_namespace st) ->
  namespace_ok (ps_namespace st') /\ ps_extras st' = ps_extras st.
Proof.
  intros Ha E Hns. unfold store, take_action in E. cbn [remove_first] in E.
  destruct (declared_cases a Ha) as [-> | [-> | [-> | ->]]];
    destruct (String.eqb "--" word);
    cbn [mapR rbind get_value check_value type choices dest
         device_target_action data_path_action summary_dir_action learning_rate_action] in E.
  - injection E as <-. split; [|reflexivity]. cbn [ps_namespace].
    apply namespace_ok_insert_device; [assumption | now right].
  - destruct (existsb (String.eqb word) _) eqn:C; [|discriminate E].
    injection E as <-. split; [|reflexivity]. cbn [ps_namespace].
    apply namespace_ok_insert_device; [assumption|]. left. exists word.
    split; [reflexivity | now apply choice_in].
  - injection E as <-. split; [|reflexivity].
    apply namespace_ok_insert_path; [assumption | exists ""; auto].
  - injection E as <-. split; [|reflexivity].
    apply namespace_ok_insert_path; [assumption | exists word; auto].
  - injection E as <-. split; [|reflexivity].
    apply namespace_ok_insert_dir; [assumption | exists ""; auto].
  - injection E as <-. split; [|reflexivity].
    apply namespace_ok_insert_dir; [assumption | exists word; auto].
  - injection E as <-. split; [|reflexivity].
    apply namespace_ok_insert_rate; [assumption | exists 0%float; auto].
  - destruct (parse_float w word) as [f|]; [|discriminate E].
    injection E as <-. split; [|reflexivity].
    apply namespace_ok_insert_rate; [assumption | exists f; auto].
Qed.

Lemma scan_cons_inv p s rest words :
  scan p (s :: rest) = Ok words ->
  (s = "--" /\ words = (s, ClsDashes) :: map (fun a => (a, ClsA)) rest)
  \/ (s <> "--" /\ exists c cs,
        parse_optional p s = Ok c /\ scan p rest = Ok cs /\ words = (s, c) :: cs).
Proof.
  cbn [scan]. destruct (String.eqb_spec s "--") as [->|Hs].
  - intros [= <-]. now left.
  - destruct (parse_optional p s) as [c|e]; [|discriminate]. cbn [rbind].
    destruct (scan p rest) as [cs|e]; [|discriminate]. cbn [rbind].
    intros [= <-]. right. split; [assumption|]. eauto.
Qed.

Lemma store_extras w a word st st' :
  store w a word st = Ok st' -> ps_extras st' = ps_extras st.
Proof.
  unfold store. destruct (take_action _ _ _ _); [|discriminate]. now intros [= <-].
Qed.

Lemma consume_arguments w p l : forall st,
  consume w p st (map (fun a => (a, ClsA)) l)
  = Ok {| ps_namespace := ps_namespace st; ps_seen := ps_seen st;
          ps_extras := ps_extras st ++ l |}.
Proof.
  induction l as [|a l IH]; intros st; cbn [map consume].
  - rewrite app_nil_r. now destruct st.
  - rewrite IH. cbn. now rewrite <- app_assoc.
Qed.

(** A command line that the parser reads to the end without a left-over
    word consists of declared options with their values. *)
Lemma consume_well_formed w n : forall argv words st st',
  (length argv <= n)%nat ->
  scan the_parser argv = Ok words ->
  namespace_ok (ps_namespace st) ->
  consume w the_parser st words = Ok st' ->
  (length (ps_extras st) <= length (ps_extras st'))%nat
  /\ namespace_ok (ps_namespace st')
  /\ (ps_extras st' = ps_extras st -> well_formed argv).
Proof.
  induction n as [|n IH]; intros argv words st st' Hlen Hscan Hns Hc.
  - destruct argv; [|cbn in Hlen; lia]. injection Hscan as <-. injection Hc as <-.
    split; [lia|]. split; [assumption|]. intros _. constructor.
  - destruct argv as [|s rest].
    { injection Hscan as <-. injection Hc as <-.
      split; [lia|]. split; [assumption|]. intros _. constructor. }
    cbn [length] in Hlen.
    destruct (scan_cons_inv _ _ _ _ Hscan) as [[-> ->]|(Hs & c & cs & Hp & Hrest & ->)].
    { cbn [consume] in Hc. rewrite consume_arguments in Hc. injection Hc as <-.
      cbn. rewrite !length_app. cbn. split; [lia|]. split; [assumption|].
      intros E. apply (f_equal length) in E. rewrite !length_app in E. cbn in E. lia. }
    assert (Hextra : forall st1,
              ps_namespace st1 = ps_namespace st ->
              (length (ps_extras st) < length (ps_extras st1))%nat ->
              consume w the_parser st1 cs = Ok st' ->
              (length (ps_extras st) <= length (ps_extras st'))%nat
              /\ namespace_ok (ps_namespace st')
              /\ (ps_extras st' = ps_extras st -> well_formed (s :: rest))).
    { intros st1 Hns1 Hl1 Hc1.
      destruct (IH rest cs st1 st' ltac:(lia) Hrest ltac:(now rewrite Hns1) Hc1)
        as (Hl & Hok & _).
      split; [lia|]. split; [assumption|]. intros E. rewrite E in Hl. lia. }
    assert (Hadd : (length (ps_extras st) < length (ps_extras (add_extra s st)))%nat)
      by (cbn; rewrite length_app; cbn; lia).
    destruct c as [| |[a|] o [e|]]; cbn [consume] in Hc;
      try (apply (Hextra (add_extra s st)); [reflexivity | exact Hadd | exact Hc]).
    + (* a glued argument *)
      destruct (is_help a) eqn:Hh.
      { destruct (is_long o); [discriminate|].
        destruct (short_chain _ _); discriminate. }
      destruct (store w a e st) as [st1|] eqn:Hst; [|discriminate]. cbn [rbind] in Hc.
      assert (Ha : declared a) by (split; [eapply parse_optional_in, Hp | exact Hh]).
      destruct (store_ok _ _ _ _ _ Ha Hst Hns) as [Hns1 Hex1].
      destruct (IH rest cs st1 st' ltac:(lia) Hrest Hns1 Hc) as (Hl & Hok & Hwf).
      rewrite Hex1 in Hl, Hwf. split; [assumption|]. split; [assumption|].
      intros E. eapply wf_glued; eauto.
    + (* the argument is the next word *)
      destruct (is_help a) eqn:Hh; [discriminate|].
      destruct cs as [|[v [| |]] cs']; try discriminate.
      destruct rest as [|v' rest']; [discriminate|].
      destruct (scan_cons_inv _ _ _ _ Hrest) as [[_ E]|(Hv & c' & cs'' & Hpv & Hrest' & E)];
        [discriminate E|].
      injection E as <- <- <-.
      destruct (store w a v st) as [st1|] eqn:Hst; [|discriminate]. cbn [rbind] in Hc.
      assert (Ha : declared a) by (split; [eapply parse_optional_in, Hp | exact Hh]).
      destruct (store_ok _ _ _ _ _ Ha Hst Hns) as [Hns1 Hex1].
      cbn [length] in Hlen.
      destruct (IH rest' cs' st1 st' ltac:(lia) Hrest' Hns1 Hc) as (Hl & Hok & Hwf).
      rewrite Hex1 in Hl, Hwf. split; [assumption|]. split; [assumption|].
      intros E. eapply wf_pair; eauto.
Qed.

Lemma the_parser_actions :
  actions the_parser
  = [help_action; device_target_action; data_path_action;
     summary_dir_action; learning_rate_action].
Proof. reflexivity. Qed.

Lemma initial_namespace_eq : initial_namespace the_parser = default_namespace.
Proof. vm_compute. reflexivity. Qed.

Lemma default_namespace_ok : namespace_ok default_namespace.
Proof.
  unfold namespace_ok, default_namespace, namespace.
  split_and!; solve_lookup; eauto.
  - intros v [= <-]. left. exists "Ascend". cbn. auto.
  - intros v [= <-]. eauto.
  - intros v [= <-]. eauto.
  - intros v [= <-]. eauto.
Qed.

Lemma convert_defaults_ok w seen ns :
  namespace_ok ns ->
  exists ns', convert_defaults w seen (actions the_parser) ns = Ok ns' /\ namespace_ok ns'.
Proof.
  intros Hns. rewrite the_parser_actions.
  cbn [convert_defaults default_value dest type get_value rbind
       help_action device_target_action data_path_action summary_dir_action
       learning_rate_action].
  destruct (existsb (String.eqb "device_target") seen);
    destruct (existsb (String.eqb "data_path") seen);
    destruct (existsb (String.eqb "summary_dir") seen);
    eexists; (split; [reflexivity|]);
    repeat first
      [ assumption
      | apply namespace_ok_insert_dir; [|exists "./summary_dir"; auto]
      | apply namespace_ok_insert_path; [|exists "./MNIST_Data"; auto]
      | apply namespace_ok_insert_device; [|left; exists "Ascend"; cbn; auto] ].
Qed.

(** A command line that [parse_args] accepts. *)
Lemma parse_args_ok w argv ns :
  parse_args w the_parser argv = Ok ns -> well_formed argv /\ namespace_ok ns.
Proof.
  unfold parse_args. destruct (scan the_parser argv) as [words|] eqn:Hscan; [|discriminate].
  cbn [rbind]. rewrite initial_namespace_eq.
  destruct (consume _ _ _ words) as [st|] eqn:Hc; [|discriminate]. cbn [rbind].
  destruct (consume_well_formed w (length argv) argv words
              {| ps_namespace := default_namespace; ps_seen := []; ps_extras := [] |}
              st (Nat.le_refl _) Hscan default_namespace_ok Hc) as (_ & Hns & Hwf).
  destruct (convert_defaults_ok w (ps_seen st) _ Hns) as (ns' & E & Hns').
  rewrite E. cbn [rbind]. destruct (ps_extras st) eqn:Hex; [|discriminate].
  intros [= <-]. split; [|assumption]. apply Hwf. reflexivity.
Qed.

Lemma main_forwarded w argv ns s vp vd vs vl :
  parse_args w the_parser argv = Ok ns ->
  ns !! "data_path" = Some vp -> ns !! "device_target" = Some vd ->
  ns !! "summary_dir" = Some vs -> ns !! "learning_rate" = Some vl ->
  __main__ w argv s = call_main w vp vd vs vl s.
Proof.
  intros H Hp Hd Hs Hl. unfold __main__, bind, lift, getattr.
  rewrite H, Hp, Hd, Hs, Hl. reflexivity.
Qed.

Lemma main_not_called w argv e s :
  parse_args w the_parser argv = Raise e -> __main__ w argv s = Some (Raise e, s).
Proof. intros H. unfold __main__, bind, lift. now rewrite H. Qed.

Lemma argument_not_dashes v : reads_as_argument v -> String.eqb v "--" = false.
Proof.
  intros H. destruct (String.eqb_spec v "--") as [->|]; [|reflexivity].
  discriminate H.
Qed.

Lemma argument_not_dashes' v : reads_as_argument v -> String.eqb "--" v = false.
Proof. intros H. rewrite String.eqb_sym. now apply argument_not_dashes. Qed.

(** One declared option with its value: the value is stored under the
    option's destination, the other destinations keep their defaults. *)
Lemma parse_one_option w flag a v :
  parse_optional the_parser flag = Ok (ClsO (Some a) flag None) ->
  String.eqb flag "--" = false -> is_help a = false ->
  reads_as_argument v ->
  parse_args w the_parser [flag; v]
  = rbind (take_action w a [v] default_namespace) (fun ns =>
      convert_defaults w [dest a] (actions the_parser) ns).
Proof.
  intros Hf Hd Hh Hv. unfold parse_args. cbn [scan].
  rewrite Hd, Hf, (argument_not_dashes v Hv), Hv. cbn [rbind consume]. rewrite Hh.
  rewrite initial_namespace_eq. unfold store. cbn [ps_namespace].
  destruct (take_action w a [v] default_namespace) as [ns|e]; [|reflexivity].
  cbn [rbind ps_seen ps_extras ps_namespace].
  destruct (convert_defaults _ _ _ _); reflexivity.
Qed.

Ltac run_one_option flag a Hv :=
  rewrite (parse_one_option _ flag a _ eq_refl eq_refl eq_refl Hv);
  unfold take_action; cbn [remove_first];
  rewrite (argument_not_dashes' _ Hv);
  cbn [get_value check_value type choices dest rbind
       device_target_action data_path_action summary_dir_action learning_rate_action].

Ltac finish_defaults :=
  rewrite the_parser_actions;
  cbn [convert_defaults default_value dest type get_value rbind existsb String.eqb
       Ascii.eqb Bool.eqb orb andb
       help_action device_target_action data_path_action summary_dir_action
       learning_rate_action];
  eexists; split; [reflexivity|];
  unfold default_namespace, namespace; split_and!; solve_lookup; reflexivity.

Lemma parse_data_path w v :
  reads_as_argument v ->
  exists ns, parse_args w the_parser ["--data_path"; v] = Ok ns
    /\ stores ns (VStr v) (VStr "Ascend") (VStr "./summary_dir") (VFloat 0.01).
Proof. intros Hv. run_one_option "--data_path" data_path_action Hv. unfold stores. finish_defaults. Qed.

Lemma parse_summary_dir w v :
  reads_as_argument v ->
  exists ns, parse_args w the_parser ["--summary_dir"; v] = Ok ns
    /\ stores ns (VStr "./MNIST_Data") (VStr "Ascend") (VStr v) (VFloat 0.01).
Proof. intros Hv. run_one_option "--summary_dir" summary_dir_action Hv. unfold stores. finish_defaults. Qed.

Lemma parse_device_target w v :
  reads_as_argument v ->
  if existsb (String.eqb v) ["Ascend"; "GPU"; "CPU"] then
    exists ns, parse_args w the_parser ["--device_target"; v] = Ok ns
      /\ stores ns (VStr "./MNIST_Data") (VStr v) (VStr "./summary_dir") (VFloat 0.01)
  else parse_args w the_parser ["--device_target"; v] = Raise (SystemExit 2).
Proof.
  intros Hv. run_one_option "--device_target" device_target_action Hv.
  destruct (existsb (String.eqb v) _); [|reflexivity]. cbn [rbind]. unfold stores.
  finish_defaults.
Qed.

Lemma parse_learning_rate w v :
  reads_as_argument v ->
  match parse_float w v with
  | Some f =>
      exists ns, parse_args w the_parser ["--learning_rate"; v] = Ok ns
        /\ stores ns (VStr "./MNIST_Data") (VStr "Ascend") (VStr "./summary_dir") (VFloat f)
  | None => parse_args w the_parser ["--learning_rate"; v] = Raise (SystemExit 2)
  end.
Proof.
  intros Hv. run_one_option "--learning_rate" learning_rate_action Hv.
  destruct (parse_float w v); [|reflexivity]. cbn [rbind]. unfold stores.
  finish_defaults.
Qed.

Lemma plain_word_is_argument c rest :
  c <> "-"%char -> reads_as_argument (String c rest).
Proof.
  intros Hc. unfold reads_as_argument, parse_optional.
  destruct (Ascii.eqb_spec c "-"); [contradiction | reflexivity].
Qed.

Lemma parse_no_arguments w :
  exists ns, parse_args w the_parser [] = Ok ns
    /\ stores ns (VStr "./MNIST_Data") (VStr "Ascend") (VStr "./summary_dir") (VFloat 0.01).
Proof.
  unfold parse_args. cbn [scan rbind consume ps_seen ps_extras ps_namespace].
  rewrite initial_namespace_eq. unfold stores. finish_defaults.
Qed.

(** *** Command lines without the glued value [--] *)

Lemma namespace_typed_insert_path ns p :
  namespace_typed ns -> namespace_typed (<["data_path" := VStr p]> ns).
Proof.
  intros (p0 & d & sd & lr & (H1 & H2 & H3 & H4) & Hd). exists p, d, sd, lr.
  unfold stores, namespace in *. split; [|exact Hd]. split_and!; solve_lookup; auto.
Qed.

Lemma namespace_typed_insert_dir ns sd :
  namespace_typed ns -> namespace_typed (<["summary_dir" := VStr sd]> ns).
Proof.
  intros (p & d & sd0 & lr & (H1 & H2 & H3 & H4) & Hd). exists p, d, sd, lr.
  unfold stores, namespace in *. split; [|exact Hd]. split_and!; solve_lookup; auto.
Qed.

Lemma namespace_typed_insert_rate ns lr :
  namespace_typed ns -> namespace_typed (<["learning_rate" := VFloat lr]> ns).
Proof.
  intros (p & d & sd & lr0 & (H1 & H2 & H3 & H4) & Hd). exists p, d, sd, lr.
  unfold stores, namespace in *. split; [|exact Hd]. split_and!; solve_lookup; auto.
Qed.

Lemma namespace_typed_insert_device ns d :
  In d device_choices ->
  namespace_typed ns -> namespace_typed (<["device_target" := VStr d]> ns).
Proof.
  intros Hd (p & d0 & sd & lr & (H1 & H2 & H3 & H4) & _). exists p, d, sd, lr.
  unfold stores, namespace in *. split; [|exact Hd]. split_and!; solve_lookup; auto.
Qed.

Lemma default_namespace_typed : namespace_typed default_namespace.
Proof.
  exists "./MNIST_Data", "Ascend", "./summary_dir", 0.01%float.
  unfold stores, default_namespace, namespace.
  split; [split_and!; solve_lookup; reflexivity | cbn; auto].
Qed.

Lemma store_typed w a word st st' :
  declared a -> String.eqb "--" word = false -> store w a word st = Ok st' ->
  namespace_typed (ps_namespace st) -> namespace_typed (ps_namespace st').
Proof.
  intros Ha Hw E Hns. unfold store, take_action in E. cbn [remove_first] in E.
  rewrite Hw in E.
  destruct (declared_cases a Ha) as [-> | [-> | [-> | ->]]];
    cbn [mapR rbind get_value check_value type choices dest
         device_target_action data_path_action summary_dir_action learning_rate_action] in E.
  - destruct (existsb (String.eqb word) _) eqn:C; [|discriminate E].
    injection E as <-. cbn [ps_namespace].
    apply namespace_typed_insert_device; [now apply choice_in | assumption].
  - injection E as <-. now apply namespace_typed_insert_path.
  - injection E as <-. now apply namespace_typed_insert_dir.
  - destruct (parse_float w word) as [f|]; [|discriminate E].
    injection E as <-. now apply namespace_typed_insert_rate.
Qed.

Lemma convert_defaults_typed w seen ns ns' :
  convert_defaults w seen (actions the_parser) ns = Ok ns' ->
  namespace_typed ns -> namespace_typed ns'.
Proof.
  rewrite the_parser_actions.
  cbn [convert_defaults default_value dest type get_value rbind
       help_action device_target_action data_path_action summary_dir_action
       learning_rate_action].
  destruct (existsb (String.eqb "device_target") seen);
    destruct (existsb (String.eqb "data_path") seen);
    destruct (existsb (String.eqb "summary_dir") seen);
    intros [= <-] Hns;
    repeat first
      [ assumption
      | apply namespace_typed_insert_dir
      | apply namespace_typed_insert_path
      | apply namespace_typed_insert_device; [cbn; auto|] ].
Qed.

Lemma consume_typed w n : forall argv words st st',
  (length argv <= n)%nat ->
  scan the_parser argv = Ok words ->
  Forall (fun s => glued_dashes s = false) argv ->
  namespace_typed (ps_namespace st) ->
  consume w the_parser st words = Ok st' ->
  namespace_typed (ps_namespace st').
Proof.
  induction n as [|n IH]; intros argv words st st' Hlen Hscan Hg Hns Hc.
  - destruct argv; [|cbn in Hlen; lia]. injection Hscan as <-. injection Hc as <-.
    assumption.
  - destruct argv as [|s rest].
    { injection Hscan as <-. injection Hc as <-. assumption. }
    cbn [length] in Hlen. inversion Hg as [|? ? Hgs Hgrest]; subst.
    destruct (scan_cons_inv _ _ _ _ Hscan) as [[-> ->]|(Hs & c & cs & Hp & Hrest & ->)].
    { cbn [consume] in Hc. rewrite consume_arguments in Hc. injection Hc as <-.
      assumption. }
    assert (Hextra : forall st1,
              ps_namespace st1 = ps_namespace st ->
              consume w the_parser st1 cs = Ok st' ->
              namespace_typed (ps_namespace st')).
    { intros st1 Hns1 Hc1.
      apply (IH rest cs st1 st'); [lia | assumption | assumption | | assumption].
      now rewrite Hns1. }
    destruct c as [| |[a|] o [e|]]; cbn [consume] in Hc;
      try (apply (Hextra (add_extra s st)); [reflexivity | exact Hc]).
    + (* a glued argument *)
      destruct (is_help a) eqn:Hh.
      { destruct (is_long o); [discriminate|].
        destruct (short_chain _ _); discriminate. }
      destruct (store w a e st) as [st1|] eqn:Hst; [|discriminate]. cbn [rbind] in Hc.
      assert (Ha : declared a) by (split; [eapply parse_optional_in, Hp | exact Hh]).
      assert (He : String.eqb "--" e = false).
      { unfold glued_dashes in Hgs. rewrite Hp in Hgs. now rewrite String.eqb_sym. }
      apply (IH rest cs st1 st'); [lia | assumption | assumption | | assumption].
      exact (store_typed _ _ _ _ _ Ha He Hst Hns).
    + (* the argument is the next word *)
      destruct (is_help a) eqn:Hh; [discriminate|].
      destruct cs as [|[v [| |]] cs']; try discriminate.
      destruct rest as [|v' rest']; [discriminate|].
      destruct (scan_cons_inv _ _ _ _ Hrest) as [[_ E]|(Hv & c' & cs'' & Hpv & Hrest' & E)];
        [discriminate E|].
      injection E as <- <- <-.
      destruct (store w a v st) as [st1|] eqn:Hst; [|discriminate]. cbn [rbind] in Hc.
      assert (Ha : declared a) by (split; [eapply parse_optional_in, Hp | exact Hh]).
      assert (He : String.eqb "--" v = false) by (now apply argument_not_dashes').
      cbn [length] in Hlen. inversion Hgrest as [|? ? _ Hgrest']; subst.
      apply (IH rest' cs' st1 st'); [lia | assumption | assumption | | assumption].
      exact (store_typed _ _ _ _ _ Ha He Hst Hns).
Qed.

(** A command line that [parse_args] accepts and that gives no option the
    glued value [--]. *)
Lemma parse_args_typed w argv ns :
  parse_args w the_parser argv = Ok ns ->
  Forall (fun s => glued_dashes s = false) argv ->
  namespace_typed ns.
Proof.
  unfold parse_args. destruct (scan the_parser argv) as [words|] eqn:Hscan; [|discriminate].
  cbn [rbind]. rewrite initial_namespace_eq.
  destruct (consume _ _ _ words) as [st|] eqn:Hc; [|discriminate]. cbn [rbind].
  destruct (convert_defaults _ _ _ _) as [ns'|] eqn:E; [|discriminate]. cbn [rbind].
  destruct (ps_extras st); [|discriminate]. intros [= <-] Hg.
  apply (convert_defaults_typed _ _ _ _ E).
  exact (consume_typed w (length argv) argv words
           {| ps_namespace := default_namespace; ps_seen := []; ps_extras := [] |}
           st (Nat.le_refl _) Hscan Hg default_namespace_typed Hc).
Qed.

Lemma parse_glued_option w word flag a v :
  parse_optional the_parser word = Ok (ClsO (Some a) flag (Some v)) ->
  String.eqb word "--" = false -> is_help a = false ->
  parse_args w the_parser [word]
  = rbind (take_action w a [v] default_namespace) (fun ns =>
      convert_defaults w [dest a] (actions the_parser) ns).
Proof.
  intros Hf Hd Hh. unfold parse_args. cbn [scan].
  rewrite Hd, Hf. cbn [rbind consume]. rewrite Hh.
  rewrite initial_namespace_eq. unfold store. cbn [ps_namespace].
  destruct (take_action w a [v] default_namespace) as [ns|e]; [|reflexivity].
  cbn [rbind ps_seen ps_extras ps_namespace].
  destruct (convert_defaults _ _ _ _); reflexivity.
Qed.

(** An option with the glued value [--]: the empty list is stored. *)
Lemma parse_glued_dashes w word flag a :
  parse_optional the_parser word = Ok (ClsO (Some a) flag (Some "--")) ->
  String.eqb word "--" = false -> declared a ->
  exists ns,
    parse_args w the_parser [word] = Ok ns /\ ns !! dest a = Some (VList []).
Proof.
  intros Hf Hd Ha.
  rewrite (parse_glued_option w word flag a "--" Hf Hd (proj2 Ha)).
  unfold take_action. cbn [remove_first String.eqb Ascii.eqb Bool.eqb andb mapR rbind].
  rewrite the_parser_actions.
  destruct (declared_cases a Ha) as [-> | [-> | [-> | ->]]];
    cbn [convert_defaults default_value dest type get_value rbind existsb String.eqb
         Ascii.eqb Bool.eqb orb andb
         help_action device_target_action data_path_action summary_dir_action
         learning_rate_action];
    (eexists; split; [reflexivity|]);
    unfold default_namespace, namespace; solve_lookup; reflexivity.
Qed.

Ltac run_glued_dashes word flag a :=
  rewrite (parse_glued_option _ word flag a "--" eq_refl eq_refl eq_refl);
  unfold take_action;
  cbn [remove_first String.eqb Ascii.eqb Bool.eqb andb mapR rbind];
  unfold stores; finish_defaults.

Lemma dashes_for_data_path w :
  exists ns, parse_args w the_parser ["--data_path=--"] = Ok ns
    /\ stores ns (VList []) (VStr "Ascend") (VStr "./summary_dir") (VFloat 0.01).
Proof. run_glued_dashes "--data_path=--" "--data_path" data_path_action. Qed.

Lemma dashes_for_device_target w :
  exists ns, parse_args w the_parser ["--device_target=--"] = Ok ns
    /\ stores ns (VStr "./MNIST_Data") (VList []) (VStr "./summary_dir") (VFloat 0.01).
Proof. run_glued_dashes "--device_target=--" "--device_target" device_target_action. Qed.

Lemma dashes_for_summary_dir w :
  exists ns, parse_args w the_parser ["--summary_dir=--"] = Ok ns
    /\ stores ns (VStr "./MNIST_Data") (VStr "Ascend") (VList []) (VFloat 0.01).
Proof. run_glued_dashes "--summary_dir=--" "--summary_dir" summary_dir_action. Qed.

Lemma dashes_for_learning_rate w :
  exists ns, parse_args w the_parser ["--learning_rate=--"] = Ok ns
    /\ stores ns (VStr "./MNIST_Data") (VStr "Ascend") (VStr "./summary_dir") (VList []).
Proof. run_glued_dashes "--learning_rate=--" "--learning_rate" learning_rate_action. Qed.

Lemma dashes_forwarded w word ns vp vd vs vl :
  parse_args w the_parser [word] = Ok ns /\ stores ns vp vd vs vl ->
  parse_args w the_parser [word] = Ok ns /\ stores ns vp vd vs vl
  /\ forall s, __main__ w [word] s = call_main w vp vd vs vl s.
Proof.
  intros [E Hst]. split; [exact E|]. split; [exact Hst|].
  destruct Hst as (H1 & H2 & H3 & H4). intros s.
  exact (main_forwarded w [word] ns s _ _ _ _ E H1 H2 H3 H4).
Qed.

(** C9 (amended).  The parser of the script knows the four declared flags
    and, besides them, the automatic [-h]/[--help] of argparse, which exits
    with status 0 before [main] is called.  The declared flags are
    [--device_target] (a string among Ascend, GPU, CPU, default Ascend),
    [--data_path] (a string, default ./MNIST_Data), [--summary_dir] (a
    string, default ./summary_dir) and [--learning_rate] (a float, default
    0.01).  Every command line that is accepted consists of declared flags
    with their values only.  Unless a flag is given the value [--] glued to
    it ([--flag=--]), the namespace holds two strings, a device among the
    three and a float, and the block under [__main__] is the call of [main]
    on exactly these.  With [--flag=--], which argparse accepts for each of
    the four flags, the empty list is stored in place of the value and is
    handed to [main] as it is: for [--data_path=--] the run ends with the
    [TypeError] of [os.path.join], the summary writer left open; for the
    other three flags the list goes to a call into MindSpore, and what comes
    of it is the world's.  A command line of ASCII words that is not accepted
    never reaches [main]. *)
Theorem command_line_contract w :
  actions the_parser
  = [help_action; device_target_action; data_path_action;
     summary_dir_action; learning_rate_action]
  /\ (forall s,
        __main__ w [] s
        = main w "./MNIST_Data" (Some "Ascend") (Some "./summary_dir") (Some 0.01%float) s)
  /\ (forall argv ns,
        parse_args w the_parser argv = Ok ns ->
        well_formed argv
        /\ exists vp vd vs vl,
             stores ns vp vd vs vl
             /\ ((exists p, vp = VStr p) \/ vp = VList [])
             /\ ((exists d, vd = VStr d /\ In d ["Ascend"; "GPU"; "CPU"]) \/ vd = VList [])
             /\ ((exists sd, vs = VStr sd) \/ vs = VList [])
             /\ ((exists lr, vl = VFloat lr) \/ vl = VList [])
             /\ forall s, __main__ w argv s = call_main w vp vd vs vl s)
  /\ (forall argv ns,
        parse_args w the_parser argv = Ok ns ->
        Forall (fun x => glued_dashes x = false) argv ->
        exists p d sd lr,
          stores ns (VStr p) (VStr d) (VStr sd) (VFloat lr)
          /\ In d ["Ascend"; "GPU"; "CPU"]
          /\ forall s, __main__ w argv s = main w p (Some d) (Some sd) (Some lr) s)
  /\ (forall p d sd lr s,
        call_main w (VStr p) (VStr d) (VStr sd) (VFloat lr) s
        = main w p (Some d) (Some sd) (Some lr) s)
  /\ (forall word flag a,
        parse_optional the_parser word = Ok (ClsO (Some a) flag (Some "--")) ->
        declared a ->
        glued_dashes word = true
        /\ exists ns,
             parse_args w the_parser [word] = Ok ns /\ ns !! dest a = Some (VList []))
  /\ (exists ns,
        parse_args w the_parser ["--data_path=--"] = Ok ns
        /\ stores ns (VList []) (VStr "Ascend") (VStr "./summary_dir") (VFloat 0.01)
        /\ forall s, exists s',
             __main__ w ["--data_path=--"] s
             = Some (Raise (TypeError "expected str, bytes or os.PathLike object, not list"),
                     s')
             /\ trace s' = trace s ++ [EvSetContext GRAPH_MODE "Ascend";
                                       EvSummaryOpen "./summary_dir"]
             /\ writer_open "./summary_dir" s')
  /\ (exists ns,
        parse_args w the_parser ["--device_target=--"] = Ok ns
        /\ stores ns (VStr "./MNIST_Data") (VList []) (VStr "./summary_dir") (VFloat 0.01)
        /\ forall s, __main__ w ["--device_target=--"] s
                     = untyped_main w (VStr "./MNIST_Data") (VList []) (VStr "./summary_dir")
                         (VFloat 0.01) s)
  /\ (exists ns,
        parse_args w the_parser ["--summary_dir=--"] = Ok ns
        /\ stores ns (VStr "./MNIST_Data") (VStr "Ascend") (VList []) (VFloat 0.01)
        /\ forall s, __main__ w ["--summary_dir=--"] s
                     = untyped_main w (VStr "./MNIST_Data") (VStr "Ascend") (VList [])
                         (VFloat 0.01) s)
  /\ (exists ns,
        parse_args w the_parser ["--learning_rate=--"] = Ok ns
        /\ stores ns (VStr "./MNIST_Data") (VStr "Ascend") (VStr "./summary_dir") (VList [])
        /\ forall s, __main__ w ["--learning_rate=--"] s
                     = untyped_main w (VStr "./MNIST_Data") (VStr "Ascend")
                         (VStr "./summary_dir") (VList []) s)
  /\ (forall argv e s,
        Forall (fun x => ascii_word x = true) argv ->
        parse_args w the_parser argv = Raise e -> __main__ w argv s = Some (Raise e, s))
  /\ (forall v,
        reads_as_argument v ->
        (exists ns, parse_args w the_parser ["--data_path"; v] = Ok ns
           /\ stores ns (VStr v) (VStr "Ascend") (VStr "./summary_dir") (VFloat 0.01))
        /\ (exists ns, parse_args w the_parser ["--summary_dir"; v] = Ok ns
           /\ stores ns (VStr "./MNIST_Data") (VStr "Ascend") (VStr v) (VFloat 0.01))
        /\ (if existsb (String.eqb v) ["Ascend"; "GPU"; "CPU"] then
              exists ns, parse_args w the_parser ["--device_target"; v] = Ok ns
                /\ stores ns (VStr "./MNIST_Data") (VStr v) (VStr "./summary_dir")
                     (VFloat 0.01)
            else parse_args w the_parser ["--device_target"; v] = Raise (SystemExit 2))
        /\ match parse_float w v with
           | Some f =>
               exists ns, parse_args w the_parser ["--learning_rate"; v] = Ok ns
                 /\ stores ns (VStr "./MNIST_Data") (VStr "Ascend") (VStr "./summary_dir")
                      (VFloat f)
           | None => parse_args w the_parser ["--learning_rate"; v] = Raise (SystemExit 2)
           end)
  /\ (forall c rest, c <> "-"%char -> reads_as_argument (String c rest))
  /\ parse_args w the_parser ["--help"] = Raise (SystemExit 0)
  /\ parse_args w the_parser ["-h"] = Raise (SystemExit 0).
Proof.
  split; [reflexivity|]. split.
  { intros s. destruct (parse_no_arguments w) as (ns & E & Hp & Hd & Hs & Hl).
    now rewrite (main_forwarded w [] ns s _ _ _ _ E Hp Hd Hs Hl). }
  split.
  { intros argv ns E. destruct (parse_args_ok w argv ns E) as [Hwf Hns].
    split; [exact Hwf|].
    destruct Hns as ([vp Hp] & [vd Hd] & [vs Hs] & [vl Hl] & Hdev & Hrate & Hpath & Hdir).
    exists vp, vd, vs, vl. split; [repeat split; assumption|].
    split. { destruct (Hpath vp Hp) as [p [->| ->]]; eauto. }
    split. { exact (Hdev vd Hd). }
    split. { destruct (Hdir vs Hs) as [p [->| ->]]; eauto. }
    split. { destruct (Hrate vl Hl) as [f [->| ->]]; eauto. }
    intros s. now apply (main_forwarded w argv ns). }
  split.
  { intros argv ns E Hg.
    destruct (parse_args_typed w argv ns E Hg) as (p & d & sd & lr & Hst & Hd).
    exists p, d, sd, lr. split; [exact Hst|]. split; [exact Hd|].
    intros s. destruct Hst as (H1 & H2 & H3 & H4).
    now rewrite (main_forwarded w argv ns s _ _ _ _ E H1 H2 H3 H4). }
  split; [reflexivity|].
  split.
  { intros word flag a Hp Ha.
    assert (Hd : String.eqb word "--" = false).
    { destruct (String.eqb_spec word "--") as [->|_]; [discriminate Hp | reflexivity]. }
    split; [unfold glued_dashes; now rewrite Hp|].
    exact (parse_glued_dashes w word flag a Hp Hd Ha). }
  split.
  { destruct (dashes_for_data_path w) as [ns H]. exists ns.
    destruct (dashes_forwarded w _ ns _ _ _ _ H) as (E & Hst & Hm).
    split; [exact E|]. split; [exact Hst|]. intros s. rewrite Hm.
    exact (main_body_list_run w [] (Some "Ascend") (Some "./summary_dir") (Some 0.01%float) s
             eq_refl eq_refl eq_refl). }
  split.
  { destruct (dashes_for_device_target w) as [ns H]. exists ns.
    exact (dashes_forwarded w _ ns _ _ _ _ H). }
  split.
  { destruct (dashes_for_summary_dir w) as [ns H]. exists ns.
    exact (dashes_forwarded w _ ns _ _ _ _ H). }
  split.
  { destruct (dashes_for_learning_rate w) as [ns H]. exists ns.
    exact (dashes_forwarded w _ ns _ _ _ _ H). }
  split; [intros argv e s _; apply main_not_called|].
  split.
  { intros v Hv. split; [now apply parse_data_path|].
    split; [now apply parse_summary_dir|].
    split; [now apply parse_device_target | now apply parse_learning_rate]. }
  split; [apply plain_word_is_argument|].
  split; reflexivity.
Qed.

(** C9, counterexample.  [--help] is a fifth flag: it is registered in the
    parser and the command line [--help] ends with status 0, while a flag
    that is not registered ends with the status 2 of a usage error. *)
Lemma help_is_a_fifth_flag :
  In "--help" (flat_map option_strings (actions the_parser))
  /\ length (flat_map option_strings (actions the_parser)) = 6%nat
  /\ parse_args (ex_world 0 no_fault) the_parser ["--help"] = Raise (SystemExit 0)
  /\ parse_args (ex_world 0 no_fault) the_parser ["--verbose"] = Raise (SystemExit 2).
Proof. split; [cbn; auto|]. repeat split. Qed.

(** * Further properties of the code *)

(** ** The forward pass on inputs of any size *)

Lemma rbind_ok_inv {A B} (r : result A) (k : A -> result B) b :
  rbind r k = Ok b -> exists a, r = Ok a /\ k a = Ok b.
Proof. destruct r as [a|e]; [eauto | discriminate]. Qed.

Lemma bind_call_cases {B} y (k : tensor -> M B) s (P : result B -> Prop) :
  (forall t, infer y = Ok t ->
     exists r s', k y (add_event (EvApply y) s) = Some (r, s') /\ P r) ->
  (forall e, infer y = Raise e -> P (Raise e)) ->
  exists r s', bind (call y) k s = Some (r, s') /\ P r.
Proof.
  intros Hok Hraise. destruct (infer y) as [t|e] eqn:E.
  - rewrite (bind_ok _ _ _ _ _ (call_ok _ _ _ E)). eauto.
  - rewrite (bind_raise _ _ _ _ _ (call_raise _ _ _ E)). eauto.
Qed.

(** The layers return exactly when the expression they build is well
    typed. *)
Lemma layers_result x s :
  exists r s',
    layers LeNet5.init x s = Some (r, s')
    /\ match infer (classifier (flat x)) with
       | Ok _ => r = Ok (classifier (flat x))
       | Raise _ => exists e, r = Raise e
       end.
Proof.
  unfold layers.
  cbn [LeNet5.relu LeNet5.max_pool2d LeNet5.reshape LeNet5.init LeNet5.batch_size
       LeNet5.conv1 LeNet5.conv2 LeNet5.fc1 LeNet5.fc2 LeNet5.fc3].
  destruct (infer (classifier (flat x))) as [t|e0] eqn:E.
  - unfold classifier, flat, features, pool2 in E. cbn [infer] in E.
    repeat match type of E with
           | rbind _ _ = Ok _ =>
               let a := fresh "t" in let H := fresh "H" in
               apply rbind_ok_inv in E as (a & E & H)
           end.
    cbn [LeNet5.init LeNet5.conv1 LeNet5.conv2 LeNet5.fc1 LeNet5.fc2 LeNet5.fc3] in *.
    do 12 (apply bind_call_cases;
           [ intros ? _
           | intros e He; exfalso; cbn [infer] in He;
             repeat match goal with
                    | H : ?l = Ok _ |- _ =>
                        match type of He with context [l] => rewrite H in He; cbn [rbind] in He end
                    end; discriminate He ]).
    eexists _, _. split; reflexivity.
  - unfold classifier, flat, features, pool2 in E.
    cbn [LeNet5.init LeNet5.conv1 LeNet5.conv2 LeNet5.fc1 LeNet5.fc2 LeNet5.fc3] in E.
    do 11 (apply bind_call_cases; [ intros ? ? | eauto ]).
    apply bind_call_cases; [ intros ? ? | eauto ].
    congruence.
Qed.

Lemma infer_features_general x B h w :
  infer x = Ok ([B; 1; h; w], Float32) ->
  match infer (features x) with
  | Ok t => 16 <= h /\ 16 <= w /\ t = ([B; 16; pooled h; pooled w], Float32)
  | Raise _ => ~ (16 <= h /\ 16 <= w)
  end.
Proof.
  intros H. unfold features, pool2. cbn [infer]. rewrite H.
  repeat first
    [ progress (cbn -[Z.div Z.sub Z.add Z.ltb Z.mul])
    | progress (unfold pool_extent, conv_extent, maxpool2d_rule, conv2d_rule)
    | match goal with
      | |- context [if ?c then _ else _] => destruct c eqn:?
      end ];
    unfold pooled; rewrite ?Z.div_1_r in *;
    repeat match goal with
           | H : (_ <? _) = true |- _ => apply Z.ltb_lt in H
           | H : (_ <? _) = false |- _ => apply Z.ltb_ge in H
           end;
    try (intros [? ?]); repeat split;
    try (apply (f_equal2 pair); [|reflexivity];
         repeat (apply (f_equal2 cons); [try reflexivity|]));
    first [reflexivity | Z.div_mod_to_equations; lia].
Qed.

Lemma reshape_flat sh dt :
  reshape_rule [32; -1] (sh, dt) =
  if prod_dims sh mod 32 =? 0 then Ok ([32; prod_dims sh / 32], dt)
  else Raise (ValueError "Reshape: element count not divisible").
Proof. reflexivity. Qed.

Lemma infer_logits_general x B h w :
  infer x = Ok ([B; 1; h; w], Float32) ->
  match infer (classifier (flat x)) with
  | Ok t =>
      t = ([32; 10], Float32)
      /\ 16 <= h /\ 16 <= w /\ B * pooled h * pooled w = 800
  | Raise _ => ~ (16 <= h /\ 16 <= w /\ B * pooled h * pooled w = 800)
  end.
Proof.
  intros H. pose proof (infer_features_general x B h w H) as F.
  unfold classifier, flat. cbn [infer]. revert F.
  destruct (infer (features x)) as [t|e]; cbn [rbind]; intros F.
  2:{ intros (? & ? & _). apply F. auto. }
  destruct F as (Hh & Hw & ->).
  rewrite reshape_flat. cbn [prod_dims fold_right foldr].
  replace (B * (16 * (pooled h * (pooled w * 1)))) with (16 * (B * pooled h * pooled w))
    by ring.
  set (m := B * pooled h * pooled w).
  destruct (Z.eqb_spec ((16 * m) mod 32) 0) as [E1|E1]; cbn [rbind].
  2:{ intros (_ & _ & Hm). apply E1. rewrite Hm. reflexivity. }
  cbn [dense_rule LeNet5.fc1 LeNet5.init fc_with_initialize dense_in dense_out require_float].
  change (16 * 5 * 5) with 400.
  destruct (Z.eqb_spec ((16 * m) / 32) 400) as [E2|E2]; cbn [rbind].
  2:{ intros (_ & _ & Hm). apply E2. rewrite Hm. reflexivity. }
  cbn. split; [reflexivity|]. split; [assumption|]. split; [assumption|].
  Z.div_mod_to_equations. lia.
Qed.

(** X1.  Which inputs the forward pass takes.  For a float32 input of shape
    (B, 1, h, w), [LeNet5.construct] returns exactly when both spatial extents
    are at least 16 (so that the two valid 5x5 convolutions and the two 2x2
    poolings leave something) and B * pooled h * pooled w = 800, the number
    that makes the reshape to ([batch_size], -1) with [batch_size] = 32 give
    rows of the 400 values [fc1] takes; it raises for every other input of
    this form.  Whenever it returns, the output has shape (32, 10), whatever
    B was: 50 images of 28x28 pixels are taken and come out as 32 rows. *)
Theorem forward_accepts_exactly x B h w s :
  infer x = Ok ([B; 1; h; w], Float32) ->
  exists r s',
    LeNet5.construct LeNet5.init x s = Some (r, s')
    /\ (16 <= h /\ 16 <= w /\ B * pooled h * pooled w = 800 ->
        r = Ok (classifier (flat x))
        /\ infer (classifier (flat x)) = Ok ([32; 10], Float32))
    /\ (~ (16 <= h /\ 16 <= w /\ B * pooled h * pooled w = 800) ->
        exists e, r = Raise e).
Proof.
  intros H. rewrite construct_layers. cbn [LeNet5.sm_image LeNet5.init].
  set (s1 := set_cache (<["image" := ImageValue x]> (summary_cache s))
               (add_event (EvImageSummary "image" x) s)).
  destruct (layers_result x s1) as (r & s' & E & Hr).
  exists r, s'. split.
  { erewrite bind_ok; [exact E | apply sm_image_ok; eapply is_image_rank4; exact H]. }
  pose proof (infer_logits_general x B h w H) as L.
  destruct (infer (classifier (flat x))) as [t|e].
  - destruct L as (-> & L). split; [intros _; split; [exact Hr | reflexivity] | ].
    intros N. contradiction.
  - split; [intros C; contradiction | intros _; exact Hr].
Qed.

Lemma forward_accepts_exactly_witness :
  infer (Given "x" 0 [50; 1; 28; 28] Float32) = Ok ([50; 1; 28; 28], Float32)
  /\ exists s',
       LeNet5.construct LeNet5.init (Given "x" 0 [50; 1; 28; 28] Float32) initial_state
       = Some (Ok (classifier (flat (Given "x" 0 [50; 1; 28; 28] Float32))), s')
       /\ infer (classifier (flat (Given "x" 0 [50; 1; 28; 28] Float32)))
          = Ok ([32; 10], Float32).
Proof.
  split; [reflexivity|].
  destruct (forward_accepts_exactly (Given "x" 0 [50; 1; 28; 28] Float32) 50 28 28
              initial_state eq_refl) as (r & s' & E & Hyes & _).
  destruct Hyes as [-> Hi]; [split; [lia | split; [lia | reflexivity]]|].
  exists s'. split; [exact E | exact Hi].
Defined.

(** ** The loss cell on arbitrary arguments *)

Lemma updates_calls evs : Forall is_call evs -> updates evs = [].
Proof.
  induction 1 as [|e evs He _ IH]; [reflexivity|].
  destruct e; try contradiction. exact IH.
Qed.

(** The state the loss cell leaves: operator calls only when it raises,
    operator calls and then the scalar summary when it returns. *)
Lemma loss_construct_cases logits label s :
  exists r evs,
    CrossEntropyLoss.construct CrossEntropyLoss.init logits label s
    = Some (r, match r with
               | Ok loss =>
                   set_cache (<["loss" := ScalarValue loss]> (summary_cache s))
                     (add_events (evs ++ [EvScalarSummary "loss" loss]) s)
               | Raise _ => add_events evs s
               end)
    /\ Forall is_call evs.
Proof.
  unfold CrossEntropyLoss.construct.
  cbn [CrossEntropyLoss.sm_scalar CrossEntropyLoss.cross_entropy CrossEntropyLoss.mean
       CrossEntropyLoss.one_hot CrossEntropyLoss.on_value CrossEntropyLoss.off_value
       CrossEntropyLoss.init].
  unfold bind at 1, lift at 1, F_shape.
  destruct (infer logits) as [[shp dt]|e]; cbn [rbind fst].
  2:{ exists (Raise e), []. rewrite add_events_nil. split; [reflexivity | constructor]. }
  unfold bind at 1, lift at 1, tuple_get at 1.
  destruct (nth_error shp 1) as [depth|].
  2:{ eexists (Raise _), []. rewrite add_events_nil. split; [reflexivity | constructor]. }
  set (oh := OneHot label depth (Scalar 1.0 Float32) (Scalar 0.0 Float32)).
  unfold bind at 1. unfold call at 1, bind, log, lift, ret.
  destruct (infer oh) as [toh|e].
  2:{ exists (Raise e), [EvApply oh]. split; [merge_events; reflexivity | repeat constructor]. }
  unfold SoftmaxCrossEntropyWithLogits, call, bind, log, lift, ret.
  destruct (infer (SoftmaxCrossEntropyLoss logits oh)) as [tps|e].
  2:{ exists (Raise e), [EvApply oh; EvApply (SoftmaxCrossEntropyLoss logits oh)].
      split; [merge_events; reflexivity | repeat constructor]. }
  cbn [tuple_get nth_error].
  set (ps := SoftmaxCrossEntropyLoss logits oh).
  set (ml := ReduceMean [-1] ps).
  destruct (infer ml) as [tml|e] eqn:Eml.
  2:{ exists (Raise e), [EvApply oh; EvApply ps; EvApply ml].
      split; [merge_events; reflexivity | repeat constructor]. }
  unfold ScalarSummary, bind, lift, log, cache_summary, raise. rewrite Eml.
  destruct (shape_eqb tml.1 [] || shape_eqb tml.1 [1]).
  - exists (Ok ml), [EvApply oh; EvApply ps; EvApply ml].
    split; [merge_events; reflexivity | repeat constructor].
  - eexists (Raise _), [EvApply oh; EvApply ps; EvApply ml].
    split; [merge_events; reflexivity | repeat constructor].
Qed.

(** X2.  The loss cell on arbitrary arguments.  [CrossEntropyLoss.construct]
    always ends, never touches the summary writer and makes no optimizer
    update.  When it returns a loss, that loss is what the summary cache holds
    under "loss" and the scalar summary is its last event; when it raises, the
    summary cache is as before and no scalar summary was recorded: the
    summary is the last statement before the return. *)
Theorem loss_summary_all_or_nothing logits label s :
  exists r s',
    CrossEntropyLoss.construct CrossEntropyLoss.init logits label s = Some (r, s')
    /\ writer s' = writer s
    /\ updates (trace s') = updates (trace s)
    /\ match r with
       | Ok loss =>
           summary_cache s' = <["loss" := ScalarValue loss]> (summary_cache s)
           /\ last (trace s') = Some (EvScalarSummary "loss" loss)
       | Raise _ =>
           summary_cache s' = summary_cache s
           /\ forall name v, ~ In (EvScalarSummary name v) (skipn (length (trace s)) (trace s'))
       end.
Proof.
  destruct (loss_construct_cases logits label s) as (r & evs & E & F).
  eexists r, _. split; [exact E|]. destruct r as [loss|e]; cbn.
  - split; [reflexivity|]. split.
    { rewrite !updates_app, (updates_calls evs F). cbn. now rewrite !app_nil_r. }
    split; [reflexivity|]. now rewrite app_assoc, last_snoc.
  - split; [reflexivity|]. split.
    { now rewrite updates_app, (updates_calls evs F), app_nil_r. }
    split; [reflexivity|]. intros name v Hin.
    rewrite skipn_app, skipn_all, Nat.sub_diag in Hin. cbn in Hin.
    rewrite Forall_forall in F. apply list_elem_of_In, F in Hin. exact Hin.
Qed.

(** X3.  Logits without a second dimension.  [F.shape(logits)[1]] is read
    before any operator is called, so on logits of rank 0 or 1 the loss cell
    raises and leaves the state as it was: no operator call in the trace, no
    summary. *)
Theorem loss_rejects_low_rank logits label shp dt s :
  infer logits = Ok (shp, dt) -> (length shp < 2)%nat ->
  exists e, CrossEntropyLoss.construct CrossEntropyLoss.init logits label s
            = Some (Raise e, s).
Proof.
  intros H Hr. unfold CrossEntropyLoss.construct.
  unfold bind at 1, lift at 1, F_shape. rewrite H. cbn [rbind fst].
  unfold bind at 1, lift at 1, tuple_get at 1.
  destruct (nth_error shp 1) as [depth|] eqn:E; [|eauto].
  assert (nth_error shp 1 <> None) as N by congruence.
  apply nth_error_Some in N. lia.
Qed.

Lemma loss_rejects_low_rank_witness :
  infer (Given "logits" 0 [10] Float32) = Ok ([10], Float32)
  /\ (length [10] < 2)%nat
  /\ exists e,
       CrossEntropyLoss.construct CrossEntropyLoss.init
         (Given "logits" 0 [10] Float32) (Given "label" 0 [10] Int32) initial_state
       = Some (Raise e, initial_state).
Proof.
  split; [reflexivity|]. split; [cbn; lia|].
  apply (loss_rejects_low_rank _ _ [10] Float32); [reflexivity | cbn; lia].
Defined.

Lemma shape_eqb_true a b : shape_eqb a b = true -> a = b.
Proof. unfold shape_eqb. apply bool_decide_eq_true_1. Qed.

Lemma infer_per_sample_mismatch logits label n c dtl shy dty :
  infer logits = Ok ([n; c], dtl) ->
  infer label = Ok (shy, dty) ->
  shy <> [n] ->
  match infer (one_hot_labels label c) with
  | Ok _ => exists e, infer (per_sample_loss logits label c) = Raise e
  | Raise _ => True
  end.
Proof.
  intros Hl Hy Hn. unfold per_sample_loss. cbn [infer].
  unfold one_hot_labels at 1. cbn [infer]. rewrite Hl, Hy. cbn [rbind].
  unfold one_hot_labels. cbn [infer]. rewrite Hy. cbn [rbind].
  unfold onehot_rule. cbn [fst snd].
  destruct dty; try exact I.
  destruct (c <? 0); [exact I|].
  destruct (negb _); [exact I|]. cbn [rbind].
  unfold xent_check, require_float.
  destruct dtl; cbn [rbind]; eauto.
  unfold ttype_eqb. cbn [fst snd].
  destruct (shape_eqb [n; c] (shy ++ [c])) eqn:E; cbn [andb rbind]; eauto.
  apply shape_eqb_true in E. exfalso. apply Hn.
  change [n; c] with ([n] ++ [c]) in E. now apply app_inj_tail in E as [<- _].
Qed.

Lemma loss_row_mismatch_raises logits label n c dtl shy dty s :
  infer logits = Ok ([n; c], dtl) ->
  infer label = Ok (shy, dty) ->
  shy <> [n] ->
  exists e s',
    CrossEntropyLoss.construct CrossEntropyLoss.init logits label s = Some (Raise e, s').
Proof.
  intros Hl Hy Hn.
  pose proof (infer_per_sample_mismatch logits label n c dtl shy dty Hl Hy Hn) as M.
  unfold CrossEntropyLoss.construct.
  cbn [CrossEntropyLoss.sm_scalar CrossEntropyLoss.cross_entropy CrossEntropyLoss.mean
       CrossEntropyLoss.one_hot CrossEntropyLoss.on_value CrossEntropyLoss.off_value
       CrossEntropyLoss.init].
  erewrite bind_ok; [ | unfold lift, F_shape; rewrite Hl; reflexivity ].
  erewrite bind_ok; [ | reflexivity ]. cbn [fst].
  fold (one_hot_labels label c).
  destruct (infer (one_hot_labels label c)) as [t|e] eqn:E.
  - erewrite bind_ok; [ | eapply call_ok; exact E ].
    destruct M as [e M]. unfold SoftmaxCrossEntropyWithLogits.
    fold (per_sample_loss logits label c).
    erewrite bind_raise; [ | erewrite bind_raise; [reflexivity | eapply call_raise; exact M] ].
    eauto.
  - erewrite bind_raise; [ | eapply call_raise; exact E ]. eauto.
Qed.

(** X4.  Labels that do not match the logits.  On logits of shape (n, c)
    and labels whose shape is not (n), whatever their element types, the loss
    cell raises (the one-hot labels would not have the shape of the logits);
    no summary is recorded, no update is made and the writer is untouched. *)
Theorem loss_rejects_row_mismatch logits label n c dtl shy dty s :
  infer logits = Ok ([n; c], dtl) ->
  infer label = Ok (shy, dty) ->
  shy <> [n] ->
  exists e s',
    CrossEntropyLoss.construct CrossEntropyLoss.init logits label s = Some (Raise e, s')
    /\ summary_cache s' = summary_cache s
    /\ updates (trace s') = updates (trace s)
    /\ writer s' = writer s.
Proof.
  intros Hl Hy Hn.
  destruct (loss_row_mismatch_raises logits label n c dtl shy dty s Hl Hy Hn) as (e & s' & E).
  destruct (loss_construct_cases logits label s) as (r & evs & E' & F).
  rewrite E in E'. injection E' as <- ->.
  exists e, (add_events evs s). split; [exact E|]. split; [reflexivity|].
  split; [|reflexivity]. cbn. now rewrite updates_app, (updates_calls evs F), app_nil_r.
Qed.

Lemma loss_rejects_row_mismatch_witness :
  infer (Given "logits" 0 [32; 10] Float32) = Ok ([32; 10], Float32)
  /\ infer (Given "label" 0 [16] Int32) = Ok ([16], Int32)
  /\ [16] <> [32]
  /\ exists e s',
       CrossEntropyLoss.construct CrossEntropyLoss.init
         (Given "logits" 0 [32; 10] Float32) (Given "label" 0 [16] Int32) initial_state
       = Some (Raise e, s')
       /\ summary_cache s' = summary_cache initial_state
       /\ updates (trace s') = updates (trace initial_state)
       /\ writer s' = writer initial_state.
Proof.
  split; [reflexivity|]. split; [reflexivity|]. split; [discriminate|].
  apply (loss_rejects_row_mismatch _ _ 32 10 Float32 [16] Int32);
    [reflexivity | reflexivity | discriminate].
Defined.

(** ** The network followed by the loss *)

Lemma construct_result x B h w s :
  infer x = Ok ([B; 1; h; w], Float32) ->
  exists r evs,
    LeNet5.construct LeNet5.init x s
    = Some (r, add_events evs
                 (set_cache (<["image" := ImageValue x]> (summary_cache s))
                    (add_event (EvImageSummary "image" x) s)))
    /\ Forall is_call evs
    /\ match infer (classifier (flat x)) with
       | Ok _ => r = Ok (classifier (flat x))
       | Raise _ => exists e, r = Raise e
       end.
Proof.
  intros H. rewrite construct_layers. cbn [LeNet5.sm_image LeNet5.init].
  erewrite bind_ok; [ | apply sm_image_ok; eapply is_image_rank4; exact H ].
  set (s1 := set_cache _ _).
  destruct (layers_calls_only x s1) as (r & evs & E & F).
  destruct (layers_result x s1) as (r' & s' & E' & Hr).
  rewrite E in E'. injection E' as <- <-.
  exists r, evs. auto.
Qed.

(** X5.  The network followed by the loss, as a training step chains them.
    On B images (float32, one channel, any size) with B labels, B different
    from 32, the chain raises: either the network rejects the images, or it
    regroups them into 32 rows (X1) and then the loss rejects the B labels
    against 32 rows of logits.  No update is made and nothing is recorded
    under "loss". *)
Theorem forward_then_loss_needs_32 x y B h w dty s :
  infer x = Ok ([B; 1; h; w], Float32) ->
  infer y = Ok ([B], dty) ->
  B <> 32 ->
  exists e s',
    (let! out := LeNet5.construct LeNet5.init x in
     CrossEntropyLoss.construct CrossEntropyLoss.init out y) s = Some (Raise e, s')
    /\ updates (trace s') = updates (trace s)
    /\ summary_cache s' !! "loss" = summary_cache s !! "loss"
    /\ writer s' = writer s.
Proof.
  intros Hx Hy HB.
  destruct (construct_result x B h w s Hx) as (r & evs & E & F & Hr).
  pose proof (infer_logits_general x B h w Hx) as L.
  set (s1 := add_events evs _) in E.
  assert (U1 : updates (trace s1) = updates (trace s)).
  { subst s1. cbn. rewrite !updates_app, (updates_calls evs F). cbn. now rewrite !app_nil_r. }
  assert (C1 : summary_cache s1 !! "loss" = summary_cache s !! "loss").
  { subst s1. cbn. now rewrite lookup_insert_ne by discriminate. }
  destruct (infer (classifier (flat x))) as [t|e0] eqn:I.
  - destruct L as (-> & _). subst r.
    erewrite bind_ok; [ | exact E ].
    assert (Hn : [B] <> [32]) by congruence.
    destruct (loss_row_mismatch_raises _ y 32 10 Float32 [B] dty s1 I Hy Hn) as (e & s' & E2).
    destruct (loss_construct_cases (classifier (flat x)) y s1) as (r2 & evs2 & E2' & F2).
    rewrite E2 in E2'. injection E2' as <- ->.
    exists e, (add_events evs2 s1). split; [exact E2|].
    split; [|split; [exact C1 | reflexivity]].
    cbn [trace add_events]. now rewrite updates_app, (updates_calls evs2 F2), app_nil_r.
  - destruct Hr as [e ->].
    erewrite bind_raise; [ | exact E ]. exists e, s1. auto.
Qed.

Lemma forward_then_loss_needs_32_witness :
  infer (Given "x" 0 [50; 1; 28; 28] Float32) = Ok ([50; 1; 28; 28], Float32)
  /\ infer (Given "y" 0 [50] Int32) = Ok ([50], Int32)
  /\ 50 <> 32
  /\ exists e s',
       (let! out := LeNet5.construct LeNet5.init (Given "x" 0 [50; 1; 28; 28] Float32) in
        CrossEntropyLoss.construct CrossEntropyLoss.init out (Given "y" 0 [50] Int32))
         initial_state = Some (Raise e, s')
       /\ updates (trace s') = updates (trace initial_state)
       /\ summary_cache s' !! "loss" = summary_cache initial_state !! "loss"
       /\ writer s' = writer initial_state.
Proof.
  split; [reflexivity|]. split; [reflexivity|]. split; [lia|].
  apply (forward_then_loss_needs_32 _ _ 50 28 28 Int32); [reflexivity | reflexivity | lia].
Defined.

(** ** A pass over the dataset *)

Lemma mnist_rows_NoDup path n : NoDup (map transform (map (mnist_row path) (seq 0 n))).
Proof.
  rewrite map_map. apply NoDup_fmap_2_strong; [|apply NoDup_ListNoDup, seq_NoDup].
  intros i j _ _ E. unfold transform, mnist_row in E. cbn in E. congruence.
Qed.

Lemma pass_rows_split w path n B p :
  1 <= B ->
  exists rem,
    concat (batched_pass w path n B p) ++ rem
      ≡ₚ map transform (map (mnist_row path) (seq 0 n))
    /\ (length rem < Z.to_nat B)%nat
    /\ NoDup (concat (batched_pass w path n B p)).
Proof.
  intros HB. unfold batched_pass.
  destruct (batch_rows_split (Z.to_nat B) (shuffled_pass w path n p) [] ltac:(cbn; lia))
    as (rem & Hs & Hr & _).
  cbn [app] in Hs. exists rem.
  assert (P : concat (batch_rows (Z.to_nat B) true [] (shuffled_pass w path n p)) ++ rem
              ≡ₚ map transform (map (mnist_row path) (seq 0 n))).
  { rewrite <- Hs. apply shuffled_pass_perm. }
  split; [exact P|]. split; [exact Hr|].
  pose proof (mnist_rows_NoDup path n) as N. rewrite <- P in N.
  apply NoDup_app in N. tauto.
Qed.

(** X6.  One pass of the dataset is a shuffle of the source.  With the
    default [repeat_size], the rows of the batches of any iteration, together
    with fewer than [batch_size] rows that were dropped, are a permutation of
    the transformed rows of the source: no row occurs twice in a pass, and no
    row is lost but in the dropped remainder. *)
Theorem pass_is_shuffle_of_source w path B P s d s' :
  create_dataset w path B None P s = Some (Ok d, s') ->
  exists n,
    mnist_dirs w path = Some n
    /\ forall p, exists batches rem,
         iteration d p = Some batches
         /\ concat batches ++ rem ≡ₚ map transform (map (mnist_row path) (seq 0 n))
         /\ (length rem < Z.to_nat (default 32%Z B))%nat
         /\ NoDup (concat batches).
Proof.
  intros H. destruct (create_dataset_ok _ _ _ _ _ _ _ _ H) as (n & Hn & HB & HR & _).
  exists n. split; [exact Hn|]. intros p.
  cbn [default] in HR. unfold ds_repeat in HR. cbn in HR. injection HR as <-.
  cbn [iteration].
  destruct (pass_rows_split w path n (default 32 B) p HB) as (rem & H1 & H2 & H3).
  exists (pipeline_of w path n (default 32 B) p), rem.
  rewrite pipeline_of_pass. auto.
Qed.

Lemma pass_is_shuffle_of_source_witness :
  exists d s',
    create_dataset (ex_world 7 no_fault) "data/train" (Some 3) None None initial_state
    = Some (Ok d, s')
    /\ exists n,
         mnist_dirs (ex_world 7 no_fault) "data/train" = Some n
         /\ forall p, exists batches rem,
              iteration d p = Some batches
              /\ concat batches ++ rem
                   ≡ₚ map transform (map (mnist_row "data/train") (seq 0 n))
              /\ (length rem < Z.to_nat (default 32%Z (Some 3%Z)))%nat
              /\ NoDup (concat batches).
Proof.
  destruct (create_dataset (ex_world 7 no_fault) "data/train" (Some 3) None None initial_state)
    as [[[d|e] s']|] eqn:E;
    try (rewrite create_dataset_eval in E; discriminate E).
  exists d, s'. split; [reflexivity|].
  exact (pass_is_shuffle_of_source _ _ _ _ _ _ _ E).
Defined.

(** ** The dataset feeding the training step *)

Lemma construct_no_update x s :
  exists r s',
    LeNet5.construct LeNet5.init x s = Some (r, s')
    /\ updates (trace s') = updates (trace s)
    /\ writer s' = writer s.
Proof.
  rewrite construct_layers. cbn [LeNet5.sm_image LeNet5.init].
  destruct (is_image x) eqn:I.
  - erewrite bind_ok; [ | apply sm_image_ok; exact I ].
    set (s1 := set_cache _ _).
    destruct (layers_calls_only x s1) as (r & evs & E & F).
    exists r, (add_events evs s1). split; [exact E|]. split; [|reflexivity].
    cbn. rewrite !updates_app, (updates_calls evs F). cbn. now rewrite !app_nil_r.
  - destruct (sm_image_raise "image" x s I) as [e E].
    erewrite bind_raise; [ | exact E ]. eauto.
Qed.

Lemma construct_not_32 x B s :
  infer x = Ok ([B; 1; 32; 32], Float32) -> B <> 32 ->
  exists e s', LeNet5.construct LeNet5.init x s = Some (Raise e, s').
Proof.
  intros H HB. rewrite construct_layers. cbn [LeNet5.sm_image LeNet5.init].
  erewrite bind_ok; [ | apply sm_image_ok; eapply is_image_rank4; exact H ].
  destruct (layers_not_32 x B
              (set_cache (<["image" := ImageValue x]> (summary_cache s))
                 (add_event (EvImageSummary "image" x) s)) H HB) as (e & evs & E).
  rewrite E. eauto.
Qed.

Lemma batch_images_type w path n B p b :
  1 <= B -> In b (batched_pass w path n B p) ->
  infer (Stack (map image b)) = Ok ([B; 1; 32; 32], Float32).
Proof.
  intros HB Hb. pose proof (batched_pass_full w path n B p b HB Hb) as L.
  rewrite (infer_Stack_uniform _ ([1; 32; 32], Float32)).
  - now rewrite length_map, L.
  - destruct b; [cbn in L; lia | discriminate].
  - apply Forall_forall. intros x Hx. apply list_elem_of_In, in_map_iff in Hx as (r & <- & Hr).
    destruct (batched_pass_rows w path n B p b r HB Hb Hr) as (i & _ & ->).
    apply transform_types.
Qed.

(** X7.  What [create_dataset] yields fits the network and the loss.  With
    [batch_size] 32 (given or by default) every batch that any iteration
    yields goes through a training step unless the device fails: the step
    returns, makes exactly one update (by the model's optimizer, with the
    step's number) and leaves the batch's images and its loss in the summary
    cache. *)
Theorem yielded_batch_is_trained w path B R P s d s' lr k p b st :
  create_dataset w path B R P s = Some (Ok d, s') ->
  default 32 B = 32 ->
  yields d p b ->
  device_fault w k = false ->
  exists st',
    train_step w (the_model lr) k b st = Some (Ok tt, st')
    /\ updates (trace st') = updates (trace st) ++ [(the_optimizer lr, k)]
    /\ summary_cache st' !! "loss"
       = Some (ScalarValue (mean_loss (classifier (flat (Stack (map image b))))
                              (Stack (map label b)) 10))
    /\ summary_cache st' !! "image" = Some (ImageValue (Stack (map image b)))
    /\ writer st' = writer st.
Proof.
  intros H HB Hy Hf.
  destruct (create_dataset_ok _ _ _ _ _ _ _ _ H) as (n & Hn & _ & HR & _).
  rewrite HB in HR. destruct (ds_repeat_yields _ _ _ _ _ HR Hy) as [q Hq].
  pose proof (pipeline_batches_good w path n q) as G.
  rewrite Forall_forall in G. apply list_elem_of_In, G in Hq.
  rewrite (train_step_ok w lr k b st Hf Hq). eexists. split; [reflexivity|].
  split.
  { cbn. rewrite updates_app, updates_step. reflexivity. }
  cbn [summary_cache set_cache]. unfold step_cache.
  split; [now simplify_map_eq|]. split; [now simplify_map_eq|]. reflexivity.
Qed.

Lemma yielded_batch_is_trained_witness :
  exists d s' b st',
    create_dataset (ex_world 32 no_fault) "data/train" (Some 32) None None initial_state
    = Some (Ok d, s')
    /\ yields d 0 b
    /\ train_step (ex_world 32 no_fault) (the_model 0.01) 1 b initial_state = Some (Ok tt, st')
    /\ updates (trace st') = [(the_optimizer 0.01, 1)].
Proof.
  assert (E : create_dataset (ex_world 32 no_fault) "data/train" (Some 32) None None
                initial_state
              = Some (Ok (Finite (pipeline_of (ex_world 32 no_fault) "data/train" 32 32)),
                      add_event (EvDatasetOpen "data/train") initial_state))
    by (rewrite create_dataset_eval; reflexivity).
  assert (Hy : yields (Finite (pipeline_of (ex_world 32 no_fault) "data/train" 32 32)) 0
                 (hd [] (pipeline_of (ex_world 32 no_fault) "data/train" 32 32 0%nat)))
    by (vm_compute; left; reflexivity).
  destruct (yielded_batch_is_trained _ _ _ _ _ _ _ _ 0.01%float 1 _ _ initial_state
              E eq_refl Hy eq_refl) as (st' & T & U & _).
  eexists _, _, _, st'. split; [exact E|]. split; [exact Hy|]. split; [exact T | exact U].
Defined.

(** X8.  [create_dataset] accepts every batch size from 1 to 2^31-1, but the
    batches of any size other than 32 are of no use to this network: a
    training step on any such batch raises, and makes no update. *)
Theorem other_batch_size_is_rejected w path B R P s d s' lr k p b st :
  create_dataset w path B R P s = Some (Ok d, s') ->
  default 32 B <> 32 ->
  yields d p b ->
  exists e st',
    train_step w (the_model lr) k b st = Some (Raise e, st')
    /\ updates (trace st') = updates (trace st)
    /\ writer st' = writer st.
Proof.
  intros H HB Hy.
  destruct (create_dataset_ok _ _ _ _ _ _ _ _ H) as (n & Hn & H1 & HR & _).
  destruct (ds_repeat_yields _ _ _ _ _ HR Hy) as [q Hq].
  rewrite pipeline_of_pass in Hq.
  pose proof (batch_images_type w path n _ q b H1 Hq) as Hx.
  unfold train_step. destruct (device_fault w k).
  { eexists _, _. split; [reflexivity|]. split; reflexivity. }
  cbn [network the_model].
  destruct (construct_no_update (Stack (map image b)) st) as (r & st' & E & U & W).
  destruct (construct_not_32 _ _ st Hx HB) as (e & st2 & E2).
  rewrite E in E2. injection E2 as -> <-.
  erewrite bind_raise; [ | exact E ]. eauto.
Qed.

Lemma other_batch_size_is_rejected_witness :
  exists d s' b e st',
    create_dataset (ex_world 7 no_fault) "data/train" (Some 3) None None initial_state
    = Some (Ok d, s')
    /\ default 32 (Some 3) <> 32
    /\ yields d 0 b
    /\ train_step (ex_world 7 no_fault) (the_model 0.01) 1 b initial_state
       = Some (Raise e, st')
    /\ updates (trace st') = [].
Proof.
  assert (E : create_dataset (ex_world 7 no_fault) "data/train" (Some 3) None None
                initial_state
              = Some (Ok (Finite (pipeline_of (ex_world 7 no_fault) "data/train" 7 3)),
                      add_event (EvDatasetOpen "data/train") initial_state))
    by (rewrite create_dataset_eval; reflexivity).
  assert (HB : default 32 (Some 3) <> 32) by (cbn; lia).
  assert (Hy : yields (Finite (pipeline_of (ex_world 7 no_fault) "data/train" 7 3)) 0
                 (hd [] (pipeline_of (ex_world 7 no_fault) "data/train" 7 3 0%nat)))
    by (vm_compute; left; reflexivity).
  destruct (other_batch_size_is_rejected _ _ _ _ _ _ _ _ 0.01%float 1 _ _ initial_state
              E HB Hy) as (e & st' & T & U & _).
  eexists _, _, _, e, st'. split; [exact E|]. split; [exact HB|]. split; [exact Hy|].
  split; [exact T | exact U].
Defined.

(** ** Runs of the entry point *)







Lemma zseq_snoc n : forall a, zseq a (S n) = zseq a n ++ [a + Z.of_nat n].
Proof.
  induction n as [|n IH]; intros a.
  - cbn. now rewrite Z.add_0_r.
  - change (zseq a (S (S n))) with (a :: zseq (a + 1) (S n)). rewrite IH.
    cbn [zseq app]. do 3 f_equal. lia.
Qed.

Lemma zseq_length n : forall a, length (zseq a n) = n.
Proof. induction n as [|n IH]; intros a; cbn; [reflexivity | now rewrite IH]. Qed.

Lemma flush_steps_count n :
  length (List.filter is_flush_step (zseq 1 n)) = (n / 10)%nat.
Proof.
  apply Nat2Z.inj. rewrite Nat2Z.inj_div. change (Z.of_nat 10) with 10.
  induction n as [|n IH]; [reflexivity|].
  rewrite zseq_snoc, List.filter_app, length_app, Nat2Z.inj_add, IH.
  cbn [List.filter]. unfold is_flush_step.
  destruct (Z.eqb_spec ((1 + Z.of_nat n) mod 10) 0) as [E|E]; cbn [length];
    Z.div_mod_to_equations; lia.
Qed.

(** X11.  Whatever the outcome of a run of [main] (normal return, wrong
    device, missing dataset, device failure), the number of summary flushes in
    its trace is the number of updates divided by 10, rounded down: summaries
    are flushed by the callback at the multiples of its [flush_step] = 10 and
    by nothing else, so those of the steps after the last multiple of 10 are
    not flushed. *)
Theorem one_flush_per_ten_updates w data_path device_target summary_dir learning_rate :
  exists r s',
    main w data_path device_target summary_dir learning_rate initial_state = Some (r, s')
    /\ length (flushes (trace s')) = (length (updates (trace s')) / 10)%nat.
Proof.
  destruct (main_run w data_path device_target summary_dir learning_rate initial_state)
    as (r & s' & T & E & Ht & H).
  cbn [trace initial_state app] in Ht. exists r, s'. split; [exact E|]. rewrite Ht.
  destruct (valid_device _).
  2:{ destruct H as (_ & -> & _). reflexivity. }
  destruct (learning_rate_ok _).
  2:{ destruct H as (_ & -> & _). reflexivity. }
  destruct (blank _).
  { destruct H as (_ & -> & _). reflexivity. }
  destruct (mnist_dirs w _) as [n|].
  2:{ destruct H as (_ & -> & _). reflexivity. }
  cbv zeta in H. destruct H as (training & -> & _ & Hu & Hf & _).
  rewrite updates_of_run, flushes_of_run, Hu, Hf;
    try reflexivity; try (destruct (_ =? _)%nat; reflexivity).
  rewrite !length_map, zseq_length. apply flush_steps_count.
Qed.

Lemma string_append_assoc a b c :
  String.append (String.append a b) c = String.append a (String.append b c).
Proof.
  induction a as [|x a IH]; [reflexivity|].
  change (String x (String.append (String.append a b) c)
          = String x (String.append a (String.append b c))).
  now rewrite IH.
Qed.

Lemma endswith_sep_slash a : endswith_sep (String.append a "/") = true.
Proof.
  induction a as [|c a IH]; [reflexivity|].
  change (String.append (String c a) "/") with (String c (String.append a "/")).
  cbn [endswith_sep]. rewrite IH.
  destruct (String.append a "/") eqn:E; [|reflexivity].
  destruct a; discriminate E.
Qed.

Lemma os_path_join_trailing_slash a b :
  a <> "" -> endswith_sep a = false ->
  os_path_join (String.append a "/") b = os_path_join a b.
Proof.
  intros Ha He. unfold os_path_join. destruct (String.prefix "/" b); [reflexivity|].
  rewrite endswith_sep_slash, He, orb_true_r.
  destruct (String.eqb_spec a "") as [->|_]; [contradiction|]. cbn [orb].
  apply string_append_assoc.
Qed.

(** X12.  A slash at the end of [data_path] changes nothing: [os.path.join]
    adds a separator only when there is none, so [main] on [data_path/] is
    [main] on [data_path] (for a non-empty path that does not end in a slash
    already). *)
Theorem trailing_slash_is_ignored w data_path device_target summary_dir learning_rate s :
  data_path <> "" -> endswith_sep data_path = false ->
  main w (String.append data_path "/") device_target summary_dir learning_rate s
  = main w data_path device_target summary_dir learning_rate s.
Proof.
  intros Ha He. rewrite !main_unfold. cbv zeta.
  now rewrite (os_path_join_trailing_slash data_path "train" Ha He).
Qed.

Lemma trailing_slash_is_ignored_witness :
  "./MNIST_Data" <> "" /\ endswith_sep "./MNIST_Data" = false
  /\ main (ex_world 64 no_fault) (String.append "./MNIST_Data" "/") None None None initial_state
     = main (ex_world 64 no_fault) "./MNIST_Data" None None None initial_state.
Proof.
  split; [discriminate|]. split; [reflexivity|].
  apply (trailing_slash_is_ignored (ex_world 64 no_fault) "./MNIST_Data");
    [discriminate | reflexivity].
Defined.

(** ** More forms of the command line *)

Lemma glued_data_path v :
  parse_optional the_parser (String.append "--data_path=" v)
  = Ok (ClsO (Some data_path_action) "--data_path" (Some v)).
Proof. reflexivity. Qed.

Lemma glued_summary_dir v :
  parse_optional the_parser (String.append "--summary_dir=" v)
  = Ok (ClsO (Some summary_dir_action) "--summary_dir" (Some v)).
Proof. reflexivity. Qed.

Lemma glued_device_target v :
  parse_optional the_parser (String.append "--device_target=" v)
  = Ok (ClsO (Some device_target_action) "--device_target" (Some v)).
Proof. reflexivity. Qed.

Lemma glued_learning_rate v :
  parse_optional the_parser (String.append "--learning_rate=" v)
  = Ok (ClsO (Some learning_rate_action) "--learning_rate" (Some v)).
Proof. reflexivity. Qed.

Ltac run_glued_option G Hv :=
  rewrite (parse_glued_option _ _ _ _ _ G eq_refl eq_refl);
  unfold take_action; cbn [remove_first];
  rewrite Hv;
  cbn [get_value check_value type choices dest rbind
       device_target_action data_path_action summary_dir_action learning_rate_action].

(** X13.  The form [--flag=value].  Glued to its flag with an equals sign,
    any value other than [--] is taken as it is, also one with a leading dash
    that would not be read as an argument in the two-word form (C9): paths are
    stored unchanged, the device must be one of the three choices, the
    learning rate must convert to a float, and a value that fails this ends
    with status 2. *)
Theorem equals_form_stores_value w v :
  v <> "--" ->
  (exists ns, parse_args w the_parser [String.append "--data_path=" v] = Ok ns
     /\ stores ns (VStr v) (VStr "Ascend") (VStr "./summary_dir") (VFloat 0.01))
  /\ (exists ns, parse_args w the_parser [String.append "--summary_dir=" v] = Ok ns
        /\ stores ns (VStr "./MNIST_Data") (VStr "Ascend") (VStr v) (VFloat 0.01))
  /\ (if existsb (String.eqb v) ["Ascend"; "GPU"; "CPU"] then
        exists ns, parse_args w the_parser [String.append "--device_target=" v] = Ok ns
          /\ stores ns (VStr "./MNIST_Data") (VStr v) (VStr "./summary_dir") (VFloat 0.01)
      else parse_args w the_parser [String.append "--device_target=" v]
           = Raise (SystemExit 2))
  /\ match parse_float w v with
     | Some f =>
         exists ns, parse_args w the_parser [String.append "--learning_rate=" v] = Ok ns
           /\ stores ns (VStr "./MNIST_Data") (VStr "Ascend") (VStr "./summary_dir") (VFloat f)
     | None => parse_args w the_parser [String.append "--learning_rate=" v]
               = Raise (SystemExit 2)
     end.
Proof.
  intros Hne.
  assert (Hv : String.eqb "--" v = false).
  { destruct (String.eqb_spec "--" v) as [E|_]; [now subst v | reflexivity]. }
  split.
  { run_glued_option (glued_data_path v) Hv. unfold stores. finish_defaults. }
  split.
  { run_glued_option (glued_summary_dir v) Hv. unfold stores. finish_defaults. }
  split.
  { run_glued_option (glued_device_target v) Hv.
    destruct (existsb (String.eqb v) _); [|reflexivity]. cbn [rbind]. unfold stores.
    finish_defaults. }
  run_glued_option (glued_learning_rate v) Hv.
  destruct (parse_float w v); [|reflexivity]. cbn [rbind]. unfold stores.
  finish_defaults.
Qed.

Lemma equals_form_stores_value_witness :
  "-x/data" <> "--"
  /\ exists ns,
       parse_args (ex_world 0 no_fault) the_parser [String.append "--data_path=" "-x/data"]
       = Ok ns
       /\ stores ns (VStr "-x/data") (VStr "Ascend") (VStr "./summary_dir") (VFloat 0.01).
Proof.
  split; [discriminate|].
  apply (equals_form_stores_value (ex_world 0 no_fault) "-x/data"). discriminate.
Defined.

Lemma parse_optional_raise p s e : parse_optional p s = Raise e -> e = SystemExit 2.
Proof.
  unfold parse_optional. destruct s as [|c rest]; [discriminate|].
  destruct (negb (Ascii.eqb c "-")); [discriminate|].
  destruct (lookup_option p (String c rest)); [discriminate|].
  destruct (negb (nonempty rest)); [discriminate|].
  destruct (match split_eq (String c rest) with
            | Some (o, e0) =>
                match lookup_option p o with
                | Some a => Some (ClsO (Some a) o (Some e0))
                | None => None
                end
            | None => None
            end); [discriminate|].
  destruct (get_option_tuples p (String c rest)) as [|[[a1 o1] e1] [|? ?]].
  - destruct (negative_number _); [discriminate|].
    destruct (contains_char _ _); discriminate.
  - discriminate.
  - now intros [= <-].
Qed.

Lemma flag_needs_argument w flag a v :
  parse_optional the_parser flag = Ok (ClsO (Some a) flag None) ->
  String.eqb flag "--" = false -> is_help a = false ->
  ~ reads_as_argument v ->
  parse_args w the_parser [flag; v] = Raise (SystemExit 2).
Proof.
  intros Hf Hd Hh Hv. unfold parse_args. cbn [scan]. rewrite Hd, Hf. cbn [rbind].
  destruct (String.eqb v "--").
  { cbn [map rbind consume]. now rewrite Hh. }
  unfold reads_as_argument in Hv.
  destruct (parse_optional the_parser v) as [c|e] eqn:E.
  - cbn [rbind consume]. rewrite Hh.
    destruct c as [| |[a'|] o' [e'|]]; try reflexivity. now contradiction Hv.
  - cbn [rbind]. now rewrite (parse_optional_raise _ _ _ E).
Qed.

(** X14.  The converse of the two-word form of C9: after one of the four
    flags, a word of ASCII characters that is not read as an argument
    (another flag, [--], a word with a leading dash that is no negative
    number) is never taken as the value; the command line ends with status 2
    and [main] is not called. *)
Theorem value_word_must_read_as_argument w flag v :
  In flag ["--device_target"; "--data_path"; "--summary_dir"; "--learning_rate"] ->
  ascii_word v = true ->
  ~ reads_as_argument v ->
  parse_args w the_parser [flag; v] = Raise (SystemExit 2)
  /\ forall s, __main__ w [flag; v] s = Some (Raise (SystemExit 2), s).
Proof.
  intros Hin _ Hv.
  assert (E : parse_args w the_parser [flag; v] = Raise (SystemExit 2)).
  { destruct Hin as [<- | [<- | [<- | [<- | []]]]].
    - now apply (flag_needs_argument w _ device_target_action).
    - now apply (flag_needs_argument w _ data_path_action).
    - now apply (flag_needs_argument w _ summary_dir_action).
    - now apply (flag_needs_argument w _ learning_rate_action). }
  split; [exact E|]. intros s. now apply main_not_called.
Qed.

Lemma value_word_must_read_as_argument_witness :
  In "--data_path" ["--device_target"; "--data_path"; "--summary_dir"; "--learning_rate"]
  /\ ascii_word "-x/data" = true
  /\ ~ reads_as_argument "-x/data"
  /\ parse_args (ex_world 0 no_fault) the_parser ["--data_path"; "-x/data"]
     = Raise (SystemExit 2)
  /\ forall s, __main__ (ex_world 0 no_fault) ["--data_path"; "-x/data"] s
               = Some (Raise (SystemExit 2), s).
Proof.
  assert (H1 : In "--data_path"
                 ["--device_target"; "--data_path"; "--summary_dir"; "--learning_rate"])
    by (right; left; reflexivity).
  assert (H2 : ~ reads_as_argument "-x/data") by (intros H; discriminate H).
  split; [exact H1|]. split; [reflexivity|]. split; [exact H2|].
  exact (value_word_must_read_as_argument (ex_world 0 no_fault) "--data_path" "-x/data"
           H1 eq_refl H2).
Defined.

(** ** Abbreviated flags *)

Lemma option_string_actions_in p o a :
  In (o, a) (option_string_actions p) -> In a (actions p) /\ In o (option_strings a).
Proof.
  unfold option_string_actions. intros F.
  apply in_flat_map in F as (a0 & Ha0 & F).
  apply in_map_iff in F as (o' & [= <- <-] & Ho). auto.
Qed.

Lemma lookup_option_registered p s a :
  lookup_option p s = Some a -> In (s, a) (option_string_actions p).
Proof.
  unfold lookup_option. destruct (find _ _) as [[o a']|] eqn:F; [|discriminate].
  intros [= <-]. apply find_some in F as [F E]. cbn [fst] in E.
  apply String.eqb_eq in E. now subst o.
Qed.

Lemma get_option_tuples_registered p s a o :
  In (a, o, None) (get_option_tuples p s) -> In (o, a) (option_string_actions p).
Proof.
  unfold get_option_tuples. destruct s as [|c1 [|c2 s]]; try contradiction.
  destruct (Ascii.eqb c2 "-").
  - destruct (split_eq _) as [[op ex]|]; intros H;
      apply in_flat_map in H as ([o' a'] & Hin & H); cbn [fst snd] in H;
      destruct (String.prefix _ _); try contradiction;
      destruct H as [[= <- <-]|[]]; exact Hin.
  - intros H. apply in_flat_map in H as ([o' a'] & Hin & H); cbn [fst snd] in H.
    destruct (String.eqb _ _).
    + destruct H as [H|[]]. discriminate H.
    + destruct (String.prefix _ _); try contradiction.
      destruct H as [[= <- <-]|[]]. exact Hin.
Qed.

Lemma parse_optional_registered p s a o :
  parse_optional p s = Ok (ClsO (Some a) o None) -> In (o, a) (option_string_actions p).
Proof.
  unfold parse_optional. destruct s as [|c rest]; [discriminate|].
  destruct (negb (Ascii.eqb c "-")); [discriminate|].
  destruct (lookup_option p (String c rest)) as [a0|] eqn:L.
  { intros [= <- <-]. apply lookup_option_registered, L. }
  destruct (negb (nonempty rest)); [discriminate|].
  destruct (split_eq (String c rest)) as [[op ex]|] eqn:S.
  - destruct (lookup_option p op) as [a0|] eqn:L2; [discriminate|].
    destruct (get_option_tuples p (String c rest)) as [|[[a1 o1] e1] [|? ?]] eqn:G.
    + destruct (negative_number _); [discriminate|].
      destruct (contains_char _ _); discriminate.
    + intros [= <- <- ->]. apply (get_option_tuples_registered p (String c rest)).
      rewrite G. now left.
    + discriminate.
  - destruct (get_option_tuples p (String c rest)) as [|[[a1 o1] e1] [|? ?]] eqn:G.
    + destruct (negative_number _); [discriminate|].
      destruct (contains_char _ _); discriminate.
    + intros [= <- <- ->]. apply (get_option_tuples_registered p (String c rest)).
      rewrite G. now left.
    + discriminate.
Qed.

Lemma registered_parses o a :
  In (o, a) (option_string_actions the_parser) ->
  parse_optional the_parser o = Ok (ClsO (Some a) o None) /\ String.eqb o "--" = false.
Proof.
  intros H. cbn in H.
  destruct H as [[= <- <-] | [[= <- <-] | [[= <- <-] | [[= <- <-] | [[= <- <-] | [[= <- <-] | []]]]]]];
    split; reflexivity.
Qed.

(** X15.  Abbreviations.  The parser is built with [allow_abbrev] at its
    default, so a word that the parser reads as the option [o] (an unambiguous
    prefix of it, such as [--data] for [--data_path]) is handled as [o]
    itself: the result of parsing is the same with either spelling. *)
Theorem abbreviated_flag w s a o rest :
  parse_optional the_parser s = Ok (ClsO (Some a) o None) ->
  parse_args w the_parser (s :: rest) = parse_args w the_parser (o :: rest).
Proof.
  intros H. destruct (registered_parses o a (parse_optional_registered _ _ _ _ H)) as [Ho Hd].
  assert (Hs : String.eqb s "--" = false).
  { destruct (String.eqb_spec s "--") as [->|_]; [discriminate H | reflexivity]. }
  unfold parse_args. cbn [scan]. rewrite Hs, Hd, H, Ho. cbn [rbind].
  destruct (scan the_parser rest) as [cs|e]; reflexivity.
Qed.

Lemma abbreviated_flag_witness :
  parse_optional the_parser "--data" = Ok (ClsO (Some data_path_action) "--data_path" None)
  /\ parse_args (ex_world 0 no_fault) the_parser ["--data"; "/mnt/mnist"]
     = parse_args (ex_world 0 no_fault) the_parser ["--data_path"; "/mnt/mnist"].
Proof.
  split; [reflexivity|].
  apply (abbreviated_flag (ex_world 0 no_fault) "--data" data_path_action "--data_path").
  reflexivity.
Defined.

(** ** Two options on one command line *)

Lemma take_action_word w a v ns :
  String.eqb "--" v = false ->
  take_action w a [v] ns = rbind (stored_value w a v) (fun x => Ok (<[dest a := x]> ns)).
Proof.
  intros Hv. unfold take_action, stored_value. cbn [remove_first]. rewrite Hv.
  destruct (get_value w a v) as [x|e]; [|reflexivity]. cbn [rbind].
  destruct (check_value a x); reflexivity.
Qed.

Lemma stored_value_raise w a v e : stored_value w a v = Raise e -> e = SystemExit 2.
Proof.
  unfold stored_value, get_value, check_value.
  destruct (type a).
  - cbn [rbind]. destruct (choices a) as [cs|]; [|discriminate].
    destruct (existsb _ cs); [discriminate|]. now intros [= <-].
  - destruct (parse_float w v) as [f|]; [|now intros [= <-]]. cbn [rbind].
    destruct (choices a) as [cs|]; [|discriminate]. now intros [= <-].
Qed.

Lemma parse_two_options w f1 a1 v1 f2 a2 v2 :
  parse_optional the_parser f1 = Ok (ClsO (Some a1) f1 None) ->
  String.eqb f1 "--" = false -> is_help a1 = false ->
  parse_optional the_parser f2 = Ok (ClsO (Some a2) f2 None) ->
  String.eqb f2 "--" = false -> is_help a2 = false ->
  reads_as_argument v1 -> reads_as_argument v2 ->
  parse_args w the_parser [f1; v1; f2; v2]
  = rbind (stored_value w a1 v1) (fun x1 =>
    rbind (stored_value w a2 v2) (fun x2 =>
      convert_defaults w [dest a2; dest a1] (actions the_parser)
        (<[dest a2 := x2]> (<[dest a1 := x1]> default_namespace)))).
Proof.
  intros Hf1 Hd1 Hh1 Hf2 Hd2 Hh2 Hv1 Hv2. unfold parse_args. cbn [scan].
  rewrite Hd1, Hf1, (argument_not_dashes v1 Hv1), Hv1, Hd2, Hf2,
    (argument_not_dashes v2 Hv2), Hv2.
  cbn [rbind consume]. rewrite Hh1.
  rewrite initial_namespace_eq. unfold store. cbn [ps_namespace].
  rewrite (take_action_word w a1 v1 _ (argument_not_dashes' v1 Hv1)).
  destruct (stored_value w a1 v1) as [x1|e]; [|reflexivity].
  cbn [rbind consume ps_namespace]. rewrite Hh2.
  rewrite (take_action_word w a2 v2 _ (argument_not_dashes' v2 Hv2)).
  destruct (stored_value w a2 v2) as [x2|e]; [|reflexivity].
  cbn [rbind consume ps_seen ps_extras ps_namespace].
  destruct (convert_defaults _ _ _ _); reflexivity.
Qed.

Lemma convert_defaults_seen w acts : forall seen seen' ns,
  (forall d, existsb (String.eqb d) seen = existsb (String.eqb d) seen') ->
  convert_defaults w seen acts ns = convert_defaults w seen' acts ns.
Proof.
  induction acts as [|a acts IH]; intros seen seen' ns H; [reflexivity|].
  cbn [convert_defaults]. destruct (default_value a) as [[d|f|l]|]; try (now apply IH).
  rewrite (H (dest a)). destruct (existsb _ seen'); [now apply IH|].
  destruct (get_value w a d); [|reflexivity]. cbn [rbind]. now apply IH.
Qed.

Lemma declared_flag flag :
  In flag ["--device_target"; "--data_path"; "--summary_dir"; "--learning_rate"] ->
  exists a,
    parse_optional the_parser flag = Ok (ClsO (Some a) flag None)
    /\ String.eqb flag "--" = false /\ is_help a = false
    /\ String.append "--" (dest a) = flag.
Proof.
  intros [<- | [<- | [<- | [<- | []]]]];
    [ exists device_target_action | exists data_path_action
    | exists summary_dir_action | exists learning_rate_action ];
    repeat split; reflexivity.
Qed.

(** X16.  The order of the flags is irrelevant: two different declared flags
    with their values give the same result of [parse_args], namespace or
    error, in either order. *)
Theorem flag_order_is_irrelevant w f1 v1 f2 v2 :
  In f1 ["--device_target"; "--data_path"; "--summary_dir"; "--learning_rate"] ->
  In f2 ["--device_target"; "--data_path"; "--summary_dir"; "--learning_rate"] ->
  f1 <> f2 ->
  reads_as_argument v1 -> reads_as_argument v2 ->
  parse_args w the_parser [f1; v1; f2; v2] = parse_args w the_parser [f2; v2; f1; v1].
Proof.
  intros H1 H2 Hne Hv1 Hv2.
  destruct (declared_flag f1 H1) as (a1 & Hf1 & Hd1 & Hh1 & E1).
  destruct (declared_flag f2 H2) as (a2 & Hf2 & Hd2 & Hh2 & E2).
  assert (Hdest : dest a1 <> dest a2) by (intros E; apply Hne; now rewrite <- E1, <- E2, E).
  rewrite (parse_two_options w f1 a1 v1 f2 a2 v2), (parse_two_options w f2 a2 v2 f1 a1 v1)
    by assumption.
  destruct (stored_value w a1 v1) as [x1|e1] eqn:S1;
    destruct (stored_value w a2 v2) as [x2|e2] eqn:S2; cbn [rbind].
  - unfold namespace. rewrite (insert_insert_ne _ (dest a2) (dest a1)) by congruence.
    apply convert_defaults_seen. intros d. cbn [existsb]. now rewrite !orb_false_r, orb_comm.
  - reflexivity.
  - reflexivity.
  - now rewrite (stored_value_raise _ _ _ _ S1), (stored_value_raise _ _ _ _ S2).
Qed.

Lemma flag_order_is_irrelevant_witness :
  In "--data_path" ["--device_target"; "--data_path"; "--summary_dir"; "--learning_rate"]
  /\ In "--device_target" ["--device_target"; "--data_path"; "--summary_dir"; "--learning_rate"]
  /\ "--data_path" <> "--device_target"
  /\ reads_as_argument "/mnt/mnist" /\ reads_as_argument "GPU"
  /\ parse_args (ex_world 0 no_fault) the_parser
       ["--data_path"; "/mnt/mnist"; "--device_target"; "GPU"]
     = parse_args (ex_world 0 no_fault) the_parser
         ["--device_target"; "GPU"; "--data_path"; "/mnt/mnist"].
Proof.
  assert (H1 : In "--data_path"
                 ["--device_target"; "--data_path"; "--summary_dir"; "--learning_rate"])
    by (right; left; reflexivity).
  assert (H2 : In "--device_target"
                 ["--device_target"; "--data_path"; "--summary_dir"; "--learning_rate"])
    by (left; reflexivity).
  assert (H3 : "--data_path" <> "--device_target") by discriminate.
  assert (H4 : reads_as_argument "/mnt/mnist") by reflexivity.
  assert (H5 : reads_as_argument "GPU") by reflexivity.
  split; [exact H1|]. split; [exact H2|]. split; [exact H3|].
  split; [exact H4|]. split; [exact H5|].
  exact (flag_order_is_irrelevant (ex_world 0 no_fault) _ _ _ _ H1 H2 H3 H4 H5).
Defined.

(** X17.  A flag given twice.  When its first value is acceptable, the
    command line is read as if only the second occurrence were there: the
    last value wins, and with an unacceptable second value the command line is
    rejected. *)
Theorem repeated_flag_last_wins w flag v1 v2 :
  In flag ["--device_target"; "--data_path"; "--summary_dir"; "--learning_rate"] ->
  reads_as_argument v1 -> reads_as_argument v2 ->
  (exists ns, parse_args w the_parser [flag; v1] = Ok ns) ->
  parse_args w the_parser [flag; v1; flag; v2] = parse_args w the_parser [flag; v2].
Proof.
  intros Hin Hv1 Hv2 [ns1 E1].
  destruct (declared_flag flag Hin) as (a & Hf & Hd & Hh & _).
  rewrite (parse_one_option w flag a v1 Hf Hd Hh Hv1),
    (take_action_word w a v1 _ (argument_not_dashes' v1 Hv1)) in E1.
  rewrite (parse_two_options w flag a v1 flag a v2) by assumption.
  rewrite (parse_one_option w flag a v2 Hf Hd Hh Hv2),
    (take_action_word w a v2 _ (argument_not_dashes' v2 Hv2)).
  destruct (stored_value w a v1) as [x1|e]; [|discriminate E1]. cbn [rbind].
  destruct (stored_value w a v2) as [x2|e]; [|reflexivity]. cbn [rbind].
  unfold namespace. rewrite insert_insert_eq.
  apply convert_defaults_seen. intros d. cbn [existsb].
  now destruct (String.eqb d (dest a)).
Qed.

Lemma repeated_flag_last_wins_witness :
  In "--device_target" ["--device_target"; "--data_path"; "--summary_dir"; "--learning_rate"]
  /\ reads_as_argument "GPU" /\ reads_as_argument "CPU"
  /\ (exists ns, parse_args (ex_world 0 no_fault) the_parser ["--device_target"; "GPU"] = Ok ns)
  /\ parse_args (ex_world 0 no_fault) the_parser
       ["--device_target"; "GPU"; "--device_target"; "CPU"]
     = parse_args (ex_world 0 no_fault) the_parser ["--device_target"; "CPU"].
Proof.
  assert (H1 : In "--device_target"
                 ["--device_target"; "--data_path"; "--summary_dir"; "--learning_rate"])
    by (left; reflexivity).
  assert (H2 : reads_as_argument "GPU") by reflexivity.
  assert (H3 : reads_as_argument "CPU") by reflexivity.
  assert (H4 : exists ns, parse_args (ex_world 0 no_fault) the_parser
                            ["--device_target"; "GPU"] = Ok ns).
  { destruct (parse_device_target (ex_world 0 no_fault) "GPU" H2) as (ns & E & _).
    exists ns. exact E. }
  split; [exact H1|]. split; [exact H2|]. split; [exact H3|]. split; [exact H4|].
  exact (repeated_flag_last_wins (ex_world 0 no_fault) _ _ _ H1 H2 H3 H4).
Defined.

(** ** From the command line to the training run *)

Lemma cli_data_path_forwarded w p s :
  reads_as_argument p ->
  __main__ w ["--data_path"; p] s
  = main w p (Some "Ascend") (Some "./summary_dir") (Some 0.01%float) s.
Proof.
  intros Hp. destruct (parse_data_path w p Hp) as (ns & E & H1 & H2 & H3 & H4).
  now rewrite (main_forwarded w _ ns s _ _ _ _ E H1 H2 H3 H4).
Qed.

(** X18.  From the command line to the run.  For [--data_path p], the
    block under [__main__] runs [main] with the defaults for everything else:
    the only directory opened is [os.path.join(p, "train")], every update is by
    Momentum with learning rate 0.01 and momentum 0.9, every flush goes to
    [./summary_dir], and the run returns normally exactly when that directory
    holds a dataset and no step of the epoch fails. *)
Theorem cli_data_path_run w p :
  reads_as_argument p ->
  exists r s',
    __main__ w ["--data_path"; p] initial_state = Some (r, s')
    /\ dataset_opens (trace s') = [os_path_join p "train"]
    /\ (forall opt k, In (opt, k) (updates (trace s')) ->
          opt = Momentum (LeNet5.trainable_params LeNet5.init) 0.01 0.9)
    /\ (forall d k, In (d, k) (flushes (trace s')) -> d = "./summary_dir")
    /\ (r = Ok tt <->
          exists n, mnist_dirs w (os_path_join p "train") = Some n
                    /\ steps_run w 0 (n / 32) = (n / 32)%nat).
Proof.
  intros Hp. rewrite (cli_data_path_forwarded w p initial_state Hp).
  destruct (main_run w p (Some "Ascend") (Some "./summary_dir") (Some 0.01%float)
              initial_state) as (r & s' & T & E & Ht & H).
  cbn [trace initial_state app] in Ht. cbv [default from_option id] in H.
  change (valid_device "Ascend") with true in H.
  change (learning_rate_ok 0.01) with true in H.
  change (blank "./summary_dir") with false in H. cbv iota in H.
  exists r, s'. split; [exact E|]. rewrite Ht. clear E Ht.
  destruct (mnist_dirs w (os_path_join p "train")) as [n|].
  2:{ destruct H as (-> & -> & _). cbn.
      repeat split; try contradiction; try discriminate.
      intros [n [? _]]. discriminate. }
  cbv zeta in H. destruct H as (training & -> & Hd & Hu & Hf & _ & H).
  rewrite !dataset_opens_app, !updates_app, !flushes_app, Hd, Hu, Hf.
  assert (Hpost : forall b : bool,
            dataset_opens (if b then [EvSummaryClose "./summary_dir"; EvPrint end_banner]
                           else []) = []
            /\ updates (if b then [EvSummaryClose "./summary_dir"; EvPrint end_banner]
                        else []) = []
            /\ flushes (if b then [EvSummaryClose "./summary_dir"; EvPrint end_banner]
                        else []) = [])
    by (intros []; repeat split; reflexivity).
  destruct (Hpost (steps_run w 0 (n / 32) =? n / 32)%nat) as (-> & -> & ->).
  cbn [dataset_opens updates flushes flat_map app]. rewrite !app_nil_r.
  split; [reflexivity|]. split.
  { intros opt k Hin. apply in_map_iff in Hin as (j & [= <- _] & _). reflexivity. }
  split.
  { intros d k Hin. apply in_map_iff in Hin as (j & [= <- _] & _). reflexivity. }
  destruct (Nat.eqb_spec (steps_run w 0 (n / 32)) (n / 32)) as [D|D].
  - destruct H as [-> _]. split; [|reflexivity]. intros _. exists n. auto.
  - destruct H as [-> _]. split; [discriminate|]. intros [m [[= <-] Hm]]. contradiction.
Qed.

Lemma cli_data_path_run_witness :
  reads_as_argument "data"
  /\ exists r s',
       __main__ (ex_world 64 no_fault) ["--data_path"; "data"] initial_state = Some (r, s')
       /\ dataset_opens (trace s') = [os_path_join "data" "train"]
       /\ (forall opt k, In (opt, k) (updates (trace s')) ->
             opt = Momentum (LeNet5.trainable_params LeNet5.init) 0.01 0.9)
       /\ (forall d k, In (d, k) (flushes (trace s')) -> d = "./summary_dir")
       /\ (r = Ok tt <->
             exists n, mnist_dirs (ex_world 64 no_fault) (os_path_join "data" "train") = Some n
                       /\ steps_run (ex_world 64 no_fault) 0 (n / 32) = (n / 32)%nat).
Proof.
  split; [reflexivity|].
  apply (cli_data_path_run (ex_world 64 no_fault) "data"). reflexivity.
Defined.
